(** * Hybrid aggregation engine and cost recalculation of the TSDB controller

    A shallow embedding of [src/hive/src/controllers/tsdb.controller.ts]:
    the window partitioner, the rollup/raw merger and the router of
    [GET /logs], the period summary of [GET /metrics] and the batch loop of
    [POST /recalculate-costs].

    Conventions of the embedding.
    - A JavaScript [Date] is the integer of [getTime()], milliseconds since
      the epoch, as [Z].
    - A JavaScript number is a rational [Q]; [NaN] is [None] of an [option].
      Counts produced by [parseInt] are [Z].
    - PostgreSQL is an external collaborator.  A query the handler sends is
      either evaluated on an in-memory table (recalculation, and the event
      store of [/logs]) or answered by an oracle that returns rows or throws.
    - The events of the store of [/logs] carry whole milliseconds.  The table
      of the recalculation carries microseconds, as [timestamptz] stores
      them: a row read into a [Date] loses them, and the order of rows of
      one timestamp is the server's, query by query.
    - Numbers are exact, the rounding of doubles is not modelled. *)

From Stdlib Require Import ZArith QArith Qabs Qround Bool List String Ascii Lia Lqa.
From Stdlib Require Import Permutation Sorted.
Import ListNotations.

Local Open Scope Z_scope.

(** ** JavaScript primitives used by the controller *)

Module Js.

(** [NaN]-aware integers: the result of [parseInt]. *)
Definition jsint := option Z.

(** White space skipped by [parseInt] and removed by [String.prototype.trim]
    (the ASCII part of the ECMAScript set: TAB, LF, VT, FF, CR, SP). *)
Definition isWhiteSpace (c : ascii) : bool :=
  let n := nat_of_ascii c in
  ((9 <=? n) && (n <=? 13))%nat || (n =? 32)%nat.

Definition digitValue (c : ascii) : option Z :=
  let n := nat_of_ascii c in
  if ((48 <=? n) && (n <=? 57))%nat then Some (Z.of_nat n - 48) else None.

Fixpoint skipWhiteSpace (s : list ascii) : list ascii :=
  match s with
  | c :: rest => if isWhiteSpace c then skipWhiteSpace rest else s
  | [] => []
  end.

(** The longest prefix of decimal digits, accumulated left to right; the
    boolean records whether at least one digit was read. *)
Fixpoint readDigits (s : list ascii) (acc : Z) (seen : bool) : Z * bool :=
  match s with
  | c :: rest =>
      match digitValue c with
      | Some d => readDigits rest (10 * acc + d) true
      | None => (acc, seen)
      end
  | [] => (acc, seen)
  end.

(** [parseInt(s, 10)]. *)
Definition parseInt (s : string) : jsint :=
  let body := skipWhiteSpace (list_ascii_of_string s) in
  let '(sign, digits) :=
    match body with
    | "-"%char :: rest => (-1, rest)
    | "+"%char :: rest => (1, rest)
    | _ => (1, body)
    end in
  let '(n, any) := readDigits digits 0 false in
  if any then Some (sign * n) else None.

(** [Math.min] and [Math.max] return [NaN] as soon as one argument is. *)
Definition Math_min (a b : jsint) : jsint :=
  match a, b with
  | Some x, Some y => Some (Z.min x y)
  | _, _ => None
  end.

Definition Math_max (a b : jsint) : jsint :=
  match a, b with
  | Some x, Some y => Some (Z.max x y)
  | _, _ => None
  end.

(** [x || dflt] on an optional query-string parameter: [undefined] and the
    empty string are falsy. *)
Definition orString (x : option string) (dflt : string) : string :=
  match x with
  | Some EmptyString => dflt
  | Some s => s
  | None => dflt
  end.

(** [parseInt(v) || 0]: [NaN] and [0] are falsy. *)
Definition intOrZero (v : jsint) : Z :=
  match v with Some n => n | None => 0 end.

(** [parseFloat(v) || 0]. *)
Definition numOrZero (v : option Q) : Q :=
  match v with Some q => q | None => 0%Q end.

(** [String.prototype.trim]. *)
Definition trimStart (s : list ascii) : list ascii := skipWhiteSpace s.

Definition trim (s : string) : string :=
  string_of_list_ascii
    (rev (trimStart (rev (trimStart (list_ascii_of_string s))))).

(** [s.split(",")]: the pieces between commas, at least one piece. *)
Fixpoint splitComma (s : list ascii) (cur : list ascii) : list string :=
  match s with
  | [] => [string_of_list_ascii (rev cur)]
  | c :: rest =>
      if Ascii.eqb c ","%char
      then string_of_list_ascii (rev cur) :: splitComma rest []
      else splitComma rest (c :: cur)
  end.

Definition split (s : string) : list string :=
  splitComma (list_ascii_of_string s) [].

(** [Array.prototype.includes] on strings. *)
Definition includes (l : list string) (x : string) : bool :=
  existsb (String.eqb x) l.

(** [Array.prototype.join] with a separator. *)
Fixpoint join (sep : string) (l : list string) : string :=
  match l with
  | [] => EmptyString
  | [x] => x
  | x :: rest => (x ++ sep ++ join sep rest)%string
  end.

(** [Array.prototype.slice(start, end)] with its argument conversions:
    [NaN] becomes 0, a negative index counts from the end, both indices
    are clamped to the length. *)
Definition sliceIndex (len : Z) (i : jsint) : Z :=
  let rel := intOrZero i in
  if rel <? 0 then Z.max (len + rel) 0 else Z.min rel len.

Definition slice {A : Type} (l : list A) (from to : jsint) : list A :=
  let len := Z.of_nat (List.length l) in
  let k := sliceIndex len from in
  let final := sliceIndex len to in
  firstn (Z.to_nat (final - k)) (skipn (Z.to_nat k) l).

(** [a + b] on numbers that may be [NaN]. *)
Definition add (a b : jsint) : jsint :=
  match a, b with
  | Some x, Some y => Some (x + y)
  | _, _ => None
  end.

End Js.

(** ** Window partitioner (lines 238-266) *)

Module Partition.

(** [utcDayStart]: [setUTCHours(0,0,0,0)] floors to the UTC midnight at or
    before the instant, also before the epoch. *)
Definition utcDayStart (d : Z) : Z := (d / 86400000) * 86400000.

Definition addUtcDays (d days : Z) : Z := d + days * 24 * 60 * 60 * 1000.

Definition fullBucketStart (startDate : Z) : Z :=
  if startDate =? utcDayStart startDate
  then utcDayStart startDate
  else addUtcDays (utcDayStart startDate) 1.

Definition fullBucketEnd (endDate : Z) : Z := utcDayStart endDate.

Definition hasFullBuckets (startDate endDate : Z) : bool :=
  fullBucketStart startDate <? fullBucketEnd endDate.

Record range := mkRange { r_start : Z; r_end : Z }.

(** [pushRange] appends to [partialRanges] unless the range is empty. *)
Definition pushRange (acc : list range) (rangeStart rangeEnd : Z)
  : list range :=
  if rangeEnd <=? rangeStart then acc
  else acc ++ [mkRange rangeStart rangeEnd].

Definition partialRanges (startDate endDate : Z) : list range :=
  let acc1 :=
    pushRange [] startDate (Z.min endDate (fullBucketStart startDate)) in
  pushRange acc1 (Z.max startDate (fullBucketEnd endDate)) endDate.

(** The full-bucket range as the code passes it to the rollup query. *)
Definition fullBucketRange (startDate endDate : Z) : range :=
  mkRange (fullBucketStart startDate) (fullBucketEnd endDate).

(** Membership of an instant in a half-open range [[s, e)]. *)
Definition covers (r : range) (t : Z) : bool :=
  (r_start r <=? t) && (t <? r_end r).

(** The pieces the partitioner hands out: the full range, then the
    partial ranges. *)
Definition pieces (startDate endDate : Z) : list range :=
  fullBucketRange startDate endDate :: partialRanges startDate endDate.

(** How many pieces contain the instant [t]. *)
Definition piecesCovering (startDate endDate t : Z) : nat :=
  List.length (filter (fun r => covers r t) (pieces startDate endDate)).

(** The contract of the partitioner: pairwise disjoint pieces whose union
    is [[start, end)], i.e. every instant of the window lies in exactly
    one piece and every other instant in none. *)
Definition partitionContract (startDate endDate : Z) : Prop :=
  forall t,
    piecesCovering startDate endDate t =
    if (startDate <=? t) && (t <? endDate) then 1%nat else 0%nat.

End Partition.

(** ** JSON bodies of the responses *)

Module Json.

#[local] Set Warnings "-register-all".

Inductive json : Type :=
| JNull
| JBool (b : bool)
| JNum (q : Q)
| JStr (s : string)
| JDate (ms : Z)
| JArr (items : list json)
| JObj (fields : list (string * json)).

Definition JInt (n : Z) : json := JNum (inject_Z n).

Fixpoint assoc (k : string) (fields : list (string * json)) : option json :=
  match fields with
  | [] => None
  | (k', v) :: rest => if String.eqb k k' then Some v else assoc k rest
  end.

(** Property access on a body: [None] when the key is absent. *)
Definition jget (k : string) (j : json) : option json :=
  match j with
  | JObj fields => assoc k fields
  | _ => None
  end.

(** The elements of an array body. *)
Definition items (j : json) : list json :=
  match j with
  | JArr l => l
  | _ => []
  end.

(** The property [k] of every element of the array under [field]. *)
Definition column (field k : string) (j : json) : list (option json) :=
  match jget field j with
  | Some arr => map (jget k) (items arr)
  | None => []
  end.

(** [res.status(code).json(body)]; [res.json(body)] is status 200. *)
Record Response := mkResponse { status : Z; body : json }.

Definition ok (b : json) : Response := mkResponse 200 b.

End Json.

(** A database call either returns or throws. *)
Inductive outcome (A : Type) : Type :=
| Returns (a : A)
| Throws (message : string).
Arguments Returns {A} a.
Arguments Throws {A} message.

Definition bindOutcome {A B : Type} (c : outcome A) (k : A -> outcome B)
  : outcome B :=
  match c with
  | Returns a => k a
  | Throws m => Throws m
  end.

Notation "x <- c ;; k" := (bindOutcome c (fun x => k))
  (at level 61, c at next level, right associativity).

(** [await Promise.all(xs.map(f))]: rejects as soon as one call rejects. *)
Fixpoint awaitAll {A B : Type} (f : A -> outcome B) (xs : list A)
  : outcome (list B) :=
  match xs with
  | [] => Returns []
  | x :: rest =>
      y <- f x ;;
      ys <- awaitAll f rest ;;
      Returns (y :: ys)
  end.

(** ** Aggregation merger (lines 268-323) *)

Module Merge.

(** A row of an aggregate query.  The numeric columns are kept as what
    [parseInt] and [parseFloat] read from them ([None]: [NaN]), the only
    way the controller looks at them. *)
Record QueryRow := mkQueryRow {
  q_cols : list (string * string);
  q_request_count : Js.jsint;
  q_total_input_tokens : Js.jsint;
  q_total_output_tokens : Js.jsint;
  q_total_tokens : Js.jsint;
  q_total_cost : option Q;
  q_avg_latency_ms : option Q;
  q_first_seen : Z;
  q_last_seen : Z
}.

(** [row[f]] on a group column; [None] is [undefined]/[null]. *)
Fixpoint col (cols : list (string * string)) (f : string) : option string :=
  match cols with
  | [] => None
  | (k, v) :: rest => if String.eqb f k then Some v else col rest f
  end.

Record MergedRow := mkMergedRow {
  m_keys : list (string * option string);
  request_count : Z;
  total_input_tokens : Z;
  total_output_tokens : Z;
  total_tokens : Z;
  total_cost : Q;
  avg_latency_ms : Q;
  latency_sum : Q;
  first_seen : Z;
  last_seen : Z
}.

(** [keyFields.map((f) => row[f]).join("|")]; [join] prints [undefined]
    as the empty string. *)
Definition rowKey (keyFields : list string) (row : QueryRow) : string :=
  Js.join "|"
    (map (fun f => match col (q_cols row) f with
                   | Some v => v
                   | None => EmptyString
                   end) keyFields).

(** The [Map<string, MergedRow>]: entries in insertion order, [set] on a
    present key replaces the value in place. *)
Definition MergedMap := list (string * MergedRow).

Fixpoint mapGet (key : string) (m : MergedMap) : option MergedRow :=
  match m with
  | [] => None
  | (k, v) :: rest => if String.eqb key k then Some v else mapGet key rest
  end.

Fixpoint mapSet (key : string) (v : MergedRow) (m : MergedMap) : MergedMap :=
  match m with
  | [] => [(key, v)]
  | (k, v') :: rest =>
      if String.eqb key k then (k, v) :: rest
      else (k, v') :: mapSet key v rest
  end.

Definition mapValues (m : MergedMap) : list MergedRow := map snd m.

(** The value [addRow] stores under the key of [row]: a fresh entry when
    the map has none ([existing] is [undefined]), the combination with the
    existing entry otherwise. *)
Definition mergedEntry (keyFields : list string)
  (existing : option MergedRow) (row : QueryRow) : MergedRow :=
  let requestCount := Js.intOrZero (q_request_count row) in
  let inputTokens := Js.intOrZero (q_total_input_tokens row) in
  let outputTokens := Js.intOrZero (q_total_output_tokens row) in
  let totalTokens := Js.intOrZero (q_total_tokens row) in
  let totalCost := Js.numOrZero (q_total_cost row) in
  let avgLatency := Js.numOrZero (q_avg_latency_ms row) in
  let firstSeen := q_first_seen row in
  let lastSeen := q_last_seen row in
  match existing with
  | None =>
      {| m_keys := map (fun f => (f, col (q_cols row) f)) keyFields;
         request_count := requestCount;
         total_input_tokens := inputTokens;
         total_output_tokens := outputTokens;
         total_tokens := totalTokens;
         total_cost := totalCost;
         avg_latency_ms := avgLatency;
         latency_sum := (avgLatency * inject_Z requestCount)%Q;
         first_seen := firstSeen;
         last_seen := lastSeen |}
  | Some existing =>
      let newCount := request_count existing + requestCount in
      let newLatencySum :=
        (latency_sum existing + avgLatency * inject_Z requestCount)%Q in
      {| m_keys := m_keys existing;
         request_count := newCount;
         total_input_tokens := total_input_tokens existing + inputTokens;
         total_output_tokens := total_output_tokens existing + outputTokens;
         total_tokens := total_tokens existing + totalTokens;
         total_cost := (total_cost existing + totalCost)%Q;
         avg_latency_ms :=
           if 0 <? newCount
           then (newLatencySum / inject_Z newCount)%Q
           else 0%Q;
         latency_sum := newLatencySum;
         first_seen :=
           if first_seen existing <? firstSeen
           then first_seen existing else firstSeen;
         last_seen :=
           if lastSeen <? last_seen existing
           then last_seen existing else lastSeen |}
  end.

Definition addRow (keyFields : list string) (merged : MergedMap)
  (row : QueryRow) : MergedMap :=
  let key := rowKey keyFields row in
  mapSet key (mergedEntry keyFields (mapGet key merged) row) merged.

(** The group key of a merged row, rebuilt from the key fields it keeps. *)
Definition mergedKey (m : MergedRow) : string :=
  Js.join "|"
    (map (fun kv => match snd kv with
                    | Some v => v
                    | None => EmptyString
                    end) (m_keys m)).

(** [.map(({ latency_sum, ...rest }) => ({ ...rest, latency_sum: 0 }))]. *)
Definition dropLatencySum (m : MergedRow) : MergedRow :=
  {| m_keys := m_keys m;
     request_count := request_count m;
     total_input_tokens := total_input_tokens m;
     total_output_tokens := total_output_tokens m;
     total_tokens := total_tokens m;
     total_cost := total_cost m;
     avg_latency_ms := avg_latency_ms m;
     latency_sum := 0%Q;
     first_seen := first_seen m;
     last_seen := last_seen m |}.

(** [.sort((a, b) => b.total_cost - a.total_cost)]: descending cost; the
    sort is stable, so a row stays in front of the later rows of equal
    cost. *)
Fixpoint insertByCost (x : MergedRow) (l : list MergedRow)
  : list MergedRow :=
  match l with
  | [] => [x]
  | y :: rest =>
      if Qle_bool (total_cost y) (total_cost x)
      then x :: l
      else y :: insertByCost x rest
  end.

Fixpoint sortByCostDesc (l : list MergedRow) : list MergedRow :=
  match l with
  | [] => []
  | x :: rest => insertByCost x (sortByCostDesc rest)
  end.

(** The map after both loops [for (const row of ...) addRow(row)]. *)
Definition mergedMap (caRows baseRows : list QueryRow)
  (keyFields : list string) : MergedMap :=
  fold_left (addRow keyFields) baseRows
    (fold_left (addRow keyFields) caRows []).

Definition mergeResults (caRows baseRows : list QueryRow)
  (keyFields : list string) : list MergedRow :=
  sortByCostDesc
    (map dropLatencySum (mapValues (mergedMap caRows baseRows keyFields))).

(** [as unknown as QueryRow[]]: a merged row read back as a query row;
    [parseInt] and [parseFloat] of a number give the number back. *)
Definition asQueryRow (m : MergedRow) : QueryRow :=
  {| q_cols :=
       flat_map (fun kv => match snd kv with
                           | Some v => [(fst kv, v)]
                           | None => []
                           end) (m_keys m);
     q_request_count := Some (request_count m);
     q_total_input_tokens := Some (total_input_tokens m);
     q_total_output_tokens := Some (total_output_tokens m);
     q_total_tokens := Some (total_tokens m);
     q_total_cost := Some (total_cost m);
     q_avg_latency_ms := Some (avg_latency_ms m);
     q_first_seen := first_seen m;
     q_last_seen := last_seen m |}.

(** Keys are unique and every entry sits under its own group key. *)
Definition keyed (m : MergedMap) : Prop :=
  NoDup (map fst m) /\ Forall (fun kv => mergedKey (snd kv) = fst kv) m.

End Merge.

(** ** The router of [GET /logs] (lines 197-530) *)

Module Logs.
Import Json Merge Partition.

Record TokenContext := mkToken { team_id : string; user_id : option string }.

(** The request as the handler reads it.  [token] is what [parseToken]
    returns.  [startDate]/[endDate] are [start ? new Date(start) : null]
    read through [getTime()]: [None] when the parameter is missing or the
    date is invalid. *)
Record Request := mkRequest {
  token : option TokenContext;
  startDate : option Z;
  endDate : option Z;
  group_by : option string;
  limit : option string;
  offset : option string;
  typeFilter : option string;
  successFilter : option string
}.

(** The conditions of the raw-row query, in the order they are pushed. *)
Inductive condition : Type :=
| TimestampFrom        (* "timestamp" >= $1 *)
| TimestampTo          (* "timestamp" <= $2 *)
| TeamIs               (* team_id = $3 *)
| HasToolCalls         (* COALESCE(tool_call_count, 0) > 0 *)
| NoToolCalls          (* COALESCE(tool_call_count, 0) = 0 *)
| FinishIsError        (* finish_reason IS NULL OR IN ('error', 'content_filter') *)
| FinishIsNotError     (* finish_reason IS NOT NULL AND NOT IN (...) *)
| FinishIsSuccess      (* finish_reason IN ('stop', 'end_turn', 'tool_calls', 'length') *)
| FinishIsNotSuccess.  (* finish_reason IS NULL OR NOT IN (...) *)

(** The queries the handler sends on its pooled client. *)
Record Db := mkDb {
  (** [connectTeamClient(team_id)] *)
  connectTeamClient : string -> outcome unit;
  (** [baseSql] of [getBaseAggData]: select fields, group-by clause,
      [$1], [$2], [$3] *)
  baseSql : string -> string -> Z -> Z -> string -> outcome (list QueryRow);
  (** [caSql] on [llm_events_daily_by_model_ca]: with provider?, [$1], [$2] *)
  caSqlModel : bool -> Z -> Z -> outcome (list QueryRow);
  (** [caSql] on [llm_events_daily_by_agent_ca]: [$1], [$2] *)
  caSqlAgent : Z -> Z -> outcome (list QueryRow);
  (** [aggSql]: select fields, group-by clause, [$1] .. [$5] *)
  aggSql : string -> string -> Z -> Z -> string -> Js.jsint -> Js.jsint
           -> outcome (list QueryRow);
  (** the raw-row query: where conditions, [$1], [$2], [$3], limit, offset *)
  rawSql : list condition -> Z -> Z -> string -> Js.jsint -> Js.jsint
           -> outcome (list json)
}.

Definition validGroupFields : list string := ["model"; "agent"; "provider"]%string.

(** [group_by.split(",").map(trim).filter(validGroupFields.includes)]. *)
Definition groupFieldsOf (group_by : string) : list string :=
  filter (Js.includes validGroupFields) (map Js.trim (Js.split group_by)).

Definition effectiveLimit (req : Request) : Js.jsint :=
  Js.Math_min (Js.parseInt (Js.orString (limit req) "500")) (Some 5000).

Definition effectiveOffset (req : Request) : Js.jsint :=
  Js.Math_max (Js.parseInt (Js.orString (offset req) "0")) (Some 0).

Definition getBaseAggData (db : Db) (team : string)
  (rangeStart rangeEnd : Z) (selectFields groupByClause : string)
  : outcome (list QueryRow) :=
  if rangeEnd <=? rangeStart then Returns []
  else baseSql db selectFields groupByClause rangeStart rangeEnd team.

(** The body of one [try] block: the raw fetches of the partial ranges,
    the rollup fetch when there are full buckets, the merge and the slice.
    Yields [rows] and the new value of [usedCA]. *)
Definition hybridFetch (db : Db) (team : string) (s e : Z)
  (selectFields : string) (keyFields : list string)
  (caSql : Z -> Z -> outcome (list QueryRow))
  (lim off : Js.jsint) : outcome (list QueryRow * bool) :=
  baseRows <- awaitAll
                (fun r => getBaseAggData db team (r_start r) (r_end r)
                            selectFields selectFields)
                (partialRanges s e) ;;
  caRows <- (if hasFullBuckets s e
             then caSql (fullBucketStart s) (fullBucketEnd e)
             else Returns []) ;;
  Returns (map asQueryRow
             (Js.slice (mergeResults caRows (List.concat baseRows) keyFields)
                       off (Js.add off lim)),
           hasFullBuckets s e).

(** One element of [aggregations]. *)
Definition aggregationEntry (groupFields : list string) (row : QueryRow)
  : json :=
  JObj (map (fun f => (f, match col (q_cols row) f with
                          | Some v => JStr v
                          | None => JNull
                          end)) groupFields
        ++ [("request_count", JInt (Js.intOrZero (q_request_count row)));
            ("total_input_tokens",
             JInt (Js.intOrZero (q_total_input_tokens row)));
            ("total_output_tokens",
             JInt (Js.intOrZero (q_total_output_tokens row)));
            ("total_tokens", JInt (Js.intOrZero (q_total_tokens row)));
            ("total_cost", JNum (Js.numOrZero (q_total_cost row)));
            ("avg_latency_ms", JNum (Js.numOrZero (q_avg_latency_ms row)));
            ("first_seen", JDate (q_first_seen row));
            ("last_seen", JDate (q_last_seen row))]%string).

Definition groupedResponse (s e : Z) (groupFields : list string)
  (rows : list QueryRow) (usedCA : bool) : Response :=
  ok (JObj [("window", JObj [("start", JDate s); ("end", JDate e)]);
            ("group_by", JArr (map JStr groupFields));
            ("count", JInt (Z.of_nat (List.length rows)));
            ("source", JStr (if usedCA then "continuous_aggregate"
                             else "base_table"));
            ("aggregations",
             JArr (map (aggregationEntry groupFields) rows))]%string).

Definition invalidToken : Response :=
  mkResponse 401 (JObj [("error", JStr "invalid_token");
                        ("detail", JStr "Missing team_id in token")]%string).

Definition invalidTimeWindow : Response :=
  mkResponse 400
    (JObj [("error", JStr "invalid_time_window");
           ("detail", JStr "start and end must be valid ISO dates")]%string).

Definition invalidGroupBy : Response :=
  mkResponse 400
    (JObj [("error", JStr "invalid_group_by");
           ("detail",
            JStr ("group_by must be one or more of: "
                  ++ Js.join ", " validGroupFields))]%string).

(** The outer [catch]. *)
Definition logsFailed (message : string) : Response :=
  mkResponse 500 (JObj [("error", JStr "logs_failed");
                        ("detail", JStr message)]%string).

(** The three flags that select a rollup table. *)
Definition useModelCA (groupFields : list string) : bool :=
  (List.length groupFields =? 1)%nat
  && String.eqb (nth 0 groupFields EmptyString) "model".

Definition useModelProviderCA (groupFields : list string) : bool :=
  (List.length groupFields =? 2)%nat
  && Js.includes groupFields "model"
  && Js.includes groupFields "provider".

Definition useAgentCA (groupFields : list string) : bool :=
  (List.length groupFields =? 1)%nat
  && String.eqb (nth 0 groupFields EmptyString) "agent".

Definition rollupEligible (groupFields : list string) : bool :=
  useModelCA groupFields || useModelProviderCA groupFields
  || useAgentCA groupFields.

(** The rollup query of the selected table. *)
Definition caSqlOf (db : Db) (groupFields : list string)
  : Z -> Z -> outcome (list QueryRow) :=
  if useModelCA groupFields || useModelProviderCA groupFields
  then caSqlModel db (useModelProviderCA groupFields)
  else caSqlAgent db.

Definition selectFieldsOf (groupFields : list string) : string :=
  if useModelCA groupFields || useModelProviderCA groupFields
  then (if useModelProviderCA groupFields then "model, provider" else "model")
  else "agent".

Definition keyFieldsOf (groupFields : list string) : list string :=
  if useModelCA groupFields || useModelProviderCA groupFields
  then (if useModelProviderCA groupFields
        then ["model"; "provider"] else ["model"])%string
  else ["agent"%string].

(** The block under [if (!usedCA)], with the response that follows it:
    one aggregate query on the raw table over the whole window. *)
Definition baseTableFallback (db : Db) (team : string) (s e : Z)
  (groupFields : list string) (lim off : Js.jsint) : Response :=
  match aggSql db (Js.join ", " groupFields) (Js.join ", " groupFields)
               s e team lim off with
  | Returns rows' => groupedResponse s e groupFields rows' false
  | Throws m => logsFailed m
  end.

(** The grouped branch, from [if (group_by)] to its [return]. *)
Definition grouped (db : Db) (team : string) (s e : Z)
  (groupFields : list string) (lim off : Js.jsint) : Response :=
  let attempt : outcome (list QueryRow * bool) :=
    if useModelCA groupFields || useModelProviderCA groupFields then
      hybridFetch db team s e
        (if useModelProviderCA groupFields then "model, provider"
         else "model")
        (if useModelProviderCA groupFields
         then ["model"; "provider"] else ["model"])%string
        (caSqlModel db (useModelProviderCA groupFields)) lim off
    else if useAgentCA groupFields then
      hybridFetch db team s e "agent" ["agent"%string] (caSqlAgent db) lim off
    else Returns ([], false) in
  (* [catch (err) { }]: a throw leaves [usedCA] at [false] *)
  let '(rows, usedCA) :=
    match attempt with
    | Returns (rows, usedCA) => (rows, usedCA)
    | Throws _ => ([], false)
    end in
  if negb usedCA then baseTableFallback db team s e groupFields lim off
  else groupedResponse s e groupFields rows true.

Definition typeConditions (typeFilter : option string) : list condition :=
  match typeFilter with
  | None => []
  | Some t =>
      if String.eqb t EmptyString || String.eqb t "all" then []
      else if String.eqb t "tool_call" then [HasToolCalls]
      else if String.eqb t "error" then [FinishIsError]
      else if String.eqb t "llm_request" then [NoToolCalls; FinishIsNotError]
      else []
  end.

Definition successConditions (successFilter : option string)
  : list condition :=
  match successFilter with
  | None => []
  | Some f =>
      if String.eqb f EmptyString then []
      else if String.eqb f "true" then [FinishIsSuccess]
      else [FinishIsNotSuccess]
  end.

Definition whereConditions (req : Request) : list condition :=
  [TimestampFrom; TimestampTo; TeamIs]
  ++ typeConditions (typeFilter req) ++ successConditions (successFilter req).

(** The default branch: raw rows. *)
Definition rawResponse (s e : Z) (req : Request) (rows : list json)
  : Response :=
  ok (JObj ([("window", JObj [("start", JDate s); ("end", JDate e)]);
             ("count", JInt (Z.of_nat (List.length rows)));
             ("filters",
              JObj (("type", JStr (Js.orString (typeFilter req) "all"))
                    :: match successFilter req with
                       | Some f => [("success", JStr f)]
                       | None => []
                       end));
             ("rows", JArr rows)])%string).

(** [ctx && ctx.team_id]: the team of a usable token. *)
Definition teamOf (req : Request) : option string :=
  match token req with
  | Some ctx => if String.eqb (team_id ctx) EmptyString then None
                else Some (team_id ctx)
  | None => None
  end.

(** The handler of [GET /logs]. *)
Definition logs (db : Db) (req : Request) : Response :=
  match teamOf req with
  | None => invalidToken
  | Some team =>
      match startDate req, endDate req with
      | Some s, Some e =>
          let lim := effectiveLimit req in
          let off := effectiveOffset req in
          match connectTeamClient db team with
          | Throws m => logsFailed m
          | Returns _ =>
              match group_by req with
              | Some (String c g) =>
                  let groupFields := groupFieldsOf (String c g) in
                  if (List.length groupFields =? 0)%nat then invalidGroupBy
                  else grouped db team s e groupFields lim off
              | _ =>
                  match rawSql db (whereConditions req) s e team lim off with
                  | Returns rows => rawResponse s e req rows
                  | Throws m => logsFailed m
                  end
              end
          end
      | _, _ => invalidTimeWindow
      end
  end.

(** A request that passes the token check, the window check and the
    connection. *)
Definition accepted (db : Db) (req : Request) (team : string) (s e : Z)
  : Prop :=
  teamOf req = Some team /\ startDate req = Some s /\ endDate req = Some e
  /\ connectTeamClient db team = Returns tt.

(** The same request with other [limit] and [offset] parameters. *)
Definition withPaging (req : Request) (l o : option string) : Request :=
  {| token := token req;
     startDate := startDate req;
     endDate := endDate req;
     group_by := group_by req;
     limit := l;
     offset := o;
     typeFilter := typeFilter req;
     successFilter := successFilter req |}.

End Logs.

(** ** Which fetch aggregates an event (lines 325-381) *)

Module Coverage.
Import Partition.

(** [WHERE "timestamp" >= $1 AND "timestamp" <= $2] of [baseSql]. *)
Definition baseWhere (p1 p2 ts : Z) : bool := (p1 <=? ts) && (ts <=? p2).

(** [WHERE bucket >= $1 AND bucket < $2] of [caSql]. *)
Definition caWhere (p1 p2 bucket : Z) : bool :=
  (p1 <=? bucket) && (bucket <? p2).

(** Modelled from the spec: the rollup tables are created outside the
    controller; a rollup record has [bucket] = the UTC day start and
    aggregates the events whose timestamp falls in that day. *)
Definition bucketOf (ts : Z) : Z := utcDayStart ts.

(** An event at [ts] is aggregated by [getBaseAggData(rangeStart, rangeEnd)]. *)
Definition countedByBaseFetch (r : range) (ts : Z) : bool :=
  if r_end r <=? r_start r then false
  else baseWhere (r_start r) (r_end r) ts.

(** An event at [ts] is aggregated by the rollup fetch, which is sent only
    when [hasFullBuckets]. *)
Definition countedByRollupFetch (startDate endDate ts : Z) : bool :=
  hasFullBuckets startDate endDate
  && caWhere (fullBucketStart startDate) (fullBucketEnd endDate)
             (bucketOf ts).

(** The number of fetches of the hybrid path whose rows include the event:
    the rollup fetch and one raw fetch per partial range. *)
Definition timesCounted (startDate endDate ts : Z) : nat :=
  ((if countedByRollupFetch startDate endDate ts then 1 else 0)
   + List.length (filter (fun r => countedByBaseFetch r ts)
                    (partialRanges startDate endDate)))%nat.

End Coverage.

(** ** An event store answering the queries of [/logs]

    The semantics of the SQL text the handler sends, on a list of events. *)

Module Store.
Import Json Merge Partition Logs Coverage.

(** A row of [llm_events], with the columns the queries of [/logs] read. *)
Record Event := mkEvent {
  ev_timestamp : Z;
  ev_team_id : string;
  ev_model : string;
  ev_provider : string;
  ev_agent : string;
  ev_usage_input_tokens : option Z;
  ev_usage_output_tokens : option Z;
  ev_usage_total_tokens : option Z;
  ev_cost_total : option Q;
  ev_latency_ms : option Q;
  ev_finish_reason : option string;
  ev_tool_call_count : option Z
}.

Definition groupColumn (ev : Event) (f : string) : string :=
  if String.eqb f "model" then ev_model ev
  else if String.eqb f "provider" then ev_provider ev
  else if String.eqb f "agent" then ev_agent ev
  else EmptyString.

Definition GroupKey := list (string * string).

Definition groupKey (fields : list string) (ev : Event) : GroupKey :=
  map (fun f => (f, groupColumn ev f)) fields.

Fixpoint keyEqb (a b : GroupKey) : bool :=
  match a, b with
  | [], [] => true
  | (f, v) :: a', (g, w) :: b' =>
      String.eqb f g && String.eqb v w && keyEqb a' b'
  | _, _ => false
  end.

(** The distinct keys, in order of first occurrence. *)
Fixpoint distinctKeys (keys : list GroupKey) : list GroupKey :=
  match keys with
  | [] => []
  | k :: rest =>
      k :: filter (fun k' => negb (keyEqb k k')) (distinctKeys rest)
  end.

Fixpoint distinctZ (l : list Z) : list Z :=
  match l with
  | [] => []
  | x :: rest => x :: filter (fun y => negb (x =? y)) (distinctZ rest)
  end.

Definition sumZ (l : list Z) : Z := fold_right Z.add 0 l.
Definition sumQ (l : list Q) : Q := fold_right Qplus 0%Q l.

(** The non-[NULL] values of a column. *)
Definition notNull {A : Type} (l : list (option A)) : list A :=
  flat_map (fun o => match o with Some x => [x] | None => [] end) l.

Definition coalesce {A : Type} (o : option A) (dflt : A) : A :=
  match o with Some x => x | None => dflt end.

(** [AVG]: [NULL] over no value. *)
Definition avgQ (l : list Q) : option Q :=
  match l with
  | [] => None
  | _ :: _ => Some (sumQ l / inject_Z (Z.of_nat (List.length l)))%Q
  end.

Definition minZ (l : list Z) : Z :=
  match l with [] => 0 | x :: rest => fold_right Z.min x rest end.
Definition maxZ (l : list Z) : Z :=
  match l with [] => 0 | x :: rest => fold_right Z.max x rest end.

(** The select list of [baseSql] and [aggSql] over the events of a group. *)
Definition aggregateGroup (key : GroupKey) (g : list Event) : QueryRow :=
  {| q_cols := key;
     q_request_count := Some (Z.of_nat (List.length g));
     q_total_input_tokens :=
       Some (sumZ (map (fun ev => coalesce (ev_usage_input_tokens ev) 0) g));
     q_total_output_tokens :=
       Some (sumZ (map (fun ev => coalesce (ev_usage_output_tokens ev) 0) g));
     q_total_tokens :=
       Some (sumZ (map (fun ev =>
                          coalesce (ev_usage_total_tokens ev)
                            (coalesce (ev_usage_input_tokens ev) 0
                             + coalesce (ev_usage_output_tokens ev) 0)) g));
     q_total_cost := Some (sumQ (notNull (map ev_cost_total g)));
     q_avg_latency_ms :=
       Some (coalesce (avgQ (notNull (map ev_latency_ms g))) 0%Q);
     q_first_seen := minZ (map ev_timestamp g);
     q_last_seen := maxZ (map ev_timestamp g) |}.

(** [GROUP BY fields]. *)
Definition aggregate (fields : list string) (evs : list Event)
  : list QueryRow :=
  map (fun key =>
         aggregateGroup key
           (filter (fun ev => keyEqb (groupKey fields ev) key) evs))
      (distinctKeys (map (groupKey fields) evs)).

(** The fields named by a select list or a group-by clause. *)
Definition fieldsOfClause (clause : string) : list string :=
  map Js.trim (Js.split clause).

Definition inWindow (p1 p2 : Z) (team : string) (ev : Event) : bool :=
  baseWhere p1 p2 (ev_timestamp ev) && String.eqb (ev_team_id ev) team.

Definition evalBaseSql (evs : list Event) (groupByClause : string)
  (p1 p2 : Z) (team : string) : list QueryRow :=
  aggregate (fieldsOfClause groupByClause) (filter (inWindow p1 p2 team) evs).

(** A row of a rollup table. *)
Record RollupRow := mkRollupRow {
  bucket : Z;
  ru_cols : GroupKey;
  requests : Z;
  input_tokens : Z;
  output_tokens : Z;
  ru_cost_total : Q;
  ru_avg_latency_ms : Q
}.

Definition rollupOfDay (b : Z) (row : QueryRow) : RollupRow :=
  {| bucket := b;
     ru_cols := q_cols row;
     requests := Js.intOrZero (q_request_count row);
     input_tokens := Js.intOrZero (q_total_input_tokens row);
     output_tokens := Js.intOrZero (q_total_output_tokens row);
     ru_cost_total := Js.numOrZero (q_total_cost row);
     ru_avg_latency_ms := Js.numOrZero (q_avg_latency_ms row) |}.

(** Modelled from the spec: the rollup tables and their refresh are created
    outside the controller.  A refreshed rollup table with key [fields]
    holds, for every UTC day and group, the aggregate of the events whose
    timestamp falls in that day, under [bucket] = the day start. *)
Definition refreshedRollup (fields : list string) (evs : list Event)
  : list RollupRow :=
  flat_map (fun b =>
              map (rollupOfDay b)
                (aggregate fields
                   (filter (fun ev => bucketOf (ev_timestamp ev) =? b) evs)))
           (distinctZ (map (fun ev => bucketOf (ev_timestamp ev)) evs)).

(** The select list of [caSql] over the rollup rows of a group. *)
Definition rollupGroup (key : GroupKey) (g : list RollupRow) : QueryRow :=
  {| q_cols := key;
     q_request_count := Some (sumZ (map requests g));
     q_total_input_tokens := Some (sumZ (map input_tokens g));
     q_total_output_tokens := Some (sumZ (map output_tokens g));
     q_total_tokens :=
       Some (sumZ (map input_tokens g) + sumZ (map output_tokens g));
     q_total_cost := Some (sumQ (map ru_cost_total g));
     q_avg_latency_ms :=
       Some (if sumZ (map requests g) =? 0 then 0%Q
             else (sumQ (map (fun r => ru_avg_latency_ms r
                                       * inject_Z (requests r)) g)
                   / inject_Z (sumZ (map requests g)))%Q);
     q_first_seen := minZ (map bucket g);
     q_last_seen := maxZ (map bucket g) |}.

Definition rollupKey (fields : list string) (r : RollupRow) : GroupKey :=
  map (fun f => (f, match col (ru_cols r) f with
                    | Some v => v
                    | None => EmptyString
                    end)) fields.

(** [caSql]: [WHERE bucket >= $1 AND bucket < $2 GROUP BY fields]. *)
Definition evalCaSql (table : list RollupRow) (fields : list string)
  (p1 p2 : Z) : list QueryRow :=
  let rows := filter (fun r => caWhere p1 p2 (bucket r)) table in
  map (fun key =>
         rollupGroup key
           (filter (fun r => keyEqb (rollupKey fields r) key) rows))
      (distinctKeys (map (rollupKey fields) rows)).

(** [ORDER BY total_cost DESC]. *)
Fixpoint insertRowByCost (x : QueryRow) (l : list QueryRow) : list QueryRow :=
  match l with
  | [] => [x]
  | y :: rest =>
      if Qle_bool (Js.numOrZero (q_total_cost y))
                  (Js.numOrZero (q_total_cost x))
      then x :: l
      else y :: insertRowByCost x rest
  end.

Fixpoint orderByCostDesc (l : list QueryRow) : list QueryRow :=
  match l with
  | [] => []
  | x :: rest => insertRowByCost x (orderByCostDesc rest)
  end.

(** [LIMIT $n OFFSET $m]: the server refuses a parameter that is not a
    number or is negative. *)
Definition limitOffset {A : Type} (rows : list A) (lim off : Js.jsint)
  : outcome (list A) :=
  match lim, off with
  | Some l, Some o =>
      if l <? 0 then Throws "LIMIT must not be negative"
      else if o <? 0 then Throws "OFFSET must not be negative"
      else Returns (firstn (Z.to_nat l) (skipn (Z.to_nat o) rows))
  | _, _ => Throws "invalid input syntax for type bigint"
  end.

Definition evalAggSql (evs : list Event) (groupByClause : string)
  (p1 p2 : Z) (team : string) (lim off : Js.jsint)
  : outcome (list QueryRow) :=
  limitOffset (orderByCostDesc (evalBaseSql evs groupByClause p1 p2 team))
              lim off.

Definition isOneOf (l : list string) (v : option string) : bool :=
  match v with Some x => Js.includes l x | None => false end.

Definition isNull {A : Type} (v : option A) : bool :=
  match v with Some _ => false | None => true end.

Definition errorReasons : list string := ["error"; "content_filter"]%string.
Definition successReasons : list string :=
  ["stop"; "end_turn"; "tool_calls"; "length"]%string.

Definition holds (p1 p2 : Z) (team : string) (ev : Event) (c : condition)
  : bool :=
  match c with
  | TimestampFrom => p1 <=? ev_timestamp ev
  | TimestampTo => ev_timestamp ev <=? p2
  | TeamIs => String.eqb (ev_team_id ev) team
  | HasToolCalls => 0 <? coalesce (ev_tool_call_count ev) 0
  | NoToolCalls => coalesce (ev_tool_call_count ev) 0 =? 0
  | FinishIsError =>
      isNull (ev_finish_reason ev) || isOneOf errorReasons (ev_finish_reason ev)
  | FinishIsNotError =>
      negb (isNull (ev_finish_reason ev))
      && negb (isOneOf errorReasons (ev_finish_reason ev))
  | FinishIsSuccess => isOneOf successReasons (ev_finish_reason ev)
  | FinishIsNotSuccess =>
      isNull (ev_finish_reason ev)
      || negb (isOneOf successReasons (ev_finish_reason ev))
  end.

(** [ORDER BY "timestamp" DESC]. *)
Fixpoint insertNewestFirst (x : Event) (l : list Event) : list Event :=
  match l with
  | [] => [x]
  | y :: rest =>
      if ev_timestamp y <=? ev_timestamp x then x :: l
      else y :: insertNewestFirst x rest
  end.

Fixpoint newestFirst (l : list Event) : list Event :=
  match l with
  | [] => []
  | x :: rest => insertNewestFirst x (newestFirst rest)
  end.

Definition optString (v : option string) : json :=
  match v with Some x => JStr x | None => JNull end.

(** A raw row with its [derived_type] and [derived_success]. *)
Definition rawRow (ev : Event) : json :=
  JObj [("timestamp", JDate (ev_timestamp ev));
        ("team_id", JStr (ev_team_id ev));
        ("model", JStr (ev_model ev));
        ("provider", JStr (ev_provider ev));
        ("agent", JStr (ev_agent ev));
        ("finish_reason", optString (ev_finish_reason ev));
        ("derived_type",
         JStr (if (0 <? coalesce (ev_tool_call_count ev) 0)%Z then "tool_call"
               else if isNull (ev_finish_reason ev)
                       || isOneOf errorReasons (ev_finish_reason ev)
                    then "error"
                    else "llm_request"));
        ("derived_success",
         JBool (isOneOf successReasons (ev_finish_reason ev)))]%string.

Definition evalRawSql (evs : list Event) (conds : list condition)
  (p1 p2 : Z) (team : string) (lim off : Js.jsint) : outcome (list json) :=
  limitOffset
    (map rawRow
       (newestFirst
          (filter (fun ev => forallb (holds p1 p2 team ev) conds) evs)))
    lim off.

(** The store as the handler's client: the events, and both rollup tables
    as a refresh over all events leaves them. *)
Definition storeDb (evs : list Event) : Db :=
  {| connectTeamClient := fun _ => Returns tt;
     baseSql := fun _ groupBy p1 p2 team =>
                  Returns (evalBaseSql evs groupBy p1 p2 team);
     caSqlModel := fun withProvider p1 p2 =>
                     Returns (evalCaSql
                                (refreshedRollup ["model"; "provider"]%string evs)
                                (if withProvider
                                 then ["model"; "provider"]%string
                                 else ["model"]%string) p1 p2);
     caSqlAgent := fun p1 p2 =>
                     Returns (evalCaSql (refreshedRollup ["agent"%string] evs)
                                ["agent"%string] p1 p2);
     aggSql := fun _ groupBy p1 p2 team lim off =>
                 evalAggSql evs groupBy p1 p2 team lim off;
     rawSql := fun conds p1 p2 team lim off =>
                 evalRawSql evs conds p1 p2 team lim off |}.

End Store.

(** ** Period summary of [GET /metrics] (lines 610-778) *)

Module Metrics.
Local Open Scope Q_scope.

(** A column of the aggregated row: the decimal number the server printed,
    [None] for [NULL], a missing row or text that is not a number. *)
Definition column := option Q.

Record MetricRow := mkMetricRow {
  total_requests : column;
  unique_traces : column;
  unique_users : column;
  total_input_tokens : column;
  total_output_tokens : column;
  total_tokens : column;
  cached_tokens : column;
  reasoning_tokens : column;
  total_cost : column;
  avg_latency_ms : column;
  p50_latency_ms : column;
  p95_latency_ms : column;
  p99_latency_ms : column;
  max_latency_ms : column;
  streaming_requests : column
}.

(** [rows.find(...) || {}]: every column [undefined]. *)
Definition emptyRow : MetricRow :=
  mkMetricRow None None None None None None None None None None None None
              None None None.

(** [num]: [parseFloat(val) || 0]. *)
Definition num (val : column) : Q := Js.numOrZero val.

(** [int]: [parseInt(val) || 0]; [parseInt] keeps the integer part of a
    decimal numeral. *)
Definition int (val : column) : Q :=
  match val with
  | Some q => inject_Z (Z.quot (Qnum q) (Zpos (Qden q)))
  | None => 0
  end.

Definition isPositive (q : Q) : bool := negb (Qle_bool q 0).

Definition pctChange (curr prev : column) : Q :=
  let c := num curr in
  let p := num prev in
  if Qeq_bool p 0 then (if isPositive c then 100 else 0)
  else ((c - p) / p) * 100.

(** [Math.round]: the nearest integer, halves upwards. *)
Definition Math_round (x : Q) : Q := inject_Z (Qfloor (x + (1 # 2))).

Definition cacheHitRate (r : MetricRow) : Q :=
  if isPositive (num (total_input_tokens r))
  then (num (cached_tokens r) / num (total_input_tokens r)) * 100 else 0.

Definition streamingRate (r : MetricRow) : Q :=
  if isPositive (int (total_requests r))
  then (int (streaming_requests r) / int (total_requests r)) * 100 else 0.

Definition avgCallsPerTrace (r : MetricRow) : Q :=
  if isPositive (int (unique_traces r))
  then int (total_requests r) / int (unique_traces r) else 0.

Definition costPer1kTokens (r : MetricRow) : Q :=
  if isPositive (num (total_tokens r))
  then num (total_cost r) / (num (total_tokens r) / 1000) else 0.

Definition avgTokensPerRequest (r : MetricRow) : Q :=
  if isPositive (int (total_requests r))
  then num (total_tokens r) / int (total_requests r) else 0.

Definition avgCostPerRequest (r : MetricRow) : Q :=
  if isPositive (int (total_requests r))
  then num (total_cost r) / int (total_requests r) else 0.

(** One metric of the response: [{ value, unit, change_pct }] under its
    group and name. *)
Record Metric := mkMetric {
  m_group : string;
  m_name : string;
  m_value : Q;
  m_unit : string;
  m_change_pct : Q
}.

Definition round2 (x : Q) : Q := Math_round (x * 100) / 100.
Definition round4 (x : Q) : Q := Math_round (x * 10000) / 10000.

(** The [metrics] object, metric by metric in source order. *)
Definition metrics (current previous : MetricRow) : list Metric :=
  let col f := pctChange (f current) (f previous) in
  let der f := pctChange (Some (f current)) (Some (f previous)) in
  [ mkMetric "volume" "total_requests" (int (total_requests current))
      "requests" (col total_requests);
    mkMetric "volume" "unique_traces" (int (unique_traces current))
      "traces" (col unique_traces);
    mkMetric "volume" "unique_users" (int (unique_users current))
      "users" (col unique_users);
    mkMetric "volume" "avg_calls_per_trace"
      (round2 (avgCallsPerTrace current)) "calls/trace"
      (der avgCallsPerTrace);
    mkMetric "tokens" "total_input_tokens"
      (int (total_input_tokens current)) "tokens" (col total_input_tokens);
    mkMetric "tokens" "total_output_tokens"
      (int (total_output_tokens current)) "tokens" (col total_output_tokens);
    mkMetric "tokens" "total_tokens"
      (int (Some (num (total_tokens current)))) "tokens" (col total_tokens);
    mkMetric "tokens" "cached_tokens"
      (int (Some (num (cached_tokens current)))) "tokens" (col cached_tokens);
    mkMetric "tokens" "reasoning_tokens"
      (int (reasoning_tokens current)) "tokens" (col reasoning_tokens);
    mkMetric "tokens" "cache_hit_rate" (round2 (cacheHitRate current)) "%"
      (der cacheHitRate);
    mkMetric "tokens" "avg_tokens_per_request"
      (if isPositive (int (total_requests current))
       then Math_round (num (total_tokens current)
                        / int (total_requests current))
       else 0)
      "tokens/req" (der avgTokensPerRequest);
    mkMetric "performance" "avg_latency_ms"
      (round2 (num (avg_latency_ms current))) "ms" (col avg_latency_ms);
    mkMetric "performance" "p50_latency_ms"
      (round2 (num (p50_latency_ms current))) "ms" (col p50_latency_ms);
    mkMetric "performance" "p95_latency_ms"
      (round2 (num (p95_latency_ms current))) "ms" (col p95_latency_ms);
    mkMetric "performance" "p99_latency_ms"
      (round2 (num (p99_latency_ms current))) "ms" (col p99_latency_ms);
    mkMetric "performance" "max_latency_ms"
      (round2 (num (max_latency_ms current))) "ms" (col max_latency_ms);
    mkMetric "cost" "total_cost" (round2 (num (total_cost current))) "USD"
      (col total_cost);
    mkMetric "cost" "avg_cost_per_request"
      (if isPositive (int (total_requests current))
       then round4 (num (total_cost current) / int (total_requests current))
       else 0)
      "USD/req" (der avgCostPerRequest);
    mkMetric "cost" "cost_per_1k_tokens"
      (round4 (costPer1kTokens current)) "USD/1k tokens"
      (der costPer1kTokens);
    mkMetric "usage_patterns" "streaming_rate"
      (round2 (streamingRate current)) "%" (der streamingRate) ]%string.

End Metrics.

(** ** Cost recalculation of [POST /recalculate-costs] (lines 1030-1212) *)

Module Recalc.
Import Json.

(** A row of [llm_events], with the columns the job selects and the tenant
    column of its [WHERE].  [timestamp] is the [timestamptz] of the table, in
    microseconds since the epoch.  [cost_total] is what [parseFloat] reads
    from the column ([None]: [NULL]). *)
Record LLMEventRow := mkEvent {
  timestamp : Z;
  trace_id : string;
  call_sequence : Z;
  team_id : string;
  model : option string;
  provider : option string;
  usage_input_tokens : option Z;
  usage_output_tokens : option Z;
  usage_cached_tokens : option Z;
  cost_total : option Q
}.

(** The table, in the order the server scans it. *)
Definition Table := list LLMEventRow.

(** The argument of [pricingService.calculateCostSync]. *)
Record CostInput := mkCostInput {
  ci_model : string;
  ci_provider : option string;
  ci_input_tokens : Z;
  ci_output_tokens : Z;
  ci_cached_tokens : Z
}.

Definition costInputOf (row : LLMEventRow) : CostInput :=
  {| ci_model := match model row with Some m => m | None => EmptyString end;
     ci_provider := provider row;
     ci_input_tokens := Js.intOrZero (usage_input_tokens row);
     ci_output_tokens := Js.intOrZero (usage_output_tokens row);
     ci_cached_tokens := Js.intOrZero (usage_cached_tokens row) |}.

(** The [Date] the driver hands to the handler for a [timestamptz]: whole
    milliseconds, the microseconds dropped. *)
Definition jsDate (micros : Z) : Z := micros / 1000.

(** A [Date] sent back as a query parameter: the instant of that
    millisecond. *)
Definition timestamptz (ms : Z) : Z := ms * 1000.

(** An entry of [updates]; [u_timestamp] is [row.timestamp], a [Date]. *)
Record Update := mkUpdate {
  u_timestamp : Z;
  u_trace_id : string;
  u_call_sequence : Z;
  new_cost : Q
}.

(** The entries pushed to [results.errors]. *)
Inductive RunError : Type :=
| RowError (trace : string) (seq : Z) (error : string)
| BatchError (batch : nat) (error : string)
| Warning (warning : string).

Record Results := mkResults {
  updated : nat;
  processed : nat;
  errors : list RunError;
  batches : nat
}.

(** What the run meets outside the table: the wall clock, the calls that
    may throw and the order the server picks among rows of one timestamp.
    [now k] is the [k]-th reading of [Date.now()]: reading 0 is [startTime],
    reading [k] follows batch [k].  [selectThrows k] and [tieOrder k] belong
    to the [k]-th [SELECT] of the run, [updateThrows k] to the [UPDATE] of
    batch [k].  [ORDER BY "timestamp"] leaves the order of equal timestamps
    to the server, which may change it from one query to the next: rows of
    one timestamp are returned by ascending [tieOrder k], and in scan order
    where that is equal too. *)
Record Env := mkEnv {
  now : nat -> Z;
  selectThrows : nat -> option string;
  tieOrder : nat -> LLMEventRow -> Z;
  updateThrows : nat -> option string;
  refreshThrows : string -> option string;
  connectTeamClient : outcome unit;
  loadPricingFromDb : outcome unit
}.

(** [WHERE "timestamp" >= $1 AND "timestamp" <= $2 AND team_id = $3], the
    two bounds being [Date]s sent as parameters. *)
Definition selectWhere (startDate endDate : Z) (team : string)
  (row : LLMEventRow) : bool :=
  (timestamptz startDate <=? timestamp row)
  && (timestamp row <=? timestamptz endDate)
  && String.eqb (team_id row) team.

(** Whether [x] is returned before [y] by a query that orders on the
    timestamp and breaks ties by [rank]. *)
Definition fetchedBefore (rank : LLMEventRow -> Z) (x y : LLMEventRow)
  : bool :=
  (timestamp x <? timestamp y)
  || ((timestamp x =? timestamp y) && (rank x <=? rank y)).

(** [ORDER BY "timestamp"]: ascending on the timestamp alone.  Rows of
    equal timestamp come out by ascending [rank], the server's choice for
    the query, and in scan order where [rank] is equal. *)
Fixpoint insertByTimestamp (rank : LLMEventRow -> Z) (x : LLMEventRow)
  (l : list LLMEventRow) : list LLMEventRow :=
  match l with
  | [] => [x]
  | y :: rest =>
      if fetchedBefore rank x y then x :: l
      else y :: insertByTimestamp rank x rest
  end.

Fixpoint orderByTimestamp (rank : LLMEventRow -> Z) (l : list LLMEventRow)
  : list LLMEventRow :=
  match l with
  | [] => []
  | x :: rest => insertByTimestamp rank x (orderByTimestamp rank rest)
  end.

(** The tie order that keeps the scan order. *)
Definition scanOrder (row : LLMEventRow) : Z := 0.

(** The rows the [WHERE] of [selectSql] keeps, in scan order. *)
Definition inRange (tbl : Table) (startDate endDate : Z) (team : string)
  : list LLMEventRow :=
  filter (selectWhere startDate endDate team) tbl.

(** The rows of the range in the fetch order of a query whose ties are
    broken by [rank]. *)
Definition selected (rank : LLMEventRow -> Z) (tbl : Table)
  (startDate endDate : Z) (team : string) : list LLMEventRow :=
  orderByTimestamp rank (inRange tbl startDate endDate team).

(** [selectSql] with [LIMIT $4 OFFSET $5]. *)
Definition selectSql (rank : LLMEventRow -> Z) (tbl : Table)
  (startDate endDate : Z) (team : string) (batch_size offset : nat)
  : list LLMEventRow :=
  firstn batch_size
    (skipn offset (selected rank tbl startDate endDate team)).

Definition epsilon : Q := 1 # 1000000.

(** [Math.abs(newCost - oldCost) > 0.000001]. *)
Definition costChanged (newCost oldCost : Q) : bool :=
  negb (Qle_bool (Qabs (newCost - oldCost)) epsilon).

(** The key of [updateSql]'s [WHERE]: the stored [timestamptz] against the
    [Date] of the entry, sent as [$n::timestamptz]. *)
Definition updateMatches (u : Update) (row : LLMEventRow) : bool :=
  (timestamp row =? timestamptz (u_timestamp u))
  && String.eqb (trace_id row) (u_trace_id u)
  && (call_sequence row =? u_call_sequence u).

Definition setCost (row : LLMEventRow) (c : Q) : LLMEventRow :=
  {| timestamp := timestamp row;
     trace_id := trace_id row;
     call_sequence := call_sequence row;
     team_id := team_id row;
     model := model row;
     provider := provider row;
     usage_input_tokens := usage_input_tokens row;
     usage_output_tokens := usage_output_tokens row;
     usage_cached_tokens := usage_cached_tokens row;
     cost_total := Some c |}.

(** [updateSql]: every row whose key matches an entry of [VALUES] takes
    that entry's [new_cost]; the other rows keep theirs. *)
Definition updatedRow (updates : list Update) (row : LLMEventRow)
  : LLMEventRow :=
  match find (fun u => updateMatches u row) updates with
  | Some u => setCost row (new_cost u)
  | None => row
  end.

Definition updateSql (updates : list Update) (tbl : Table) : Table :=
  map (updatedRow updates) tbl.

(** The natural composite key [(timestamp, trace_id, call_sequence)]. *)
Definition keyOf (row : LLMEventRow) : Z * string * Z :=
  (timestamp row, trace_id row, call_sequence row).

Definition updateKey (u : Update) : Z * string * Z :=
  (timestamptz (u_timestamp u), u_trace_id u, u_call_sequence u).

(** The key the handler sends for a row it fetched: the timestamp has been
    through a [Date]. *)
Definition sentKey (row : LLMEventRow) : Z * string * Z :=
  (timestamptz (jsDate (timestamp row)), trace_id row, call_sequence row).

(** A timestamp a [Date] holds without loss. *)
Definition wholeMillisecond (row : LLMEventRow) : Prop :=
  timestamptz (jsDate (timestamp row)) = timestamp row.

(** Ascending on the timestamp alone. *)
Definition byTimestamp (a b : LLMEventRow) : Prop :=
  timestamp a <= timestamp b.

(** The state of the loop against the table [tbl0] the run started from:
    the rows of the range carry the same timestamps in scan order, and in
    fetch order they are, from [offset] on, the rows of [tbl0]. *)
Definition runInvariant (rank : LLMEventRow -> Z) (tbl0 tbl : Table)
  (startDate endDate : Z) (team : string) (offset : nat) : Prop :=
  map timestamp (inRange tbl startDate endDate team)
  = map timestamp (inRange tbl0 startDate endDate team)
  /\ skipn offset (selected rank tbl startDate endDate team)
     = skipn offset (selected rank tbl0 startDate endDate team).

(** The composite key in ascending lexicographic order (strings by code
    points), the order a fetch sorted on the full key would produce. *)
Definition keyLe (a b : LLMEventRow) : Prop :=
  timestamp a < timestamp b
  \/ (timestamp a = timestamp b
      /\ (String.ltb (trace_id a) (trace_id b) = true
          \/ (trace_id a = trace_id b
              /\ call_sequence a <= call_sequence b))).

Definition timeoutWarning : RunError :=
  Warning "Timeout reached after 5 minutes. Partial recalculation completed.".

(** [req.body.start] / [req.body.end] after [new Date(...)]. *)
Inductive DateParam : Type :=
| Missing
| InvalidDate
| ValidDate (ms : Z).

(** The request; [batch_size] defaults to 1000. *)
Record Request := mkRequest {
  token : option Logs.TokenContext;
  start : DateParam;
  end_ : DateParam;
  batch_size : option nat
}.

Definition teamOf (req : Request) : option string :=
  match token req with
  | Some ctx => if String.eqb (Logs.team_id ctx) EmptyString then None
                else Some (Logs.team_id ctx)
  | None => None
  end.

Definition errorResponse (code : Z) (error : string)
  (detail : option string) : Response :=
  mkResponse code
    (JObj (("error", JStr error)
           :: match detail with
              | Some d => [("detail", JStr d)]
              | None => []
              end)%string).

Section WithPricing.

(** [pricingService.calculateCostSync], the external pricing lookup:
    it returns [costResult.total] or throws. *)
Variable calculateCostSync : CostInput -> outcome Q.

(** The body of [for (const row of rows)]: the state is [updates],
    [results.processed] and [results.errors]. *)
Definition processRow (acc : list Update * nat * list RunError)
  (row : LLMEventRow) : list Update * nat * list RunError :=
  let '(updates, nprocessed, errs) := acc in
  match calculateCostSync (costInputOf row) with
  | Returns newCost =>
      let oldCost := Js.numOrZero (cost_total row) in
      (if costChanged newCost oldCost
       then updates ++ [mkUpdate (jsDate (timestamp row)) (trace_id row)
                                 (call_sequence row) newCost]
       else updates,
       S nprocessed, errs)
  | Throws m =>
      (updates, nprocessed,
       errs ++ [RowError (trace_id row) (call_sequence row) m])
  end.

Definition processRows (rows : list LLMEventRow) (nprocessed : nat)
  (errs : list RunError) : list Update * nat * list RunError :=
  fold_left processRow rows ([], nprocessed, errs).

(** What one row contributes to [updates], to [results.processed] and to
    [results.errors]. *)
Definition queuedFor (row : LLMEventRow) : list Update :=
  match calculateCostSync (costInputOf row) with
  | Returns newCost =>
      if costChanged newCost (Js.numOrZero (cost_total row))
      then [mkUpdate (jsDate (timestamp row)) (trace_id row)
                     (call_sequence row) newCost]
      else []
  | Throws _ => []
  end.

Definition priced (row : LLMEventRow) : bool :=
  match calculateCostSync (costInputOf row) with
  | Returns _ => true
  | Throws _ => false
  end.

Definition rowErrorsFor (row : LLMEventRow) : list RunError :=
  match calculateCostSync (costInputOf row) with
  | Returns _ => []
  | Throws m => [RowError (trace_id row) (call_sequence row) m]
  end.

(** A row the job would leave alone: pricing throws, or the recomputed cost
    is within epsilon of the stored one. *)
Definition settled (row : LLMEventRow) : Prop := queuedFor row = [].

(** How a row [r'] of the table after a run relates to the row [r] it was
    in [tbl0]: the same row, or [r] with [cost_total] set to the price of a
    row of the range whose key, as the handler sends it, is the key of
    [r]. *)
Definition repriced (tbl0 : Table) (startDate endDate : Z) (team : string)
  (r r' : LLMEventRow) : Prop :=
  r' = r
  \/ exists row c,
       In row tbl0 /\ selectWhere startDate endDate team row = true
       /\ sentKey row = keyOf r
       /\ calculateCostSync (costInputOf row) = Returns c
       /\ r' = setCost r c.

Section Run.

Variable env : Env.
Variables (startDate endDate : Z) (team : string) (batch_size : nat).

(** One pass of [while (hasMore)] on a non-empty batch, up to and
    including [offset += batch_size]; the deadline is checked by the
    caller. *)
Definition batchStep (rows : list LLMEventRow) (tbl : Table)
  (res : Results) : Table * Results :=
  let nbatches := S (batches res) in
  let '(updates, nprocessed, errs) :=
    processRows rows (processed res) (errors res) in
  match updates with
  | [] => (tbl, mkResults (updated res) nprocessed errs nbatches)
  | _ :: _ =>
      match updateThrows env nbatches with
      | None =>
          (updateSql updates tbl,
           mkResults (updated res + List.length updates) nprocessed errs
                     nbatches)
      | Some m =>
          (tbl,
           mkResults (updated res) nprocessed
                     (errs ++ [BatchError nbatches m]) nbatches)
      end
  end.

(** [Date.now() - startTime > 5 * 60 * 1000] after batch [k]. *)
Definition deadlinePassed (k : nat) : bool :=
  5 * 60 * 1000 <? now env k - now env 0.

(** The rows the [SELECT] of the pass after [nbatches] batches returns. *)
Definition fetch (nbatches : nat) (tbl : Table) (offset : nat)
  : list LLMEventRow :=
  selectSql (tieOrder env (S nbatches)) tbl startDate endDate team
    batch_size offset.

(** The [while (hasMore)] loop; [fuel] bounds the number of passes.  The
    [SELECT] is not inside a [try] of its own: when it throws the loop is
    left for the handler's [catch], with the table as the batches written
    so far have made it. *)
Fixpoint loop (fuel : nat) (tbl : Table) (offset : nat) (res : Results)
  : option (Table * outcome Results) :=
  match fuel with
  | O => None
  | S fuel' =>
      match selectThrows env (S (batches res)) with
      | Some m => Some (tbl, Throws m)
      | None =>
          match fetch (batches res) tbl offset with
          | [] => Some (tbl, Returns res)
          | (_ :: _) as rows =>
              let '(tbl', res') := batchStep rows tbl res in
              if deadlinePassed (batches res')
              then Some (tbl',
                         Returns
                           (mkResults (updated res') (processed res')
                                      (errors res' ++ [timeoutWarning])
                                      (batches res')))
              else loop fuel' tbl' (offset + batch_size) res'
          end
      end
  end.

Definition cas : list string :=
  ["llm_events_daily_ca"; "llm_events_daily_by_model_ca";
   "llm_events_daily_by_agent_ca"]%string.

Definition refreshResult (ca : string) : json :=
  match refreshThrows env ca with
  | None => JObj [("ca", JStr ca); ("status", JStr "refreshed")]%string
  | Some m => JObj [("ca", JStr ca); ("status", JStr "error");
                    ("error", JStr m)]%string
  end.

Definition errorJson (e : RunError) : json :=
  match e with
  | RowError t s m =>
      JObj [("trace_id", JStr t); ("call_sequence", JInt s);
            ("error", JStr m)]%string
  | BatchError b m =>
      JObj [("batch", JInt (Z.of_nat b)); ("error", JStr m)]%string
  | Warning w => JObj [("warning", JStr w)]%string
  end.

(** The body of the final [res.json]. *)
Definition completeResponse (res : Results) : Response :=
  ok (JObj
        [("message", JStr "recalculation_complete");
         ("period", JObj [("start", JDate startDate);
                          ("end", JDate endDate)]);
         ("stats",
          JObj [("processed", JInt (Z.of_nat (processed res)));
                ("updated", JInt (Z.of_nat (updated res)));
                ("batches", JInt (Z.of_nat (batches res)));
                ("duration_ms",
                 JInt (now env (S (batches res)) - now env 0))]);
         ("continuous_aggregates", JArr (map refreshResult cas));
         ("errors", JArr (map errorJson (firstn 10 (errors res))));
         ("error_count",
          JInt (Z.of_nat (List.length (errors res))))]%string).

(** The answer of the handler's [catch]. *)
Definition recalculateFailed (m : string) : Response :=
  errorResponse 500 "recalculate_failed" (Some m).

(** The run from [const results = ...] to the response, on a table:
    the final table and the response. *)
Definition run (fuel : nat) (tbl : Table) : option (Table * Response) :=
  match loop fuel tbl 0 (mkResults 0 0 [] 0) with
  | Some (tbl', Returns res) => Some (tbl', completeResponse res)
  | Some (tbl', Throws m) => Some (tbl', recalculateFailed m)
  | None => None
  end.

End Run.

(** The handler of [POST /recalculate-costs]: the table after the
    request and the response. *)
Definition recalculateCosts (env : Env) (fuel : nat) (req : Request)
  (tbl : Table) : option (Table * Response) :=
  match teamOf req with
  | None =>
      Some (tbl, errorResponse 401 "invalid_token"
                   (Some "Missing team_id in token"%string))
  | Some team =>
      match start req, end_ req with
      | Missing, _ | _, Missing =>
          Some (tbl, errorResponse 400
                       "start and end dates are required" None)
      | InvalidDate, _ | _, InvalidDate =>
          Some (tbl, errorResponse 400 "invalid_dates"
                       (Some "start and end must be valid ISO dates"%string))
      | ValidDate s, ValidDate e =>
          if e <? s then
            Some (tbl, errorResponse 400 "invalid_range"
                         (Some "end must be after start"%string))
          else
            match connectTeamClient env with
            | Throws m => Some (tbl, recalculateFailed m)
            | Returns _ =>
                match loadPricingFromDb env with
                | Throws m => Some (tbl, recalculateFailed m)
                | Returns _ =>
                    run env s e team
                        (match batch_size req with
                         | Some b => b
                         | None => 1000%nat
                         end) fuel tbl
                end
            end
      end
  end.

End WithPricing.

End Recalc.

(** ** Views of requests and responses used in the statements *)

Module Views.
Import Json Logs.

(** The [rows] of a raw-row response; none when the response has no rows. *)
Definition responseRows (resp : Response) : list json :=
  match jget "rows" (body resp) with
  | Some arr => items arr
  | None => []
  end.

(** The same request with another [type] parameter. *)
Definition withType (req : Request) (t : option string) : Request :=
  {| token := token req;
     startDate := startDate req;
     endDate := endDate req;
     group_by := group_by req;
     limit := limit req;
     offset := offset req;
     typeFilter := t;
     successFilter := successFilter req |}.

End Views.

(** ** Sample data for the concrete runs *)

Module Samples.
Import Json Merge Logs.

(** A store without rows: every query returns the empty list. *)
Definition quietDb : Db :=
  {| connectTeamClient := fun _ => Returns tt;
     baseSql := fun _ _ _ _ _ => Returns [];
     caSqlModel := fun _ _ _ => Returns [];
     caSqlAgent := fun _ _ => Returns [];
     aggSql := fun _ _ _ _ _ _ _ => Returns [];
     rawSql := fun _ _ _ _ _ _ => Returns [] |}.

Definition gptRow (requests : Z) (avg : Q) : QueryRow :=
  {| q_cols := [("model", "gpt")]%string;
     q_request_count := Some requests;
     q_total_input_tokens := Some 0;
     q_total_output_tokens := Some 0;
     q_total_tokens := Some 0;
     q_total_cost := Some 0%Q;
     q_avg_latency_ms := Some avg;
     q_first_seen := 0;
     q_last_seen := 0 |}.

(** A store whose rollup tables are missing: the rollup queries throw, the
    raw table answers. *)
Definition rollupDownDb : Db :=
  {| connectTeamClient := fun _ => Returns tt;
     baseSql := fun _ _ _ _ _ => Returns [gptRow 1 10%Q];
     caSqlModel := fun _ _ _ => Throws "relation does not exist";
     caSqlAgent := fun _ _ => Throws "relation does not exist";
     aggSql := fun _ _ _ _ _ _ _ => Returns [gptRow 10 91%Q];
     rawSql := fun _ _ _ _ _ _ => Returns [] |}.

(** 2024-01-01T12:00Z, 2024-01-01T18:00Z, 2024-01-02T00:00Z,
    2024-01-03T00:00Z and 2024-01-03T06:00Z. *)
Definition noon1 : Z := 1704110400000.
Definition evening1 : Z := 1704132000000.
Definition midnight2 : Z := 1704153600000.
Definition midnight3 : Z := 1704240000000.
Definition morning3 : Z := 1704261600000.

Definition groupedRequest (g : string) (l o : option string) : Request :=
  {| token := Some (mkToken "team1" None);
     startDate := Some noon1;
     endDate := Some morning3;
     group_by := Some g;
     limit := l;
     offset := o;
     typeFilter := None;
     successFilter := None |}.

(** A request for raw rows over the same window. *)
Definition rawRequest (l o : option string) : Request :=
  {| token := Some (mkToken "team1" None);
     startDate := Some noon1;
     endDate := Some morning3;
     group_by := None;
     limit := l;
     offset := o;
     typeFilter := None;
     successFilter := None |}.

(** One request of team1 to [gpt], costing 1 and taking 10 ms. *)
Definition eventAt (ts : Z) : Store.Event :=
  {| Store.ev_timestamp := ts;
     Store.ev_team_id := "team1";
     Store.ev_model := "gpt";
     Store.ev_provider := "openai";
     Store.ev_agent := "a1";
     Store.ev_usage_input_tokens := Some 100;
     Store.ev_usage_output_tokens := Some 20;
     Store.ev_usage_total_tokens := None;
     Store.ev_cost_total := Some 1%Q;
     Store.ev_latency_ms := Some 10%Q;
     Store.ev_finish_reason := Some "stop"%string;
     Store.ev_tool_call_count := None |}.

(** A request that called a tool and has no finish reason. *)
Definition unfinishedToolCall (ts : Z) : Store.Event :=
  {| Store.ev_timestamp := ts;
     Store.ev_team_id := "team1";
     Store.ev_model := "gpt";
     Store.ev_provider := "openai";
     Store.ev_agent := "a1";
     Store.ev_usage_input_tokens := Some 100;
     Store.ev_usage_output_tokens := None;
     Store.ev_usage_total_tokens := None;
     Store.ev_cost_total := None;
     Store.ev_latency_ms := None;
     Store.ev_finish_reason := None;
     Store.ev_tool_call_count := Some 1 |}.

(** A request for raw rows with a [type] filter. *)
Definition typedRequest (t : string) : Request :=
  {| token := Some (mkToken "team1" None);
     startDate := Some noon1;
     endDate := Some morning3;
     group_by := None;
     limit := None;
     offset := None;
     typeFilter := Some t;
     successFilter := None |}.

(** A period with ten requests and nothing else. *)
Definition tenRequests : Metrics.MetricRow :=
  Metrics.mkMetricRow (Some 10%Q) None None None None None None None None
    None None None None None None.

(** A pricing that charges one thousandth per input token. *)
Definition perTokenPrice (ci : Recalc.CostInput) : outcome Q :=
  Returns (inject_Z (Recalc.ci_input_tokens ci) / 1000)%Q.

(** An event at millisecond [ts] whose stored cost is 0. *)
Definition staleEvent (ts : Z) (trace : string) : Recalc.LLMEventRow :=
  {| Recalc.timestamp := Recalc.timestamptz ts;
     Recalc.trace_id := trace;
     Recalc.call_sequence := 0;
     Recalc.team_id := "team1";
     Recalc.model := Some "gpt"%string;
     Recalc.provider := None;
     Recalc.usage_input_tokens := Some 1000;
     Recalc.usage_output_tokens := Some 0;
     Recalc.usage_cached_tokens := None;
     Recalc.cost_total := Some 0%Q |}.

(** Five events with a stale cost, one per millisecond. *)
Definition fiveEvents : Recalc.Table :=
  [staleEvent 1 "a"; staleEvent 2 "b"; staleEvent 3 "c"; staleEvent 4 "d";
   staleEvent 5 "e"]%string.

(** Two events of the same millisecond, stored with trace [b] first. *)
Definition tiedEvents : Recalc.Table :=
  [staleEvent 5 "b"; staleEvent 5 "a"]%string.

(** Four events of the same millisecond. *)
Definition fourTiedEvents : Recalc.Table :=
  [staleEvent 5 "a"; staleEvent 5 "b"; staleEvent 5 "c"; staleEvent 5 "d"]%string.

(** An event stored half a millisecond after millisecond 1. *)
Definition microsecondEvent : Recalc.LLMEventRow :=
  {| Recalc.timestamp := 1500;
     Recalc.trace_id := "m";
     Recalc.call_sequence := 0;
     Recalc.team_id := "team1";
     Recalc.model := Some "gpt"%string;
     Recalc.provider := None;
     Recalc.usage_input_tokens := Some 1000;
     Recalc.usage_output_tokens := Some 0;
     Recalc.usage_cached_tokens := None;
     Recalc.cost_total := Some 0%Q |}.

(** A clock that advances 200 seconds per reading: the deadline has passed
    at the second reading after the start. *)
Definition slowEnv : Recalc.Env :=
  {| Recalc.now := fun k => Z.of_nat k * 200000;
     Recalc.selectThrows := fun _ => None;
     Recalc.tieOrder := fun _ => Recalc.scanOrder;
     Recalc.updateThrows := fun _ => None;
     Recalc.refreshThrows := fun _ => None;
     Recalc.connectTeamClient := Returns tt;
     Recalc.loadPricingFromDb := Returns tt |}.

(** A run so fast that the clock does not move. *)
Definition fastEnv : Recalc.Env :=
  {| Recalc.now := fun _ => 0;
     Recalc.selectThrows := fun _ => None;
     Recalc.tieOrder := fun _ => Recalc.scanOrder;
     Recalc.updateThrows := fun _ => None;
     Recalc.refreshThrows := fun _ => None;
     Recalc.connectTeamClient := Returns tt;
     Recalc.loadPricingFromDb := Returns tt |}.

(** Rows whose stored cost is 0 before the others. *)
Definition staleFirst (row : Recalc.LLMEventRow) : Z :=
  match Recalc.cost_total row with
  | Some c => if Qeq_bool c 0 then 0 else 1
  | None => 0
  end.

(** A fast run on a server that returns, among rows of one timestamp, the
    rows it has not rewritten before the rows it has. *)
Definition rewrittenLastEnv : Recalc.Env :=
  {| Recalc.now := fun _ => 0;
     Recalc.selectThrows := fun _ => None;
     Recalc.tieOrder := fun _ => staleFirst;
     Recalc.updateThrows := fun _ => None;
     Recalc.refreshThrows := fun _ => None;
     Recalc.connectTeamClient := Returns tt;
     Recalc.loadPricingFromDb := Returns tt |}.

(** A fast run whose second [SELECT] throws. *)
Definition secondFetchFailsEnv : Recalc.Env :=
  {| Recalc.now := fun _ => 0;
     Recalc.selectThrows :=
       fun k => if (k =? 2)%nat then Some "connection terminated"%string
                else None;
     Recalc.tieOrder := fun _ => Recalc.scanOrder;
     Recalc.updateThrows := fun _ => None;
     Recalc.refreshThrows := fun _ => None;
     Recalc.connectTeamClient := Returns tt;
     Recalc.loadPricingFromDb := Returns tt |}.

End Samples.

(** * Properties *)

(** ** Window partitioner *)

Module PartitionFacts.
Import Partition.

Lemma utcDayStart_bounds (d : Z) :
  utcDayStart d <= d < utcDayStart d + 86400000.
Proof.
  unfold utcDayStart.
  pose proof (Z.mul_div_le d 86400000 ltac:(lia)).
  pose proof (Z.mul_succ_div_gt d 86400000 ltac:(lia)).
  lia.
Qed.

Lemma utcDayStart_step (d1 d2 : Z) :
  d1 <= d2 ->
  utcDayStart d1 = utcDayStart d2
  \/ utcDayStart d1 + 86400000 <= utcDayStart d2.
Proof.
  intros Hle. unfold utcDayStart.
  pose proof (Z.div_le_mono d1 d2 86400000 ltac:(lia) Hle) as Hq.
  destruct (Z.eq_dec (d1 / 86400000) (d2 / 86400000)) as [->|Hne].
  - now left.
  - right. nia.
Qed.

(** The first midnight at or after [startDate]. *)
Lemma fullBucketStart_bounds (s : Z) :
  s <= fullBucketStart s < s + 86400000
  /\ (fullBucketStart s = utcDayStart s /\ s = utcDayStart s
      \/ fullBucketStart s = utcDayStart s + 86400000 /\ utcDayStart s < s).
Proof.
  unfold fullBucketStart, addUtcDays.
  pose proof (utcDayStart_bounds s).
  destruct (Z.eqb_spec s (utcDayStart s)); lia.
Qed.

(** Case analysis on the next integer test of the goal. *)
Ltac case_test :=
  match goal with
  | |- context [(?a <=? ?b)%Z] => destruct (Z.leb_spec a b) as [?Hle | ?Hgt]
  | |- context [(?a <? ?b)%Z] => destruct (Z.ltb_spec a b) as [?Hlt | ?Hge]
  | |- context [(?a =? ?b)%Z] => destruct (Z.eqb_spec a b) as [?Heq | ?Hne]
  end.

Ltac split_tests := repeat case_test.

(** The number of pieces covering [t], with the midnights abstracted. *)
Lemma piecesCovering_unfold (s e t : Z) :
  piecesCovering s e t =
  ((if covers (fullBucketRange s e) t then 1 else 0)
   + (if (Z.min e (fullBucketStart s) <=? s)%Z then 0
      else if covers (mkRange s (Z.min e (fullBucketStart s))) t
           then 1 else 0)
   + (if (e <=? Z.max s (fullBucketEnd e))%Z then 0
      else if covers (mkRange (Z.max s (fullBucketEnd e)) e) t
           then 1 else 0))%nat.
Proof.
  unfold piecesCovering, pieces, partialRanges, pushRange.
  cbn [filter].
  destruct (covers (fullBucketRange s e) t);
    destruct (Z.min e (fullBucketStart s) <=? s);
    destruct (e <=? Z.max s (fullBucketEnd e));
    cbn [app filter List.length];
    repeat match goal with
      | |- context [if covers ?r t then _ else _] => destruct (covers r t)
      end; reflexivity.
Qed.

Lemma covered_iff_in_window (s e t : Z) :
  s < e -> ((1 <= piecesCovering s e t)%nat <-> s <= t < e).
Proof.
  intros Hse. rewrite piecesCovering_unfold.
  unfold covers, fullBucketRange, fullBucketEnd. cbn [r_start r_end].
  destruct (fullBucketStart_bounds s) as [Hs _].
  pose proof (utcDayStart_bounds e) as He.
  generalize dependent (fullBucketStart s). intros fs Hs.
  generalize dependent (utcDayStart e). intros fe He.
  split_tests; cbn [andb]; lia.
Qed.

Lemma contract_when_not_inverted (s e : Z) :
  s < e -> fullBucketStart s <= fullBucketEnd e -> partitionContract s e.
Proof.
  intros Hse Hord t. rewrite piecesCovering_unfold.
  unfold covers, fullBucketRange, fullBucketEnd in *. cbn [r_start r_end].
  destruct (fullBucketStart_bounds s) as [Hs _].
  pose proof (utcDayStart_bounds e) as He.
  generalize dependent (fullBucketStart s). intros fs Hord Hs.
  generalize dependent (utcDayStart e). intros fe He Hord.
  split_tests; cbn [andb]; lia.
Qed.

End PartitionFacts.

(** ** Aggregation merger *)

Module MergeFacts.
Import Merge.

Lemma mapGet_mapSet_eq (k : string) (v : MergedRow) (m : MergedMap) :
  mapGet k (mapSet k v m) = Some v.
Proof.
  induction m as [|[k' v'] m IH]; cbn.
  - now rewrite String.eqb_refl.
  - destruct (String.eqb_spec k k') as [->|Hne]; cbn.
    + now rewrite String.eqb_refl.
    + destruct (String.eqb_spec k k'); [contradiction | exact IH].
Qed.

Lemma mapGet_mapSet_neq (k k' : string) (v : MergedRow) (m : MergedMap) :
  k <> k' -> mapGet k (mapSet k' v m) = mapGet k m.
Proof.
  intros Hne. induction m as [|[k1 v1] m IH]; cbn.
  - destruct (String.eqb_spec k k'); [contradiction | reflexivity].
  - destruct (String.eqb_spec k' k1) as [->|Hne1]; cbn.
    + destruct (String.eqb_spec k k1); [contradiction | reflexivity].
    + destruct (String.eqb_spec k k1); [reflexivity | exact IH].
Qed.

(** The entry of a key only sees the rows of that key. *)
Lemma mapGet_fold_addRow (kf : list string) (k : string)
  (rows : list QueryRow) (m : MergedMap) :
  mapGet k (fold_left (addRow kf) rows m) =
  fold_left (fun o r => Some (mergedEntry kf o r))
    (filter (fun r => String.eqb (rowKey kf r) k) rows) (mapGet k m).
Proof.
  revert m. induction rows as [|r rows IH]; intros m; cbn [fold_left filter].
  - reflexivity.
  - rewrite IH. unfold addRow.
    destruct (String.eqb_spec (rowKey kf r) k) as [->|Hne]; cbn [fold_left].
    + now rewrite mapGet_mapSet_eq.
    + rewrite mapGet_mapSet_neq by congruence. reflexivity.
Qed.

Lemma mapGet_None_notin (k : string) (m : MergedMap) :
  mapGet k m = None -> ~ In k (map fst m).
Proof.
  induction m as [|[k' v'] m IH]; cbn; [tauto|].
  destruct (String.eqb_spec k k'); [discriminate|].
  intros H [Heq|Hin]; [congruence | now apply IH].
Qed.

Lemma mapGet_Some_in (k : string) (v : MergedRow) (m : MergedMap) :
  mapGet k m = Some v -> In (k, v) m.
Proof.
  induction m as [|[k' v'] m IH]; cbn; [discriminate|].
  destruct (String.eqb_spec k k') as [->|Hne].
  - intros [= ->]. now left.
  - intros H. right. now apply IH.
Qed.

Lemma in_keyed_mapGet (k : string) (v : MergedRow) (m : MergedMap) :
  NoDup (map fst m) -> In (k, v) m -> mapGet k m = Some v.
Proof.
  induction m as [|[k' v'] m IH]; cbn; [tauto|].
  intros Hnd [Heq|Hin].
  - injection Heq as -> ->. now rewrite String.eqb_refl.
  - inversion Hnd as [|? ? Hnotin Hnd']; subst.
    destruct (String.eqb_spec k k') as [->|Hne].
    + exfalso. apply Hnotin. now apply (in_map fst _ (k', v)).
    + now apply IH.
Qed.

Lemma mapSet_keys (k : string) (v : MergedRow) (m : MergedMap) :
  map fst (mapSet k v m) =
  if in_dec string_dec k (map fst m) then map fst m else map fst m ++ [k].
Proof.
  induction m as [|[k' v'] m IH]; cbn [mapSet map fst app].
  - destruct (in_dec string_dec k []) as [[]|_]. reflexivity.
  - destruct (String.eqb_spec k k') as [->|Hne]; cbn [map fst].
    + destruct (in_dec string_dec k' (k' :: map fst m)) as [_|Hn];
        [reflexivity | exfalso; apply Hn; now left].
    + rewrite IH.
      destruct (in_dec string_dec k (map fst m)) as [Hin|Hnin];
        destruct (in_dec string_dec k (k' :: map fst m)) as [Hin'|Hnin'];
        try reflexivity.
      * exfalso. apply Hnin'. now right.
      * destruct Hin' as [Heq|Hin']; [congruence | contradiction].
Qed.

Lemma mapSet_entries (k : string) (v : MergedRow) (m : MergedMap)
  (P : string * MergedRow -> Prop) :
  P (k, v) -> Forall P m -> Forall P (mapSet k v m).
Proof.
  intros Hv. induction 1 as [|[k' v'] m Hkv Hm IH]; cbn.
  - now constructor.
  - destruct (String.eqb_spec k k') as [->|Hne]; constructor; auto.
Qed.

Lemma keyed_mapSet (k : string) (v : MergedRow) (m : MergedMap) :
  keyed m -> mergedKey v = k -> keyed (mapSet k v m).
Proof.
  intros [Hnd Hall] Hk. split.
  - rewrite mapSet_keys.
    destruct (in_dec string_dec k (map fst m)) as [Hin|Hnin]; [exact Hnd|].
    apply NoDup_incl_NoDup with (l := k :: map fst m).
    + now constructor.
    + rewrite length_app. cbn. lia.
    + intros x Hx. apply in_or_app. cbn in *. tauto.
  - now apply mapSet_entries.
Qed.

Lemma mergedKey_fresh (kf : list string) (row : QueryRow) :
  mergedKey (mergedEntry kf None row) = rowKey kf row.
Proof.
  unfold mergedKey, rowKey. cbn. now rewrite map_map.
Qed.

Lemma keyed_addRow (kf : list string) (m : MergedMap) (row : QueryRow) :
  keyed m -> keyed (addRow kf m row).
Proof.
  intros Hm. unfold addRow. apply keyed_mapSet; [exact Hm|].
  destruct (mapGet (rowKey kf row) m) as [ex|] eqn:Hget.
  - apply mapGet_Some_in in Hget. destruct Hm as [_ Hall].
    rewrite Forall_forall in Hall. exact (Hall _ Hget).
  - apply mergedKey_fresh.
Qed.

Lemma keyed_fold (kf : list string) (rows : list QueryRow) (m : MergedMap) :
  keyed m -> keyed (fold_left (addRow kf) rows m).
Proof.
  revert m. induction rows as [|r rows IH]; intros m Hm; cbn; [exact Hm|].
  apply IH. now apply keyed_addRow.
Qed.

Lemma keyed_mergedMap (ca base : list QueryRow) (kf : list string) :
  keyed (mergedMap ca base kf).
Proof.
  unfold mergedMap. do 2 apply keyed_fold. split; constructor.
Qed.

Lemma insertByCost_In (x y : MergedRow) (l : list MergedRow) :
  In x (insertByCost y l) <-> x = y \/ In x l.
Proof.
  induction l as [|z l IH]; cbn.
  - intuition congruence.
  - destruct (Qle_bool (total_cost z) (total_cost y)); cbn.
    + intuition congruence.
    + rewrite IH. intuition congruence.
Qed.

Lemma sortByCostDesc_In (x : MergedRow) (l : list MergedRow) :
  In x (sortByCostDesc l) <-> In x l.
Proof.
  induction l as [|y l IH]; cbn; [tauto|].
  rewrite insertByCost_In, IH. intuition congruence.
Qed.

(** The rows of the result are the entries of the map. *)
Lemma mergeResults_In (ca base : list QueryRow) (kf : list string)
  (row : MergedRow) :
  In row (mergeResults ca base kf) <->
  exists v, mapGet (mergedKey v) (mergedMap ca base kf) = Some v
            /\ row = dropLatencySum v.
Proof.
  unfold mergeResults, mapValues.
  rewrite sortByCostDesc_In, in_map_iff.
  destruct (keyed_mergedMap ca base kf) as [Hnd Hall].
  rewrite Forall_forall in Hall.
  split.
  - intros (v & <- & Hv). apply in_map_iff in Hv.
    destruct Hv as ([k v'] & Heq & Hin). cbn in Heq. subst v'.
    exists v. split; [|reflexivity].
    pose proof (Hall _ Hin) as Hk. cbn in Hk. rewrite Hk.
    now apply in_keyed_mapGet.
  - intros (v & Hget & ->). exists v. split; [reflexivity|].
    apply mapGet_Some_in in Hget.
    now apply (in_map snd _ (mergedKey v, v)).
Qed.

End MergeFacts.

Section WeightedAverage.
Import Merge MergeFacts.

Lemma mergedMap_as_one_fold (ca base : list QueryRow) (kf : list string) :
  mergedMap ca base kf = fold_left (addRow kf) (ca ++ base) [].
Proof. unfold mergedMap. now rewrite fold_left_app. Qed.

(** C3. When exactly two partial aggregates [A] and [B] of a query (rollup
    rows and raw rows together, in the order the merger reads them) fall
    under the group key [k], the result holds exactly one row for [k];
    its counts, token sums and cost are the sums, [first_seen] and
    [last_seen] the minimum and the maximum, and [avg_latency_ms] is the
    count-weighted mean [(avgA*countA + avgB*countB) / (countA+countB)],
    the same whichever of the two comes first, and 0 when the combined
    count is 0. *)
Theorem weighted_average_merge
  (kf : list string) (ca base : list QueryRow) (k : string)
  (A B : QueryRow) :
  filter (fun r => String.eqb (rowKey kf r) k) (ca ++ base) = [A; B] ->
  let cA := Js.intOrZero (q_request_count A) in
  let cB := Js.intOrZero (q_request_count B) in
  let aA := Js.numOrZero (q_avg_latency_ms A) in
  let aB := Js.numOrZero (q_avg_latency_ms B) in
  exists row,
    In row (mergeResults ca base kf)
    /\ mergedKey row = k
    /\ (forall row', In row' (mergeResults ca base kf) ->
                     mergedKey row' = k -> row' = row)
    /\ request_count row = cA + cB
    /\ total_input_tokens row =
         Js.intOrZero (q_total_input_tokens A)
         + Js.intOrZero (q_total_input_tokens B)
    /\ total_output_tokens row =
         Js.intOrZero (q_total_output_tokens A)
         + Js.intOrZero (q_total_output_tokens B)
    /\ total_tokens row =
         Js.intOrZero (q_total_tokens A) + Js.intOrZero (q_total_tokens B)
    /\ total_cost row =
         (Js.numOrZero (q_total_cost A) + Js.numOrZero (q_total_cost B))%Q
    /\ (0 < cA + cB ->
        (avg_latency_ms row ==
           (aA * inject_Z cA + aB * inject_Z cB) / inject_Z (cA + cB))%Q
        /\ (avg_latency_ms row ==
              (aB * inject_Z cB + aA * inject_Z cA) / inject_Z (cB + cA))%Q)
    /\ (cA + cB = 0 -> avg_latency_ms row = 0%Q)
    /\ first_seen row = Z.min (q_first_seen A) (q_first_seen B)
    /\ last_seen row = Z.max (q_last_seen A) (q_last_seen B).
Proof.
  intros Hfilter cA cB aA aB.
  assert (HkA : rowKey kf A = k).
  { assert (Hin : In A (filter (fun r => String.eqb (rowKey kf r) k)
                          (ca ++ base))) by (rewrite Hfilter; now left).
    apply filter_In in Hin. now apply String.eqb_eq. }
  set (v := mergedEntry kf (Some (mergedEntry kf None A)) B).
  assert (Hget : mapGet k (mergedMap ca base kf) = Some v).
  { rewrite mergedMap_as_one_fold, mapGet_fold_addRow, Hfilter.
    reflexivity. }
  assert (Hkv : mergedKey v = k).
  { unfold v, mergedKey. cbn [mergedEntry m_keys].
    rewrite map_map. cbn [snd]. exact HkA. }
  exists (dropLatencySum v).
  split; [apply mergeResults_In; exists v; now rewrite Hkv|].
  split; [exact Hkv|].
  split.
  { intros row' Hin' Hk'. apply mergeResults_In in Hin'.
    destruct Hin' as (v' & Hget' & ->).
    change (mergedKey (dropLatencySum v')) with (mergedKey v') in Hk'.
    rewrite Hk', Hget in Hget'. now injection Hget' as <-. }
  cbn [dropLatencySum v mergedEntry request_count total_input_tokens
       total_output_tokens total_tokens total_cost avg_latency_ms
       first_seen last_seen latency_sum].
  fold cA cB aA aB.
  repeat split.
  - destruct (Z.ltb_spec 0 (cA + cB)); [reflexivity | lia].
  - destruct (Z.ltb_spec 0 (cA + cB)); [|lia].
    rewrite (Z.add_comm cB cA), (Qplus_comm (aB * inject_Z cB)).
    reflexivity.
  - intros Hz. rewrite Hz. reflexivity.
  - destruct (Z.ltb_spec (q_first_seen A) (q_first_seen B)); lia.
  - destruct (Z.ltb_spec (q_last_seen B) (q_last_seen A)); lia.
Qed.

End WeightedAverage.

(** ** The router of [GET /logs] *)

Module LogsFacts.
Import Json Merge Partition Logs.

Lemma hybridFetch_flag db team s e sel kf ca lim off rows u :
  hybridFetch db team s e sel kf ca lim off = Returns (rows, u) ->
  u = hasFullBuckets s e.
Proof.
  unfold hybridFetch, bindOutcome.
  destruct (awaitAll _ _); [|discriminate].
  destruct (if hasFullBuckets s e then _ else _); [|discriminate].
  now intros [= _ <-].
Qed.

Lemma hybridFetch_throws db team s e sel kf ca lim off m :
  hasFullBuckets s e = true ->
  ca (fullBucketStart s) (fullBucketEnd e) = Throws m ->
  exists m', hybridFetch db team s e sel kf ca lim off = Throws m'.
Proof.
  intros Hfull Hca. unfold hybridFetch, bindOutcome.
  destruct (awaitAll _ _) as [rows|m']; [|now exists m'].
  rewrite Hfull, Hca. now exists m.
Qed.

(** Without full buckets the grouped branch answers from the raw table,
    whatever the hybrid attempt did. *)
Lemma grouped_without_full_buckets db team s e gf lim off :
  hasFullBuckets s e = false ->
  grouped db team s e gf lim off = baseTableFallback db team s e gf lim off.
Proof.
  intros Hfull. unfold grouped.
  destruct (useModelCA gf || useModelProviderCA gf).
  - destruct (hybridFetch _ _ _ _ _ _ _ _ _) as [[rows u]|m] eqn:Hf;
      [|reflexivity].
    apply hybridFetch_flag in Hf. rewrite Hfull in Hf. now subst u.
  - destruct (useAgentCA gf); [|reflexivity].
    destruct (hybridFetch _ _ _ _ _ _ _ _ _) as [[rows u]|m] eqn:Hf;
      [|reflexivity].
    apply hybridFetch_flag in Hf. rewrite Hfull in Hf. now subst u.
Qed.

(** A throwing rollup query sends the grouped branch to the raw table. *)
Lemma grouped_rollup_throws db team s e gf lim off m :
  caSqlOf db gf (fullBucketStart s) (fullBucketEnd e) = Throws m ->
  grouped db team s e gf lim off = baseTableFallback db team s e gf lim off.
Proof.
  intros Hca.
  destruct (hasFullBuckets s e) eqn:Hfull;
    [|now apply grouped_without_full_buckets].
  unfold grouped, caSqlOf in *.
  destruct (useModelCA gf || useModelProviderCA gf).
  - destruct (hybridFetch_throws db team s e
                (if useModelProviderCA gf then "model, provider"
                 else "model")%string
                (if useModelProviderCA gf
                 then ["model"; "provider"] else ["model"])%string
                _ lim off m Hfull Hca) as [m' ->].
    reflexivity.
  - destruct (useAgentCA gf); [|reflexivity].
    destruct (hybridFetch_throws db team s e "agent" ["agent"%string]
                _ lim off m Hfull Hca) as [m' ->].
    reflexivity.
Qed.

(** The rollup path: every fetch returned and there are full buckets. *)
Lemma grouped_rollup_returns db team s e gf lim off baseRows caRows :
  rollupEligible gf = true ->
  hasFullBuckets s e = true ->
  awaitAll (fun r => getBaseAggData db team (r_start r) (r_end r)
                       (selectFieldsOf gf) (selectFieldsOf gf))
           (partialRanges s e) = Returns baseRows ->
  caSqlOf db gf (fullBucketStart s) (fullBucketEnd e) = Returns caRows ->
  grouped db team s e gf lim off =
  groupedResponse s e gf
    (map asQueryRow
       (Js.slice (mergeResults caRows (List.concat baseRows) (keyFieldsOf gf))
                 off (Js.add off lim)))
    true.
Proof.
  unfold rollupEligible, grouped, caSqlOf, selectFieldsOf, keyFieldsOf.
  intros Hel Hfull Hbase Hca.
  destruct (useModelCA gf || useModelProviderCA gf).
  - unfold hybridFetch, bindOutcome. now rewrite Hbase, Hfull, Hca.
  - cbn in Hel. rewrite Hel.
    unfold hybridFetch, bindOutcome. now rewrite Hbase, Hfull, Hca.
Qed.

Lemma logs_grouped db req team s e c g :
  accepted db req team s e ->
  group_by req = Some (String c g) ->
  logs db req =
  if (List.length (groupFieldsOf (String c g)) =? 0)%nat then invalidGroupBy
  else grouped db team s e (groupFieldsOf (String c g))
         (effectiveLimit req) (effectiveOffset req).
Proof.
  intros (Ht & Hs & He & Hc) Hg. unfold logs.
  now rewrite Ht, Hs, He, Hc, Hg.
Qed.

Lemma baseTableFallback_status db team s e gf lim off :
  status (baseTableFallback db team s e gf lim off) = 200
  \/ status (baseTableFallback db team s e gf lim off) = 500.
Proof.
  unfold baseTableFallback. destruct (aggSql _ _ _ _ _ _ _ _); cbn; auto.
Qed.

Lemma grouped_status db team s e gf lim off :
  status (grouped db team s e gf lim off) = 200
  \/ status (grouped db team s e gf lim off) = 500.
Proof.
  unfold grouped.
  destruct (if useModelCA gf || useModelProviderCA gf then _ else _)
    as [[rows [|]]|m]; cbn [negb];
    try apply baseTableFallback_status.
  cbn. auto.
Qed.

End LogsFacts.

Section PartitionContract.
Import Partition PartitionFacts Logs LogsFacts Samples.

(** C1, as stated, fails for a window inside one UTC day that does not
    start at midnight: both partial ranges are the whole window. *)
Lemma partition_contract_fails_within_a_day :
  noon1 < evening1
  /\ partialRanges noon1 evening1
     = [mkRange noon1 evening1; mkRange noon1 evening1]
  /\ piecesCovering noon1 evening1 noon1 = 2%nat
  /\ ~ partitionContract noon1 evening1.
Proof.
  split; [reflexivity|]. split; [reflexivity|]. split; [reflexivity|].
  intros H. specialize (H noon1). vm_compute in H. discriminate.
Qed.

(** C1, amended.  For every window with [start < end]: the union of the
    full-bucket range and the partial ranges is [[start, end)] exactly;
    the ranges are pairwise disjoint whenever
    [fullBucketStart <= fullBucketEnd]; and whenever
    [fullBucketStart >= fullBucketEnd] the response is not built from the
    partial ranges but from the single raw-table query over the whole
    window. *)
Theorem partition_coverage (s e : Z) :
  s < e ->
  (forall t, (1 <= piecesCovering s e t)%nat <-> s <= t < e)
  /\ (fullBucketStart s <= fullBucketEnd e -> partitionContract s e)
  /\ (fullBucketEnd e <= fullBucketStart s ->
      forall db team gf lim off,
        grouped db team s e gf lim off
        = baseTableFallback db team s e gf lim off).
Proof.
  intros Hse. split; [|split].
  - intros t. now apply covered_iff_in_window.
  - now apply contract_when_not_inverted.
  - intros Hinv db team gf lim off.
    apply grouped_without_full_buckets.
    unfold hasFullBuckets. now apply Z.ltb_ge.
Qed.

Lemma partition_coverage_witness :
  noon1 < morning3 /\ partitionContract noon1 morning3.
Proof.
  split; [reflexivity|].
  apply (partition_coverage noon1 morning3); [reflexivity|].
  vm_compute. discriminate.
Defined.

End PartitionContract.

Section DoubleCounting.
Import Partition PartitionFacts Coverage Samples.

(** How often the hybrid path counts an event of the window, when there are
    full buckets: twice at the first full midnight behind a head range,
    once everywhere else. *)
Lemma timesCounted_hybrid (s e t : Z) :
  hasFullBuckets s e = true -> s <= t < e ->
  timesCounted s e t =
  if (t =? fullBucketStart s) && (s <? fullBucketStart s) then 2%nat
  else 1%nat.
Proof.
  unfold hasFullBuckets. intros Hfull Ht. apply Z.ltb_lt in Hfull.
  unfold timesCounted, countedByRollupFetch, hasFullBuckets, caWhere,
    bucketOf, partialRanges, pushRange, fullBucketEnd in *.
  destruct (fullBucketStart_bounds s) as [Hs Hcase].
  pose proof (utcDayStart_bounds e) as He.
  pose proof (utcDayStart_bounds t) as Hdt.
  assert (Hlo : fullBucketStart s <= t -> fullBucketStart s <= utcDayStart t).
  { intros Hle.
    destruct (utcDayStart_step s t ltac:(lia)) as [Heq|Hst];
      destruct Hcase as [[H1 H2]|[H1 H2]]; lia. }
  assert (Hhi : t < utcDayStart e -> utcDayStart t < utcDayStart e).
  { intros Hlt. destruct (utcDayStart_step t e ltac:(lia)); lia. }
  assert (Hlo' : fullBucketStart s <= utcDayStart t -> fullBucketStart s <= t)
    by lia.
  assert (Hhi' : utcDayStart t < utcDayStart e -> t < utcDayStart e).
  { intros Hlt. destruct (utcDayStart_step t e ltac:(lia)); lia. }
  clear Hcase.
  generalize dependent (fullBucketStart s). intros fs.
  generalize dependent (utcDayStart e). intros fe.
  generalize dependent (utcDayStart t). intros dt. intros.
  destruct (Z.ltb_spec fs fe); [|lia]. cbn [andb].
  destruct (Z.leb_spec (Z.min e fs) s);
    destruct (Z.leb_spec e (Z.max s fe));
    cbn [app filter List.length];
    unfold countedByBaseFetch, baseWhere; cbn [r_start r_end];
    split_tests; cbn [andb filter List.length Nat.add]; try reflexivity; lia.
Qed.

(** C2, at the failing input.  Window 2024-01-01T12:00Z to
    2024-01-03T06:00Z, one event at 2024-01-02T00:00Z: the head range
    is fetched with an inclusive upper bound, 2024-01-02T00:00Z, and the
    rollup bucket of 01-02 holds the same event, so it is counted twice:
    on a store holding that one event, with refreshed rollups, the grouped
    response reports [request_count = 2], where the raw-table aggregate over
    the same window reports 1. *)
Theorem midnight_event_counted_twice :
  hasFullBuckets noon1 morning3 = true
  /\ noon1 <= midnight2 < morning3
  /\ fullBucketRange noon1 morning3 = mkRange midnight2 midnight3
  /\ partialRanges noon1 morning3
     = [mkRange noon1 midnight2; mkRange midnight3 morning3]
  /\ countedByBaseFetch (mkRange noon1 midnight2) midnight2 = true
  /\ countedByRollupFetch noon1 morning3 midnight2 = true
  /\ timesCounted noon1 morning3 midnight2 = 2%nat
  /\ Json.column "aggregations" "request_count"
       (Json.body (Logs.logs (Store.storeDb [eventAt midnight2])
                     (groupedRequest "model" None None)))
     = [Some (Json.JInt 2)]
  /\ Json.column "aggregations" "request_count"
       (Json.body (Logs.baseTableFallback (Store.storeDb [eventAt midnight2])
                     "team1" noon1 morning3 ["model"%string]
                     (Some 500) (Some 0)))
     = [Some (Json.JInt 1)].
Proof. repeat split; try reflexivity; vm_compute; discriminate. Qed.

End DoubleCounting.

Section Routing.
Import Json Merge Partition Logs LogsFacts Samples.

Lemma rollupEligible_nonempty (gf : list string) :
  rollupEligible gf = true -> (List.length gf =? 0)%nat = false.
Proof.
  unfold rollupEligible, useModelCA, useModelProviderCA, useAgentCA.
  destruct gf as [|f1 [|f2 [|f3 gf]]]; cbn; intros H;
    try reflexivity; discriminate.
Qed.



Lemma includes_In (l : list string) (x : string) :
  Js.includes l x = true <-> In x l.
Proof.
  unfold Js.includes. rewrite existsb_exists. split.
  - intros (y & Hin & Heq). apply String.eqb_eq in Heq. now subst.
  - intros Hin. exists x. split; [exact Hin | apply String.eqb_refl].
Qed.

(** C8, as stated, fails: [group_by=model,foo] names the unsupported field
    [foo], yet the request is answered (status 200) grouped by [model]. *)
Lemma unsupported_group_field_is_dropped :
  accepted quietDb (groupedRequest "model,foo" None None) "team1" noon1 morning3
  /\ In "foo"%string (map Js.trim (Js.split "model,foo"))
  /\ Js.includes validGroupFields "foo" = false
  /\ logs quietDb (groupedRequest "model,foo" None None) <> invalidGroupBy
  /\ status (logs quietDb (groupedRequest "model,foo" None None)) = 200
  /\ jget "group_by" (body (logs quietDb (groupedRequest "model,foo" None None)))
     = Some (JArr [JStr "model"]).
Proof.
  split; [repeat split|]. split; [vm_compute; tauto|].
  split; [reflexivity|]. split; [vm_compute; discriminate|].
  split; reflexivity.
Qed.

(** C8, amended.  For a [/logs] query that passed the token, window and
    connection checks and carries a non-empty [group_by]: the fields kept
    are exactly the requested ones (trimmed) that are in the allow-list; the
    request fails with 400 [invalid_group_by] exactly when none is kept;
    otherwise it is aggregated over the kept fields and is never answered
    400, the other fields being dropped. *)
Theorem group_by_validation (db : Db) (req : Request) (team : string)
  (s e : Z) (c : ascii) (g : string) :
  accepted db req team s e ->
  group_by req = Some (String c g) ->
  let gf := groupFieldsOf (String c g) in
  (forall f, In f gf <->
             In f (map Js.trim (Js.split (String c g)))
             /\ In f validGroupFields)
  /\ (gf = [] -> logs db req = invalidGroupBy)
  /\ (gf <> [] ->
      logs db req
      = grouped db team s e gf (effectiveLimit req) (effectiveOffset req)
      /\ status (logs db req) <> 400).
Proof.
  intros Hacc Hg gf.
  pose proof (logs_grouped db req team s e c g Hacc Hg) as Hlogs.
  fold gf in Hlogs. split; [|split].
  - intros f. unfold gf, groupFieldsOf. rewrite filter_In, includes_In. tauto.
  - intros Hnil. now rewrite Hlogs, Hnil.
  - intros Hne. destruct gf as [|f gf']; [contradiction|].
    cbn [List.length Nat.eqb] in Hlogs. split; [exact Hlogs|].
    rewrite Hlogs.
    destruct (grouped_status db team s e (f :: gf') (effectiveLimit req)
                (effectiveOffset req)) as [-> | ->]; lia.
Qed.

Lemma group_by_validation_witness :
  logs quietDb (groupedRequest "model,foo" None None)
  = grouped quietDb "team1" noon1 morning3 ["model"%string] (Some 500) (Some 0)
  /\ logs quietDb (groupedRequest "foo, bar" None None) = invalidGroupBy.
Proof.
  split.
  - destruct (group_by_validation quietDb (groupedRequest "model,foo" None None)
                "team1" noon1 morning3 "m"%char "odel,foo"
                (conj eq_refl (conj eq_refl (conj eq_refl eq_refl))) eq_refl)
      as (_ & _ & Hkept).
    destruct (Hkept ltac:(discriminate)) as [Heq _]. exact Heq.
  - destruct (group_by_validation quietDb (groupedRequest "foo, bar" None None)
                "team1" noon1 morning3 "f"%char "oo, bar"
                (conj eq_refl (conj eq_refl (conj eq_refl eq_refl))) eq_refl)
      as (_ & Hnone & _).
    exact (Hnone eq_refl).
Defined.

End Routing.

Section Pagination.
Import Json Merge Partition Logs LogsFacts Samples.
Local Open Scope string_scope.

Lemma logs_rejection_ignores_paging (db : Db) (req : Request)
  (l o : option string) :
  status (logs db (withPaging req l o)) = 400 ->
  logs db (withPaging req l o) = logs db req.
Proof.
  unfold logs, teamOf. cbn [withPaging token startDate endDate group_by].
  destruct (token req) as [ctx|]; [|reflexivity].
  destruct (String.eqb (team_id ctx) EmptyString); [reflexivity|].
  destruct (startDate req) as [s|]; [|reflexivity].
  destruct (endDate req) as [e|]; [|reflexivity].
  destruct (connectTeamClient db (team_id ctx)); [|reflexivity].
  destruct (group_by req) as [[|c g]|].
  - destruct (rawSql db _ s e _ _ _); cbn; discriminate.
  - destruct (List.length (groupFieldsOf (String c g)) =? 0)%nat;
      [reflexivity|].
    intros H400.
    destruct (grouped_status db (team_id ctx) s e (groupFieldsOf (String c g))
                (effectiveLimit (withPaging req l o))
                (effectiveOffset (withPaging req l o))) as [H|H];
      rewrite H in H400; discriminate.
  - destruct (rawSql db _ s e _ _ _); cbn; discriminate.
Qed.

(** C10, as stated, fails for a negative limit: [limit=-5] is not clamped,
    the effective limit is -5.  The grouped rollup path then slices from
    the end and drops the last five groups; the raw-table paths send
    [LIMIT -5], which the store refuses, and the request answers 500. *)
Lemma negative_limit_is_not_clamped :
  effectiveLimit (rawRequest (Some "-5") None) = Some (-5)
  /\ status (logs (Store.storeDb [eventAt noon1])
               (rawRequest (Some "-5") None)) = 500
  /\ status (logs (Store.storeDb [eventAt noon1])
               (rawRequest (Some "5") None)) = 200
  /\ Json.column "aggregations" "request_count"
       (body (logs (Store.storeDb [eventAt noon1])
                (groupedRequest "model" None None)))
     = [Some (JInt 1)]
  /\ Json.column "aggregations" "request_count"
       (body (logs (Store.storeDb [eventAt noon1])
                (groupedRequest "model" (Some "-5") None)))
     = [].
Proof. repeat split; reflexivity. Qed.

(** C10, amended.  The handler never validates [limit] or [offset].  The
    effective limit is [min(parseInt(limit), 5000)], 500 when the parameter
    is absent, so a limit above 5000 is clamped and a negative one is kept;
    the effective offset is [max(parseInt(offset), 0)], 0 when absent, so a
    negative offset is clamped; a 400 answer never depends on [limit] or
    [offset]; and an accepted request sends its query with the effective
    values. *)
Theorem pagination_is_clamped_not_rejected (db : Db) (req : Request) :
  (limit req = None -> effectiveLimit req = Some 500)
  /\ (forall n, Js.parseInt (Js.orString (limit req) "500") = Some n ->
                effectiveLimit req = Some (Z.min n 5000))
  /\ (offset req = None -> effectiveOffset req = Some 0)
  /\ (forall n, Js.parseInt (Js.orString (offset req) "0") = Some n ->
                effectiveOffset req = Some (Z.max n 0))
  /\ (forall l o, status (logs db (withPaging req l o)) = 400 ->
                  logs db (withPaging req l o) = logs db req)
  /\ (forall team s e,
         accepted db req team s e -> group_by req = None ->
         logs db req
         = match rawSql db (whereConditions req) s e team
                   (effectiveLimit req) (effectiveOffset req) with
           | Returns rows => rawResponse s e req rows
           | Throws m => logsFailed m
           end)
  /\ (forall team s e c g,
         accepted db req team s e -> group_by req = Some (String c g) ->
         groupFieldsOf (String c g) <> [] ->
         logs db req
         = grouped db team s e (groupFieldsOf (String c g))
             (effectiveLimit req) (effectiveOffset req)).
Proof.
  repeat match goal with |- _ /\ _ => split end.
  - unfold effectiveLimit. now intros ->.
  - unfold effectiveLimit. now intros n ->.
  - unfold effectiveOffset. now intros ->.
  - unfold effectiveOffset. now intros n ->.
  - apply logs_rejection_ignores_paging.
  - intros team s e (Ht & Hs & He & Hc) Hg. unfold logs.
    now rewrite Ht, Hs, He, Hc, Hg.
  - intros team s e c g Hacc Hg Hne.
    rewrite (logs_grouped db req team s e c g Hacc Hg).
    destruct (groupFieldsOf (String c g)); [contradiction | reflexivity].
Qed.

Lemma pagination_is_clamped_not_rejected_witness :
  effectiveLimit (groupedRequest "model" (Some "99999") (Some "-3"))
  = Some 5000
  /\ effectiveOffset (groupedRequest "model" (Some "99999") (Some "-3"))
     = Some 0
  /\ effectiveLimit (groupedRequest "model" (Some "-5") None) = Some (-5)
  /\ effectiveLimit (groupedRequest "model" None None) = Some 500.
Proof.
  split; [|split; [|split]].
  - destruct (pagination_is_clamped_not_rejected quietDb
                (groupedRequest "model" (Some "99999") (Some "-3")))
      as (_ & H & _).
    exact (H 99999 eq_refl).
  - destruct (pagination_is_clamped_not_rejected quietDb
                (groupedRequest "model" (Some "99999") (Some "-3")))
      as (_ & _ & _ & H & _).
    exact (H (-3) eq_refl).
  - destruct (pagination_is_clamped_not_rejected quietDb
                (groupedRequest "model" (Some "-5") None))
      as (_ & H & _).
    exact (H (-5) eq_refl).
  - destruct (pagination_is_clamped_not_rejected quietDb
                (groupedRequest "model" None None))
      as (H & _).
    exact (H eq_refl).
Defined.

End Pagination.

(** ** Period summary *)

Section PeriodSummary.
Import Metrics.
Local Open Scope Q_scope.

Lemma isPositive_spec (q : Q) : isPositive q = true <-> 0 < q.
Proof.
  unfold isPositive. rewrite negb_true_iff.
  split.
  - intros H. apply Qnot_le_lt. intros Hle.
    apply Qle_bool_iff in Hle. congruence.
  - intros H. destruct (Qle_bool q 0) eqn:E; [|reflexivity].
    apply Qle_bool_iff in E. exfalso. eapply Qlt_not_le; eauto.
Qed.

Lemma isPositive_zero (q : Q) : q == 0 -> isPositive q = false.
Proof.
  intros H. destruct (isPositive q) eqn:E; [|reflexivity].
  apply isPositive_spec in E. rewrite H in E. discriminate.
Qed.

Lemma cacheHitRate_guard (r : MetricRow) :
  num (total_input_tokens r) == 0 -> cacheHitRate r = 0.
Proof. intros H. unfold cacheHitRate. now rewrite isPositive_zero. Qed.

Lemma streamingRate_guard (r : MetricRow) :
  int (total_requests r) == 0 -> streamingRate r = 0.
Proof. intros H. unfold streamingRate. now rewrite isPositive_zero. Qed.

Lemma avgCallsPerTrace_guard (r : MetricRow) :
  int (unique_traces r) == 0 -> avgCallsPerTrace r = 0.
Proof. intros H. unfold avgCallsPerTrace. now rewrite isPositive_zero. Qed.

Lemma costPer1kTokens_guard (r : MetricRow) :
  num (total_tokens r) == 0 -> costPer1kTokens r = 0.
Proof. intros H. unfold costPer1kTokens. now rewrite isPositive_zero. Qed.

(** C7. [pctChange] is [(curr - prev) / prev * 100] when [prev] is not 0,
    and with [prev = 0] it is 100 for a positive [curr] and 0 otherwise.
    The summary holds twenty metrics, and the [change_pct] of each is
    [pctChange] of that metric's own current and previous value: the two
    columns of its name, or the derived ratio computed on either period.
    The cache-hit rate, the streaming rate, the average calls per trace and
    the cost per 1000 tokens are 0 when their denominator is 0, on either
    period, and so is the value the summary shows for them. *)
Theorem zero_guarded_summary (current previous : MetricRow) :
  (forall curr prev : column,
      (~ num prev == 0 ->
       pctChange curr prev = (num curr - num prev) / num prev * 100)
      /\ (num prev == 0 -> 0 < num curr -> pctChange curr prev = 100)
      /\ (num prev == 0 -> num curr <= 0 -> pctChange curr prev = 0))
  /\ map (fun m => (m_group m, m_name m, m_change_pct m))
       (metrics current previous)
     = [ ("volume", "total_requests",
          pctChange (total_requests current) (total_requests previous));
         ("volume", "unique_traces",
          pctChange (unique_traces current) (unique_traces previous));
         ("volume", "unique_users",
          pctChange (unique_users current) (unique_users previous));
         ("volume", "avg_calls_per_trace",
          pctChange (Some (avgCallsPerTrace current))
            (Some (avgCallsPerTrace previous)));
         ("tokens", "total_input_tokens",
          pctChange (total_input_tokens current)
            (total_input_tokens previous));
         ("tokens", "total_output_tokens",
          pctChange (total_output_tokens current)
            (total_output_tokens previous));
         ("tokens", "total_tokens",
          pctChange (total_tokens current) (total_tokens previous));
         ("tokens", "cached_tokens",
          pctChange (cached_tokens current) (cached_tokens previous));
         ("tokens", "reasoning_tokens",
          pctChange (reasoning_tokens current) (reasoning_tokens previous));
         ("tokens", "cache_hit_rate",
          pctChange (Some (cacheHitRate current))
            (Some (cacheHitRate previous)));
         ("tokens", "avg_tokens_per_request",
          pctChange (Some (avgTokensPerRequest current))
            (Some (avgTokensPerRequest previous)));
         ("performance", "avg_latency_ms",
          pctChange (avg_latency_ms current) (avg_latency_ms previous));
         ("performance", "p50_latency_ms",
          pctChange (p50_latency_ms current) (p50_latency_ms previous));
         ("performance", "p95_latency_ms",
          pctChange (p95_latency_ms current) (p95_latency_ms previous));
         ("performance", "p99_latency_ms",
          pctChange (p99_latency_ms current) (p99_latency_ms previous));
         ("performance", "max_latency_ms",
          pctChange (max_latency_ms current) (max_latency_ms previous));
         ("cost", "total_cost",
          pctChange (total_cost current) (total_cost previous));
         ("cost", "avg_cost_per_request",
          pctChange (Some (avgCostPerRequest current))
            (Some (avgCostPerRequest previous)));
         ("cost", "cost_per_1k_tokens",
          pctChange (Some (costPer1kTokens current))
            (Some (costPer1kTokens previous)));
         ("usage_patterns", "streaming_rate",
          pctChange (Some (streamingRate current))
            (Some (streamingRate previous))) ]%string
  /\ (forall r,
        (0 < num (total_input_tokens r) ->
         cacheHitRate r
         = num (cached_tokens r) / num (total_input_tokens r) * 100)
        /\ (num (total_input_tokens r) == 0 -> cacheHitRate r = 0)
        /\ (0 < int (total_requests r) ->
            streamingRate r
            = int (streaming_requests r) / int (total_requests r) * 100)
        /\ (int (total_requests r) == 0 -> streamingRate r = 0)
        /\ (0 < int (unique_traces r) ->
            avgCallsPerTrace r = int (total_requests r) / int (unique_traces r))
        /\ (int (unique_traces r) == 0 -> avgCallsPerTrace r = 0)
        /\ (0 < num (total_tokens r) ->
            costPer1kTokens r
            = num (total_cost r) / (num (total_tokens r) / 1000))
        /\ (num (total_tokens r) == 0 -> costPer1kTokens r = 0))
  /\ (forall m, In m (metrics current previous) ->
        (m_name m = "cache_hit_rate"%string ->
         m_value m = round2 (cacheHitRate current)
         /\ (num (total_input_tokens current) == 0 -> m_value m == 0))
        /\ (m_name m = "streaming_rate"%string ->
            m_value m = round2 (streamingRate current)
            /\ (int (total_requests current) == 0 -> m_value m == 0))
        /\ (m_name m = "avg_calls_per_trace"%string ->
            m_value m = round2 (avgCallsPerTrace current)
            /\ (int (unique_traces current) == 0 -> m_value m == 0))
        /\ (m_name m = "cost_per_1k_tokens"%string ->
            m_value m = round4 (costPer1kTokens current)
            /\ (num (total_tokens current) == 0 -> m_value m == 0))).
Proof.
  split; [|split; [reflexivity|split]].
  - intros curr prev. unfold pctChange. repeat split.
    + intros Hne. destruct (Qeq_bool (num prev) 0) eqn:E; [|reflexivity].
      apply Qeq_bool_iff in E. contradiction.
    + intros Hz Hpos. rewrite (proj2 (Qeq_bool_iff _ _) Hz).
      now rewrite (proj2 (isPositive_spec _) Hpos).
    + intros Hz Hle. rewrite (proj2 (Qeq_bool_iff _ _) Hz).
      destruct (isPositive (num curr)) eqn:E; [|reflexivity].
      apply isPositive_spec in E. exfalso. eapply Qlt_not_le; eauto.
  - intros r.
    split; [intros H; unfold cacheHitRate;
            now rewrite (proj2 (isPositive_spec _) H)|].
    split; [apply cacheHitRate_guard|].
    split; [intros H; unfold streamingRate;
            now rewrite (proj2 (isPositive_spec _) H)|].
    split; [apply streamingRate_guard|].
    split; [intros H; unfold avgCallsPerTrace;
            now rewrite (proj2 (isPositive_spec _) H)|].
    split; [apply avgCallsPerTrace_guard|].
    split; [intros H; unfold costPer1kTokens;
            now rewrite (proj2 (isPositive_spec _) H)|].
    apply costPer1kTokens_guard.
  - intros m Hin. unfold metrics in Hin. cbn [In] in Hin.
    repeat (destruct Hin as [<-|Hin]); try contradiction;
      cbn [m_name m_value];
      (split; [|split; [|split]]); intros Hname; try discriminate Hname;
      (split; [reflexivity|]); intros Hzero.
    + now rewrite avgCallsPerTrace_guard.
    + now rewrite cacheHitRate_guard.
    + now rewrite costPer1kTokens_guard.
    + now rewrite streamingRate_guard.
Qed.

(** A first period with 10 requests and no tokens: the request count has
    risen by 100 percent from nothing, the cache-hit rate is shown as 0 and
    has not changed. *)
Lemma zero_guarded_summary_witness :
  nth_error
    (map (fun m => (m_group m, m_name m, m_change_pct m))
       (metrics Samples.tenRequests emptyRow)) 0
  = Some ("volume"%string, "total_requests"%string, 100)
  /\ nth_error
       (map (fun m => (m_group m, m_name m, m_change_pct m))
          (metrics Samples.tenRequests emptyRow)) 9
     = Some ("tokens"%string, "cache_hit_rate"%string, 0)
  /\ cacheHitRate Samples.tenRequests = 0
  /\ pctChange (Some 15) (Some 10) = (15 - 10) / 10 * 100.
Proof.
  destruct (zero_guarded_summary Samples.tenRequests emptyRow)
    as (Hpct & Hchanges & Hratios & _).
  rewrite Hchanges. cbn [nth_error].
  destruct (Hratios Samples.tenRequests) as (_ & Hcache & _).
  destruct (Hpct (Some 15) (Some 10)) as (Hquot & _).
  split; [reflexivity|]. split; [reflexivity|].
  split; [apply Hcache; reflexivity | apply Hquot; discriminate].
Defined.

End PeriodSummary.

(** ** Cost recalculation *)

Module RecalcFacts.
Import Json Recalc.

(** *** Lists *)

Lemma firstn_plus {A : Type} (n m : nat) (l : list A) :
  firstn (n + m) l = firstn n l ++ firstn m (skipn n l).
Proof.
  revert l. induction n as [|n IH]; intros [|x l]; cbn;
    try reflexivity.
  - now rewrite firstn_nil.
  - now rewrite IH.
Qed.

Lemma filter_map_same {A : Type} (f : A -> A) (P : A -> bool) (l : list A) :
  (forall x, P (f x) = P x) -> filter P (map f l) = map f (filter P l).
Proof.
  intros HP. induction l as [|x l IH]; cbn; [reflexivity|].
  rewrite HP, IH. now destruct (P x).
Qed.

Lemma find_app {A : Type} (P : A -> bool) (l1 l2 : list A) :
  find P (l1 ++ l2) =
  match find P l1 with Some x => Some x | None => find P l2 end.
Proof.
  induction l1 as [|x l1 IH]; cbn; [reflexivity|].
  now destruct (P x).
Qed.

Lemma NoDup_map_filter {A B : Type} (f : A -> B) (P : A -> bool)
  (l : list A) :
  NoDup (map f l) -> NoDup (map f (filter P l)).
Proof.
  induction l as [|x l IH]; cbn; [auto|].
  intros Hnd. inversion Hnd as [|? ? Hnotin Hnd']; subst.
  destruct (P x); cbn; [|now apply IH].
  constructor; [|now apply IH].
  intros Hin. apply Hnotin. apply in_map_iff in Hin.
  destruct Hin as (y & Hy & Hin). apply filter_In in Hin.
  apply in_map_iff. exists y. tauto.
Qed.

Lemma NoDup_app_disjoint {A : Type} (l1 l2 : list A) (x : A) :
  NoDup (l1 ++ l2) -> In x l1 -> In x l2 -> False.
Proof.
  induction l1 as [|y l1 IH]; cbn; [tauto|].
  intros Hnd [->|Hin] Hin2; inversion Hnd as [|? ? Hnotin Hnd']; subst.
  - apply Hnotin. apply in_or_app. now right.
  - now apply IH.
Qed.

Lemma skipn_plus {A : Type} (n m : nat) (l : list A) :
  skipn (n + m) l = skipn m (skipn n l).
Proof. now rewrite skipn_skipn, Nat.add_comm. Qed.

Lemma in_firstn {A : Type} (n : nat) (l : list A) (x : A) :
  In x (firstn n l) -> In x l.
Proof.
  intros H. rewrite <- (firstn_skipn n l). apply in_or_app. now left.
Qed.

Lemma in_skipn {A : Type} (n : nat) (l : list A) (x : A) :
  In x (skipn n l) -> In x l.
Proof.
  intros H. rewrite <- (firstn_skipn n l). apply in_or_app. now right.
Qed.

Lemma firstn_nonempty {A : Type} (n off : nat) (l : list A) :
  (0 < n)%nat -> (off < List.length l)%nat -> firstn n (skipn off l) <> [].
Proof.
  intros Hn Hoff Hnil.
  assert (Hlen : List.length (firstn n (skipn off l)) = 0%nat)
    by now rewrite Hnil.
  rewrite length_firstn, length_skipn in Hlen. lia.
Qed.

Lemma firstn_empty_all {A : Type} (n off : nat) (l : list A) :
  (0 < n)%nat -> firstn n (skipn off l) = [] -> firstn off l = l.
Proof.
  intros Hn Hnil. apply firstn_all2.
  destruct (Nat.le_gt_cases (List.length l) off) as [Hle|Hgt]; [exact Hle|].
  exfalso. now apply (firstn_nonempty n off l Hn Hgt).
Qed.

Lemma pages_concat {A : Type} (l : list A) (b n : nat) :
  List.concat (map (fun j => firstn b (skipn (j * b) l)) (seq 0 n))
  = firstn (n * b) l.
Proof.
  induction n as [|n IH]; [reflexivity|].
  rewrite seq_S, map_app, concat_app, IH. cbn [map List.concat Nat.add].
  rewrite app_nil_r, <- firstn_plus. f_equal. cbn. lia.
Qed.

Lemma StronglySorted_across {A : Type} (R : A -> A -> Prop)
  (l1 l2 : list A) (x y : A) :
  StronglySorted R (l1 ++ l2) -> In x l1 -> In y l2 -> R x y.
Proof.
  induction l1 as [|z l1 IH]; cbn; [tauto|].
  intros Hs [->|Hx] Hy; inversion Hs as [|? ? Hs' Hall]; subst.
  - rewrite Forall_forall in Hall. apply Hall, in_or_app. now right.
  - now apply IH.
Qed.

Lemma StronglySorted_skipn {A : Type} (R : A -> A -> Prop) (l : list A)
  (m : nat) :
  StronglySorted R l -> StronglySorted R (skipn m l).
Proof.
  revert l. induction m as [|m IH]; intros [|x l] Hs; cbn;
    try assumption. apply IH. now inversion Hs.
Qed.

Lemma StronglySorted_segment {A : Type} (R : A -> A -> Prop)
  (l : list A) (n m : nat) :
  StronglySorted R l -> StronglySorted R (firstn n (skipn m l)).
Proof.
  intros Hs. apply (StronglySorted_skipn R l m) in Hs.
  revert Hs. generalize (skipn m l). clear. intros l.
  revert l. induction n as [|n IH]; intros [|x l] Hs; cbn; try constructor.
  - apply IH. now inversion Hs.
  - inversion Hs as [|? ? _ Hall]; subst. rewrite Forall_forall in *.
    intros y Hy. apply Hall. eapply in_firstn; eauto.
Qed.

Lemma NoDup_map_same {A B : Type} (f : A -> B) (l : list A) (x y : A) :
  NoDup (map f l) -> In x l -> In y l -> f x = f y -> x = y.
Proof.
  induction l as [|z l IH]; cbn; [tauto|].
  intros Hnd Hx Hy Heq. inversion Hnd as [|? ? Hnotin Hnd']; subst.
  destruct Hx as [->|Hx], Hy as [->|Hy]; try reflexivity.
  - exfalso. apply Hnotin. rewrite Heq. now apply in_map.
  - exfalso. apply Hnotin. rewrite <- Heq. now apply in_map.
  - now apply IH.
Qed.

Lemma NoDup_map_skipn {A B : Type} (f : A -> B) (l : list A) (n : nat) :
  NoDup (map f l) -> NoDup (map f (skipn n l)).
Proof.
  intros Hnd. rewrite <- (firstn_skipn n l), map_app in Hnd.
  now apply NoDup_app_remove_l in Hnd.
Qed.

Lemma NoDup_map_firstn {A B : Type} (f : A -> B) (l : list A) (n : nat) :
  NoDup (map f l) -> NoDup (map f (firstn n l)).
Proof.
  intros Hnd. rewrite <- (firstn_skipn n l), map_app in Hnd.
  now apply NoDup_app_remove_r in Hnd.
Qed.

Lemma disjoint_segments {A B : Type} (f : A -> B) (l : list A) (n : nat)
  (k : B) :
  NoDup (map f l) ->
  In k (map f (firstn n l)) -> In k (map f (skipn n l)) -> False.
Proof.
  intros Hnd. rewrite <- (firstn_skipn n l), map_app in Hnd.
  now apply NoDup_app_disjoint.
Qed.

(** *** A timestamp through a [Date] *)

Lemma jsDate_le (micros : Z) : timestamptz (jsDate micros) <= micros.
Proof.
  unfold timestamptz, jsDate.
  pose proof (Z.mul_div_le micros 1000 ltac:(lia)). lia.
Qed.

Lemma jsDate_timestamptz (ms : Z) : jsDate (timestamptz ms) = ms.
Proof. unfold timestamptz, jsDate. apply Z.div_mul. lia. Qed.

Lemma jsDate_in_window (s e micros : Z) :
  timestamptz s <= micros <= timestamptz e ->
  timestamptz s <= timestamptz (jsDate micros) <= timestamptz e.
Proof.
  unfold timestamptz, jsDate. intros [Hs He].
  assert (s <= micros / 1000) by (apply Z.div_le_lower_bound; lia).
  assert (micros / 1000 <= e) by (apply Z.div_le_upper_bound; lia).
  lia.
Qed.

Lemma sentKey_whole (r : LLMEventRow) :
  wholeMillisecond r -> sentKey r = keyOf r.
Proof. unfold wholeMillisecond, sentKey, keyOf. now intros ->. Qed.

Lemma sentKeys_whole (rows : list LLMEventRow) :
  Forall wholeMillisecond rows -> map sentKey rows = map keyOf rows.
Proof.
  induction 1 as [|r rows Hr _ IH]; cbn; [reflexivity|].
  now rewrite IH, sentKey_whole.
Qed.

Lemma whole_by_timestamps (l l' : list LLMEventRow) :
  map timestamp l = map timestamp l' ->
  Forall wholeMillisecond l' -> Forall wholeMillisecond l.
Proof.
  revert l'. induction l as [|r l IH]; intros [|r' l'] Heq Hall;
    try discriminate; constructor; injection Heq as Ht Hrest;
    inversion Hall as [|? ? Hr' Hall']; subst.
  - unfold wholeMillisecond in *. now rewrite Ht.
  - now apply (IH l').
Qed.

Lemma keys_NoDup_of_timestamps (l : list LLMEventRow) :
  NoDup (map timestamp l) -> NoDup (map keyOf l).
Proof.
  intros Hnd. apply (NoDup_map_inv (fun k : Z * string * Z => fst (fst k))).
  now rewrite map_map.
Qed.

(** *** [ORDER BY "timestamp"] *)

Lemma fetchedBefore_le (rank : LLMEventRow -> Z) (x y : LLMEventRow) :
  fetchedBefore rank x y = true -> timestamp x <= timestamp y.
Proof.
  unfold fetchedBefore. rewrite orb_true_iff, andb_true_iff.
  rewrite Z.ltb_lt, Z.eqb_eq. lia.
Qed.

Lemma fetchedBefore_ge (rank : LLMEventRow -> Z) (x y : LLMEventRow) :
  fetchedBefore rank x y = false -> timestamp y <= timestamp x.
Proof.
  unfold fetchedBefore. rewrite orb_false_iff. intros [Hlt _].
  apply Z.ltb_ge in Hlt. exact Hlt.
Qed.

Lemma fetchedBefore_distinct (rank : LLMEventRow -> Z) (x y : LLMEventRow) :
  timestamp x <> timestamp y ->
  fetchedBefore rank x y = (timestamp x <? timestamp y).
Proof.
  intros Hne. unfold fetchedBefore.
  destruct (Z.eqb_spec (timestamp x) (timestamp y)); [contradiction|].
  now rewrite andb_false_l, orb_false_r.
Qed.

Lemma insertByTimestamp_perm (rank : LLMEventRow -> Z) (x : LLMEventRow)
  (l : list LLMEventRow) :
  Permutation (insertByTimestamp rank x l) (x :: l).
Proof.
  induction l as [|y l IH]; cbn; [reflexivity|].
  destruct (fetchedBefore rank x y); [reflexivity|].
  rewrite IH. apply perm_swap.
Qed.

Lemma orderByTimestamp_perm (rank : LLMEventRow -> Z)
  (l : list LLMEventRow) :
  Permutation (orderByTimestamp rank l) l.
Proof.
  induction l as [|x l IH]; cbn; [reflexivity|].
  rewrite insertByTimestamp_perm. now constructor.
Qed.

Lemma insertByTimestamp_sorted (rank : LLMEventRow -> Z) (x : LLMEventRow)
  (l : list LLMEventRow) :
  Sorted byTimestamp l -> Sorted byTimestamp (insertByTimestamp rank x l).
Proof.
  induction l as [|y l IH]; cbn; intros Hs.
  - repeat constructor.
  - destruct (fetchedBefore rank x y) eqn:Exy.
    + constructor; [exact Hs|]. constructor.
      now apply fetchedBefore_le in Exy.
    + apply fetchedBefore_ge in Exy.
      inversion Hs as [|? ? Hs' Hhd]; subst.
      constructor; [now apply IH|].
      destruct l as [|z l]; cbn.
      * constructor. exact Exy.
      * destruct (fetchedBefore rank x z); constructor; [exact Exy|].
        now inversion Hhd.
Qed.

Lemma orderByTimestamp_sorted (rank : LLMEventRow -> Z)
  (l : list LLMEventRow) :
  Sorted byTimestamp (orderByTimestamp rank l).
Proof.
  induction l as [|x l IH]; cbn; [constructor|].
  now apply insertByTimestamp_sorted.
Qed.

Lemma orderByTimestamp_strongly_sorted (rank : LLMEventRow -> Z)
  (l : list LLMEventRow) :
  StronglySorted byTimestamp (orderByTimestamp rank l).
Proof.
  apply Sorted_StronglySorted; [|apply orderByTimestamp_sorted].
  intros a b c. unfold byTimestamp. lia.
Qed.

(** Where no two rows share a timestamp the tie order has no say, and the
    order survives a rewriting of the other columns. *)
Lemma insertByTimestamp_map (rank rank' : LLMEventRow -> Z)
  (f : LLMEventRow -> LLMEventRow) (x : LLMEventRow)
  (l : list LLMEventRow) :
  (forall r, timestamp (f r) = timestamp r) ->
  ~ In (timestamp x) (map timestamp l) ->
  insertByTimestamp rank (f x) (map f l)
  = map f (insertByTimestamp rank' x l).
Proof.
  intros Hf. induction l as [|y l IH]; cbn [map insertByTimestamp In];
    intros Hnotin; [reflexivity|].
  assert (Hne : timestamp x <> timestamp y) by (intros Heq; auto).
  rewrite (fetchedBefore_distinct rank (f x) (f y)) by now rewrite !Hf.
  rewrite (fetchedBefore_distinct rank' x y Hne), !Hf.
  destruct (timestamp x <? timestamp y); cbn [map]; [reflexivity|].
  rewrite IH; [reflexivity|]. intros Hin. apply Hnotin. now right.
Qed.

Lemma orderByTimestamp_map (rank rank' : LLMEventRow -> Z)
  (f : LLMEventRow -> LLMEventRow) (l : list LLMEventRow) :
  (forall r, timestamp (f r) = timestamp r) ->
  NoDup (map timestamp l) ->
  orderByTimestamp rank (map f l) = map f (orderByTimestamp rank' l).
Proof.
  intros Hf. induction l as [|x l IH]; cbn [map orderByTimestamp];
    intros Hnd; [reflexivity|].
  inversion Hnd as [|? ? Hnotin Hnd']; subst.
  rewrite (IH Hnd'). apply insertByTimestamp_map; [exact Hf|].
  intros Hin. apply Hnotin.
  apply (Permutation_in _
           (Permutation_map timestamp (orderByTimestamp_perm rank' l))).
  exact Hin.
Qed.

Lemma orderByTimestamp_any_rank (rank rank' : LLMEventRow -> Z)
  (l : list LLMEventRow) :
  NoDup (map timestamp l) ->
  orderByTimestamp rank l = orderByTimestamp rank' l.
Proof.
  intros Hnd.
  pose proof (orderByTimestamp_map rank rank' (fun r => r) l
                (fun r => eq_refl) Hnd) as H.
  now rewrite !map_id in H.
Qed.

Lemma selected_perm (rank : LLMEventRow -> Z) (tbl : Table) (s e : Z)
  (team : string) :
  Permutation (selected rank tbl s e team) (inRange tbl s e team).
Proof. apply orderByTimestamp_perm. Qed.

Lemma selected_length (rank : LLMEventRow -> Z) (tbl : Table) (s e : Z)
  (team : string) :
  List.length (selected rank tbl s e team)
  = List.length (inRange tbl s e team).
Proof. apply Permutation_length, selected_perm. Qed.

Lemma selected_In (rank : LLMEventRow -> Z) (tbl : Table) (s e : Z)
  (team : string) (r : LLMEventRow) :
  In r (selected rank tbl s e team) ->
  In r tbl /\ selectWhere s e team r = true.
Proof.
  intros Hin. apply (Permutation_in _ (selected_perm rank tbl s e team)) in Hin.
  now apply filter_In in Hin.
Qed.

Lemma selected_any_rank (rank rank' : LLMEventRow -> Z) (tbl : Table)
  (s e : Z) (team : string) :
  NoDup (map timestamp (inRange tbl s e team)) ->
  selected rank tbl s e team = selected rank' tbl s e team.
Proof. apply orderByTimestamp_any_rank. Qed.

Lemma selected_timestamps_NoDup (rank : LLMEventRow -> Z) (tbl : Table)
  (s e : Z) (team : string) :
  NoDup (map timestamp (inRange tbl s e team)) ->
  NoDup (map timestamp (selected rank tbl s e team)).
Proof.
  intros Hnd. eapply Permutation_NoDup; [|exact Hnd].
  apply Permutation_map, Permutation_sym, selected_perm.
Qed.

Lemma selected_whole (rank : LLMEventRow -> Z) (tbl : Table) (s e : Z)
  (team : string) :
  Forall wholeMillisecond (inRange tbl s e team) ->
  Forall wholeMillisecond (selected rank tbl s e team).
Proof.
  intros Hall. rewrite Forall_forall in *. intros r Hr. apply Hall.
  apply (Permutation_in _ (selected_perm rank tbl s e team) Hr).
Qed.

(** *** [updateSql] only rewrites costs *)

Lemma updatedRow_cases (us : list Update) (r : LLMEventRow) :
  updatedRow us r = r \/ exists c, updatedRow us r = setCost r c.
Proof.
  unfold updatedRow. destruct (find _ us) as [u|]; [right; eauto | now left].
Qed.

Lemma updatedRow_timestamp (us : list Update) (r : LLMEventRow) :
  timestamp (updatedRow us r) = timestamp r.
Proof. destruct (updatedRow_cases us r) as [->|[c ->]]; reflexivity. Qed.

Lemma updatedRow_keyOf (us : list Update) (r : LLMEventRow) :
  keyOf (updatedRow us r) = keyOf r.
Proof. destruct (updatedRow_cases us r) as [->|[c ->]]; reflexivity. Qed.

Lemma updatedRow_costInputOf (us : list Update) (r : LLMEventRow) :
  costInputOf (updatedRow us r) = costInputOf r.
Proof. destruct (updatedRow_cases us r) as [->|[c ->]]; reflexivity. Qed.

Lemma updatedRow_selectWhere (us : list Update) (s e : Z) (team : string)
  (r : LLMEventRow) :
  selectWhere s e team (updatedRow us r) = selectWhere s e team r.
Proof. destruct (updatedRow_cases us r) as [->|[c ->]]; reflexivity. Qed.

Lemma inRange_updateSql (us : list Update) (tbl : Table) (s e : Z)
  (team : string) :
  inRange (updateSql us tbl) s e team
  = map (updatedRow us) (inRange tbl s e team).
Proof.
  unfold inRange, updateSql.
  apply filter_map_same, updatedRow_selectWhere.
Qed.

Lemma inRange_updateSql_timestamps (us : list Update) (tbl : Table)
  (s e : Z) (team : string) :
  map timestamp (inRange (updateSql us tbl) s e team)
  = map timestamp (inRange tbl s e team).
Proof.
  rewrite inRange_updateSql, map_map.
  apply map_ext, updatedRow_timestamp.
Qed.

Lemma selected_updateSql (rank rank' : LLMEventRow -> Z) (us : list Update)
  (tbl : Table) (s e : Z) (team : string) :
  NoDup (map timestamp (inRange tbl s e team)) ->
  selected rank (updateSql us tbl) s e team
  = map (updatedRow us) (selected rank' tbl s e team).
Proof.
  intros Hnd. unfold selected. rewrite inRange_updateSql.
  apply orderByTimestamp_map; [apply updatedRow_timestamp | exact Hnd].
Qed.

Lemma updateMatches_key (u : Update) (r : LLMEventRow) :
  updateMatches u r = true <-> updateKey u = keyOf r.
Proof.
  unfold updateMatches, updateKey, keyOf.
  rewrite !andb_true_iff, Z.eqb_eq, Z.eqb_eq, String.eqb_eq.
  split.
  - intros [[H1 H2] H3]. now rewrite H1, H2, H3.
  - intros [= H1 H2 H3]. repeat split; congruence.
Qed.

Lemma updatedRow_untouched (us : list Update) (r : LLMEventRow) :
  ~ In (keyOf r) (map updateKey us) -> updatedRow us r = r.
Proof.
  intros Hnotin. unfold updatedRow.
  destruct (find _ us) as [u|] eqn:Hfind; [|reflexivity].
  apply find_some in Hfind. destruct Hfind as [Hin Hm].
  apply updateMatches_key in Hm. exfalso. apply Hnotin.
  rewrite <- Hm. now apply in_map.
Qed.

Lemma updateSql_nil (tbl : Table) : updateSql [] tbl = tbl.
Proof. unfold updateSql. now rewrite map_id. Qed.

Section Pricing.

Variable price : CostInput -> outcome Q.

(** *** The row loop *)

Lemma processRows_fold (rows : list LLMEventRow) (us : list Update)
  (n : nat) (errs : list RunError) :
  fold_left (processRow price) rows (us, n, errs)
  = (us ++ flat_map (queuedFor price) rows,
     n + List.length (filter (priced price) rows),
     errs ++ flat_map (rowErrorsFor price) rows)%nat.
Proof.
  revert us n errs. induction rows as [|r rows IH]; intros us n errs.
  - cbn. now rewrite !app_nil_r, Nat.add_0_r.
  - cbn [fold_left flat_map filter]. unfold processRow at 2.
    unfold queuedFor at 1, priced at 1, rowErrorsFor at 1.
    destruct (price (costInputOf r)) as [c|m]; rewrite IH.
    + destruct (costChanged c (Js.numOrZero (cost_total r)));
        cbn [List.length app]; rewrite <- ?app_assoc, ?app_nil_r;
        cbn [app Nat.add]; now rewrite Nat.add_succ_r.
    + cbn [app]. now rewrite <- app_assoc.
Qed.

Lemma processRows_spec (rows : list LLMEventRow) (n : nat)
  (errs : list RunError) :
  processRows price rows n errs
  = (flat_map (queuedFor price) rows,
     n + List.length (filter (priced price) rows),
     errs ++ flat_map (rowErrorsFor price) rows)%nat.
Proof. unfold processRows. now rewrite processRows_fold. Qed.

Lemma costChanged_iff (newCost oldCost : Q) :
  costChanged newCost oldCost = true
  <-> (epsilon < Qabs (newCost - oldCost))%Q.
Proof.
  unfold costChanged. rewrite negb_true_iff. split.
  - intros H. apply Qnot_le_lt. intros Hle.
    apply Qle_bool_iff in Hle. congruence.
  - intros H. destruct (Qle_bool _ epsilon) eqn:E; [|reflexivity].
    apply Qle_bool_iff in E. exfalso. eapply Qlt_not_le; eauto.
Qed.

Lemma costChanged_same (c : Q) : costChanged c c = false.
Proof.
  destruct (costChanged c c) eqn:E; [|reflexivity].
  apply costChanged_iff in E. exfalso.
  assert (H0 : (Qabs (c - c) == 0)%Q).
  { setoid_replace (c - c)%Q with 0%Q by ring. reflexivity. }
  rewrite H0 in E. discriminate.
Qed.

Lemma queuedFor_price (r : LLMEventRow) (u : Update) :
  In u (queuedFor price r) ->
  updateKey u = sentKey r /\ price (costInputOf r) = Returns (new_cost u).
Proof.
  unfold queuedFor. destruct (price (costInputOf r)) as [c|m]; [|intros []].
  destruct (costChanged c _); [|intros []].
  intros [<-|[]]. split; reflexivity.
Qed.

Lemma queuedFor_key (r : LLMEventRow) (u : Update) :
  In u (queuedFor price r) -> updateKey u = sentKey r.
Proof. intros H. now apply queuedFor_price in H. Qed.

Lemma queued_keys (rows : list LLMEventRow) (k : Z * string * Z) :
  In k (map updateKey (flat_map (queuedFor price) rows)) ->
  In k (map sentKey rows).
Proof.
  rewrite in_map_iff. intros (u & <- & Hin).
  apply in_flat_map in Hin. destruct Hin as (r & Hr & Hu).
  rewrite (queuedFor_key r u Hu). now apply in_map.
Qed.

Lemma rowErrors_are_no_warning (rows : list LLMEventRow) :
  Forall (fun err => err <> timeoutWarning)
    (flat_map (rowErrorsFor price) rows).
Proof.
  apply Forall_forall. intros err Hin.
  apply in_flat_map in Hin. destruct Hin as (r & _ & Hr).
  unfold rowErrorsFor in Hr.
  destruct (price (costInputOf r)); [destruct Hr|].
  destruct Hr as [<-|[]]. discriminate.
Qed.

(** A row updated to its recomputed cost is settled. *)
Lemma settled_after_setCost (r : LLMEventRow) (c : Q) :
  price (costInputOf r) = Returns c -> settled price (setCost r c).
Proof.
  intros Hp. unfold settled, queuedFor.
  change (costInputOf (setCost r c)) with (costInputOf r). rewrite Hp.
  cbn [setCost cost_total Js.numOrZero]. now rewrite costChanged_same.
Qed.

(** An update queued by a row of an earlier timestamp misses every row of a
    later one: the key it carries is not later than the row it came from. *)
Lemma later_rows_untouched (l : list LLMEventRow) (n : nat)
  (r : LLMEventRow) :
  StronglySorted byTimestamp l -> NoDup (map timestamp l) ->
  In r (skipn n l) ->
  updatedRow (flat_map (queuedFor price) (firstn n l)) r = r.
Proof.
  intros Hs Hnd Hr. apply updatedRow_untouched. intros Hin.
  apply queued_keys, in_map_iff in Hin.
  destruct Hin as (r' & Hkey & Hr').
  injection Hkey as Hts _ _.
  pose proof (jsDate_le (timestamp r')) as Hle.
  rewrite <- (firstn_skipn n l) in Hs.
  pose proof (StronglySorted_across byTimestamp _ _ r' r Hs Hr' Hr) as Hord.
  unfold byTimestamp in Hord.
  apply (disjoint_segments timestamp l n (timestamp r) Hnd).
  - replace (timestamp r) with (timestamp r') by lia. now apply in_map.
  - now apply in_map.
Qed.

(** In a batch of whole milliseconds with unique keys a row meets its own
    update, if any. *)
Lemma find_own_update (rows : list LLMEventRow) (r : LLMEventRow) :
  Forall wholeMillisecond rows ->
  NoDup (map keyOf rows) -> In r rows ->
  find (fun u => updateMatches u r) (flat_map (queuedFor price) rows)
  = hd_error (queuedFor price r).
Proof.
  induction rows as [|r' rows IH]; [intros _ _ []|].
  intros Hwhole Hnd Hin.
  inversion Hnd as [|? ? Hnotin Hnd']; subst.
  inversion Hwhole as [|? ? Hr' Hwhole']; subst.
  cbn [flat_map]. rewrite find_app.
  destruct Hin as [->|Hin].
  - assert (Hrest : find (fun u => updateMatches u r)
                      (flat_map (queuedFor price) rows) = None).
    { destruct (find _ (flat_map _ rows)) as [u|] eqn:Hf; [|reflexivity].
      apply find_some in Hf. destruct Hf as [Hu Hm].
      apply updateMatches_key in Hm. exfalso. apply Hnotin.
      rewrite <- Hm, <- (sentKeys_whole rows Hwhole').
      apply queued_keys. now apply in_map. }
    rewrite Hrest. unfold queuedFor.
    destruct (price (costInputOf r)) as [c|m]; [|reflexivity].
    destruct (costChanged c _); [|reflexivity].
    cbn [find hd_error].
    assert (Hm : updateMatches
                   (mkUpdate (jsDate (timestamp r)) (trace_id r)
                      (call_sequence r) c) r = true).
    { apply updateMatches_key. apply (sentKey_whole r Hr'). }
    now rewrite Hm.
  - assert (Hhead : find (fun u => updateMatches u r) (queuedFor price r')
                    = None).
    { destruct (find _ (queuedFor price r')) as [u|] eqn:Hf; [|reflexivity].
      apply find_some in Hf. destruct Hf as [Hu Hm].
      apply updateMatches_key in Hm. apply queuedFor_key in Hu.
      exfalso. apply Hnotin.
      rewrite <- (sentKey_whole r' Hr'), <- Hu, Hm. now apply in_map. }
    rewrite Hhead. now apply IH.
Qed.

Lemma updated_own_row_settled (rows : list LLMEventRow) (r : LLMEventRow) :
  Forall wholeMillisecond rows ->
  NoDup (map keyOf rows) -> In r rows ->
  settled price (updatedRow (flat_map (queuedFor price) rows) r).
Proof.
  intros Hwhole Hnd Hin. unfold updatedRow.
  rewrite (find_own_update rows r Hwhole Hnd Hin).
  unfold queuedFor at 1.
  destruct (price (costInputOf r)) as [c|m] eqn:Hp.
  - destruct (costChanged c _) eqn:Hc; cbn [hd_error new_cost].
    + now apply settled_after_setCost.
    + unfold settled, queuedFor. now rewrite Hp, Hc.
  - cbn. unfold settled, queuedFor. now rewrite Hp.
Qed.

(** *** The batch loop *)

Section Loop.

Variable env : Env.
Variables (s e : Z) (team : string) (b : nat).

Lemma batchStep_spec (rows : list LLMEventRow) (tbl : Table) (res : Results) :
  batchStep price env rows tbl res =
  let us := flat_map (queuedFor price) rows in
  let n := (processed res + List.length (filter (priced price) rows))%nat in
  let errs := errors res ++ flat_map (rowErrorsFor price) rows in
  match us with
  | [] => (tbl, mkResults (updated res) n errs (S (batches res)))
  | _ :: _ =>
      match updateThrows env (S (batches res)) with
      | None => (updateSql us tbl,
                 mkResults (updated res + List.length us) n errs
                           (S (batches res)))
      | Some m => (tbl,
                   mkResults (updated res) n
                             (errs ++ [BatchError (S (batches res)) m])
                             (S (batches res)))
      end
  end.
Proof. unfold batchStep. now rewrite processRows_spec. Qed.

Lemma batchStep_counts (rows : list LLMEventRow) (tbl : Table)
  (res : Results) :
  batches (snd (batchStep price env rows tbl res)) = S (batches res)
  /\ processed (snd (batchStep price env rows tbl res))
     = (processed res + List.length (filter (priced price) rows))%nat.
Proof.
  rewrite batchStep_spec. cbv zeta.
  destruct (flat_map _ rows); [now split|].
  destruct (updateThrows env _); now split.
Qed.

Lemma batchStep_errors (rows : list LLMEventRow) (tbl : Table)
  (res : Results) :
  exists more,
    errors (snd (batchStep price env rows tbl res)) = errors res ++ more
    /\ Forall (fun err => err <> timeoutWarning) more.
Proof.
  rewrite batchStep_spec. cbv zeta.
  pose proof (rowErrors_are_no_warning rows) as Hrows.
  destruct (flat_map (queuedFor price) rows); [cbn [snd errors]; eauto|].
  destruct (updateThrows env _) as [m|]; cbn [snd errors]; [|eauto].
  exists (flat_map (rowErrorsFor price) rows ++ [BatchError (S (batches res)) m]).
  split; [now rewrite app_assoc|].
  apply Forall_app. split; [exact Hrows|].
  constructor; [discriminate | constructor].
Qed.

Lemma batchStep_table (rows : list LLMEventRow) (tbl : Table) (res : Results) :
  fst (batchStep price env rows tbl res) = tbl
  \/ fst (batchStep price env rows tbl res)
     = updateSql (flat_map (queuedFor price) rows) tbl.
Proof.
  rewrite batchStep_spec. cbv zeta.
  destruct (flat_map _ rows); [now left|].
  destruct (updateThrows env _); auto.
Qed.

Lemma batchStep_table_written (rows : list LLMEventRow) (tbl : Table)
  (res : Results) :
  updateThrows env (S (batches res)) = None ->
  fst (batchStep price env rows tbl res)
  = updateSql (flat_map (queuedFor price) rows) tbl.
Proof.
  intros Hw. rewrite batchStep_spec. cbv zeta.
  destruct (flat_map _ rows) eqn:Hq; [now rewrite updateSql_nil|].
  now rewrite Hw.
Qed.

Lemma batchStep_settled (rows : list LLMEventRow) (tbl : Table)
  (res : Results) :
  Forall (settled price) rows ->
  batchStep price env rows tbl res
  = (tbl, mkResults (updated res)
            (processed res + List.length (filter (priced price) rows))
            (errors res ++ flat_map (rowErrorsFor price) rows)
            (S (batches res))).
Proof.
  intros Hall. rewrite batchStep_spec. cbv zeta.
  assert (Hq : flat_map (queuedFor price) rows = []).
  { induction Hall as [|r rows Hr _ IH]; cbn; [reflexivity|].
    unfold settled in Hr. now rewrite Hr, IH. }
  now rewrite Hq.
Qed.

Lemma batchStep_timestamps (rows : list LLMEventRow) (tbl : Table)
  (res : Results) :
  map timestamp (inRange (fst (batchStep price env rows tbl res)) s e team)
  = map timestamp (inRange tbl s e team).
Proof.
  destruct (batchStep_table rows tbl res) as [-> | ->]; [reflexivity|].
  apply inRange_updateSql_timestamps.
Qed.

Lemma loop_unfold (fuel : nat) (tbl : Table) (off : nat) (res : Results) :
  loop price env s e team b (S fuel) tbl off res =
  match selectThrows env (S (batches res)) with
  | Some m => Some (tbl, Throws m)
  | None =>
      match fetch env s e team b (batches res) tbl off with
      | [] => Some (tbl, Returns res)
      | _ :: _ =>
          let st := batchStep price env
                      (fetch env s e team b (batches res) tbl off) tbl res in
          if deadlinePassed env (batches (snd st))
          then Some (fst st,
                     Returns
                       (mkResults (updated (snd st)) (processed (snd st))
                                  (errors (snd st) ++ [timeoutWarning])
                                  (batches (snd st))))
          else loop price env s e team b fuel (fst st) (off + b) (snd st)
      end
  end.
Proof.
  cbn [loop]. destruct (selectThrows env _); [reflexivity|].
  destruct (fetch env s e team b (batches res) tbl off); [reflexivity|].
  now destruct (batchStep _ _ _ _ _).
Qed.

Lemma fetch_length (n : nat) (tbl : Table) (off : nat) :
  List.length (fetch env s e team b n tbl off)
  = Nat.min b (List.length (inRange tbl s e team) - off).
Proof.
  unfold fetch, selectSql.
  now rewrite length_firstn, length_skipn, selected_length.
Qed.

Lemma fetch_In (n : nat) (tbl : Table) (off : nat) (r : LLMEventRow) :
  In r (fetch env s e team b n tbl off) ->
  In r tbl /\ selectWhere s e team r = true.
Proof.
  unfold fetch, selectSql. intros Hin.
  apply in_firstn, in_skipn in Hin. now apply selected_In in Hin.
Qed.

Lemma inRange_length_step (rows : list LLMEventRow) (tbl : Table)
  (res : Results) :
  List.length (inRange (fst (batchStep price env rows tbl res)) s e team)
  = List.length (inRange tbl s e team).
Proof.
  rewrite <- (length_map timestamp), batchStep_timestamps.
  apply length_map.
Qed.

(** The loop returns once the fuel covers the rows of the range. *)
Lemma loop_terminates (fuel : nat) (tbl : Table) (off : nat) (res : Results) :
  (0 < b)%nat ->
  (List.length (inRange tbl s e team) <= off + fuel * b)%nat ->
  exists st, loop price env s e team b (S fuel) tbl off res = Some st.
Proof.
  intros Hb. revert tbl off res.
  induction fuel as [|fuel IH]; intros tbl off res Hlen;
    rewrite loop_unfold; (destruct (selectThrows env _); [eauto|]);
    pose proof (fetch_length (batches res) tbl off) as Hpage;
    destruct (fetch env s e team b (batches res) tbl off) eqn:Hrows;
    try (now eauto).
  - cbn [List.length] in Hpage. lia.
  - rewrite <- Hrows. cbv zeta.
    destruct (deadlinePassed env _); [eauto|].
    apply IH. rewrite inRange_length_step. lia.
Qed.

(** On a table whose rows are settled the loop writes nothing. *)
Lemma loop_idle (fuel : nat) (tbl : Table) :
  Forall (settled price) (inRange tbl s e team) ->
  forall off res tbl1 out,
    loop price env s e team b fuel tbl off res = Some (tbl1, out) ->
    tbl1 = tbl
    /\ forall res1, out = Returns res1 -> updated res1 = updated res.
Proof.
  intros Hall.
  induction fuel as [|fuel IH]; intros off res tbl1 out; [discriminate|].
  rewrite loop_unfold.
  destruct (selectThrows env _); [intros [= <- <-]; now split|].
  destruct (fetch env s e team b (batches res) tbl off) eqn:Hrows.
  - intros [= <- <-]. split; [reflexivity|]. now intros res1 [= <-].
  - rewrite <- Hrows. cbv zeta.
    rewrite batchStep_settled.
    + cbn [fst snd batches updated processed errors].
      destruct (deadlinePassed env _).
      * intros [= <- <-]. split; [reflexivity|]. now intros res1 [= <-].
      * intros Hloop. apply IH in Hloop. exact Hloop.
    + apply Forall_forall. intros r Hr. rewrite Forall_forall in Hall.
      apply Hall. apply fetch_In in Hr. now apply filter_In.
Qed.

Lemma loop_timestamps (fuel : nat) :
  forall tbl off res tbl1 out,
    loop price env s e team b fuel tbl off res = Some (tbl1, out) ->
    map timestamp (inRange tbl1 s e team)
    = map timestamp (inRange tbl s e team).
Proof.
  induction fuel as [|fuel IH]; intros tbl off res tbl1 out; [discriminate|].
  rewrite loop_unfold.
  destruct (selectThrows env _); [now intros [= <- _]|].
  destruct (fetch env s e team b (batches res) tbl off) eqn:Hrows;
    [now intros [= <- _]|].
  rewrite <- Hrows. cbv zeta.
  destruct (deadlinePassed env _).
  - intros [= <- _]. apply batchStep_timestamps.
  - intros Hloop. apply IH in Hloop. rewrite Hloop.
    apply batchStep_timestamps.
Qed.

(** With every fetch returning, the loop ends with its results. *)
Lemma loop_returns (fuel : nat) :
  (forall k, selectThrows env k = None) ->
  forall tbl off res tbl1 out,
    loop price env s e team b fuel tbl off res = Some (tbl1, out) ->
    exists res1, out = Returns res1.
Proof.
  intros Hfetch.
  induction fuel as [|fuel IH]; intros tbl off res tbl1 out; [discriminate|].
  rewrite loop_unfold, Hfetch.
  destruct (fetch env s e team b (batches res) tbl off) eqn:Hrows;
    [intros [= _ <-]; eauto|].
  rewrite <- Hrows. cbv zeta.
  destruct (deadlinePassed env _); [intros [= _ <-]; eauto|].
  apply IH.
Qed.

(** *** The run against the table it started from *)

Section Invariant.

Variable rank : LLMEventRow -> Z.
Variable tbl0 : Table.
Hypothesis positive_batch : (0 < b)%nat.
Hypothesis distinct_timestamps :
  NoDup (map timestamp (inRange tbl0 s e team)).

Lemma distinct_along_the_run (tbl : Table) :
  map timestamp (inRange tbl s e team)
  = map timestamp (inRange tbl0 s e team) ->
  NoDup (map timestamp (inRange tbl s e team)).
Proof. now intros ->. Qed.

Lemma fetch_of_selected (tbl : Table) (n off : nat) :
  map timestamp (inRange tbl s e team)
  = map timestamp (inRange tbl0 s e team) ->
  fetch env s e team b n tbl off = selectSql rank tbl s e team b off.
Proof.
  intros Hts. unfold fetch, selectSql.
  now rewrite (selected_any_rank (tieOrder env (S n)) rank tbl s e team
                 (distinct_along_the_run tbl Hts)).
Qed.

Lemma page_of_invariant (tbl : Table) (n off : nat) :
  runInvariant rank tbl0 tbl s e team off ->
  fetch env s e team b n tbl off = selectSql rank tbl0 s e team b off.
Proof.
  intros [Hts Hs]. rewrite (fetch_of_selected tbl n off Hts).
  unfold selectSql. now rewrite Hs.
Qed.

Lemma invariant_step (tbl : Table) (off : nat) (res : Results) :
  runInvariant rank tbl0 tbl s e team off ->
  runInvariant rank tbl0
    (fst (batchStep price env (selectSql rank tbl0 s e team b off) tbl res))
    s e team (off + b).
Proof.
  intros [Hts Hs]. split; [now rewrite batchStep_timestamps|].
  destruct (batchStep_table (selectSql rank tbl0 s e team b off) tbl res)
    as [-> | ->].
  - now rewrite !skipn_plus, Hs.
  - rewrite (selected_updateSql rank rank)
      by now apply distinct_along_the_run.
    rewrite skipn_map, skipn_plus, Hs.
    rewrite <- (map_id (skipn (off + b) (selected rank tbl0 s e team))).
    rewrite skipn_plus.
    apply map_ext_in. intros r Hr. unfold selectSql.
    apply later_rows_untouched; [| |exact Hr].
    + apply StronglySorted_skipn, orderByTimestamp_strongly_sorted.
    + apply NoDup_map_skipn.
      now apply selected_timestamps_NoDup.
Qed.

(** The run stops at the first batch boundary behind the deadline. *)
Lemma loop_until_deadline (k : nat) :
  forall fuel tbl off res,
    runInvariant rank tbl0 tbl s e team off ->
    (forall j, (j <= k)%nat ->
               selectThrows env (batches res + S j) = None) ->
    (forall j, (j < k)%nat ->
               deadlinePassed env (batches res + S j) = false) ->
    deadlinePassed env (batches res + S k) = true ->
    (off + k * b < List.length (inRange tbl0 s e team))%nat ->
    (k < fuel)%nat ->
    exists tbl1 res1 more,
      loop price env s e team b fuel tbl off res = Some (tbl1, Returns res1)
      /\ batches res1 = (batches res + S k)%nat
      /\ processed res1
         = (processed res
            + List.length
                (filter (priced price)
                   (firstn (S k * b)
                      (skipn off (selected rank tbl0 s e team)))))%nat
      /\ runInvariant rank tbl0 tbl1 s e team (off + S k * b)
      /\ errors res1 = errors res ++ more ++ [timeoutWarning]
      /\ Forall (fun err => err <> timeoutWarning) more.
Proof.
  induction k as [|k IH];
    intros fuel tbl off res Hinv Hfetch Hbefore Hat Hlen Hfuel;
    (destruct fuel as [|fuel]; [lia|]);
    rewrite loop_unfold;
    replace (S (batches res)) with (batches res + 1)%nat by lia;
    rewrite (Hfetch 0%nat) by lia;
    rewrite (page_of_invariant tbl (batches res) off Hinv);
    pose proof (invariant_step tbl off res Hinv) as Hinv';
    destruct (batchStep_counts (selectSql rank tbl0 s e team b off) tbl res)
      as [Hbatches Hprocessed];
    destruct (batchStep_errors (selectSql rank tbl0 s e team b off) tbl res)
      as (more0 & Herrors & Hmore0);
    (destruct (selectSql rank tbl0 s e team b off) eqn:Hrows;
     [exfalso; unfold selectSql in Hrows;
      apply (firstn_nonempty b off (selected rank tbl0 s e team));
      [lia | rewrite selected_length; lia | easy]
     |]);
    rewrite <- Hrows in *; cbv zeta; rewrite Hbatches;
    replace (S (batches res)) with (batches res + 1)%nat by lia.
  - rewrite Hat. do 2 eexists. exists more0. split; [reflexivity|].
    cbn [batches processed errors].
    split; [lia|]. split.
    + rewrite Hprocessed. unfold selectSql. cbn [Nat.mul].
      now rewrite Nat.add_0_r.
    + split; [cbn [Nat.mul]; now rewrite Nat.add_0_r|].
      split; [now rewrite Herrors, app_assoc | exact Hmore0].
  - rewrite (Hbefore 0%nat) by lia.
    destruct (IH fuel _ (off + b)%nat
                (snd (batchStep price env (selectSql rank tbl0 s e team b off)
                        tbl res)) Hinv')
      as (tbl1 & res1 & more & Hloop & Hb1 & Hp1 & Hinv1 & Herr & Hmore).
    + intros j Hj. rewrite Hbatches.
      replace (S (batches res) + S j)%nat with (batches res + S (S j))%nat
        by lia.
      apply Hfetch. lia.
    + intros j Hj. rewrite Hbatches.
      replace (S (batches res) + S j)%nat with (batches res + S (S j))%nat
        by lia.
      apply Hbefore. lia.
    + rewrite Hbatches.
      replace (S (batches res) + S k)%nat with (batches res + S (S k))%nat
        by lia.
      exact Hat.
    + cbn [Nat.mul] in Hlen. lia.
    + lia.
    + exists tbl1, res1, (more0 ++ more). split; [exact Hloop|].
      split; [rewrite Hb1, Hbatches; lia|]. split.
      * rewrite Hp1, Hprocessed. unfold selectSql.
        replace (S (S k) * b)%nat with (b + S k * b)%nat by (cbn; lia).
        rewrite (firstn_plus b), filter_app, length_app, <- skipn_plus. lia.
      * split.
        { replace (off + S (S k) * b)%nat with (off + b + S k * b)%nat
            by (cbn; lia).
          exact Hinv1. }
        split; [|now apply Forall_app].
        rewrite Herr, Herrors. now rewrite <- !app_assoc.
Qed.

(** **** A run to the end settles the range *)

Hypothesis whole_milliseconds :
  Forall wholeMillisecond (inRange tbl0 s e team).

Lemma settled_step (tbl : Table) (off : nat) (res : Results) :
  map timestamp (inRange tbl s e team)
  = map timestamp (inRange tbl0 s e team) ->
  Forall (settled price) (firstn off (selected rank tbl s e team)) ->
  updateThrows env (S (batches res)) = None ->
  Forall (settled price)
    (firstn (off + b)
       (selected rank
          (fst (batchStep price env (selectSql rank tbl s e team b off)
                  tbl res))
          s e team)).
Proof.
  intros Hts Hdone Hw.
  pose proof (distinct_along_the_run tbl Hts) as Hnd.
  pose proof (selected_timestamps_NoDup rank tbl s e team Hnd) as Hnds.
  pose proof (keys_NoDup_of_timestamps _ Hnds) as Hkeys.
  assert (Hwhole : Forall wholeMillisecond (selected rank tbl s e team)).
  { apply selected_whole.
    exact (whole_by_timestamps _ _ Hts whole_milliseconds). }
  assert (Hpage : Forall wholeMillisecond (selectSql rank tbl s e team b off)).
  { rewrite Forall_forall in *. intros r Hr. apply Hwhole.
    unfold selectSql in Hr. eapply in_skipn, in_firstn, Hr. }
  rewrite batchStep_table_written by exact Hw.
  rewrite (selected_updateSql rank rank) by exact Hnd.
  rewrite firstn_map, firstn_plus, map_app.
  fold (selectSql rank tbl s e team b off).
  apply Forall_app. split; apply Forall_forall; intros x Hx;
    apply in_map_iff in Hx; destruct Hx as (r & <- & Hr).
  - rewrite updatedRow_untouched.
    + rewrite Forall_forall in Hdone. now apply Hdone.
    + intros Hin. apply queued_keys in Hin.
      rewrite (sentKeys_whole _ Hpage) in Hin.
      apply (disjoint_segments keyOf (selected rank tbl s e team) off
               (keyOf r)); [exact Hkeys | now apply in_map |].
      unfold selectSql in Hin. apply in_map_iff in Hin.
      destruct Hin as (r' & Heq & Hin). rewrite <- Heq.
      apply in_map. eapply in_firstn; eauto.
  - apply updated_own_row_settled; [exact Hpage| |exact Hr].
    unfold selectSql. now apply NoDup_map_firstn, NoDup_map_skipn.
Qed.

(** A run that meets neither the deadline nor a failing query leaves every
    row of the range settled. *)
Lemma loop_settles (fuel : nat) :
  (forall k, deadlinePassed env k = false) ->
  (forall k, updateThrows env k = None) ->
  (forall k, selectThrows env k = None) ->
  forall tbl off res tbl1 out,
    map timestamp (inRange tbl s e team)
    = map timestamp (inRange tbl0 s e team) ->
    Forall (settled price) (firstn off (selected rank tbl s e team)) ->
    loop price env s e team b fuel tbl off res = Some (tbl1, out) ->
    Forall (settled price) (selected rank tbl1 s e team)
    /\ exists res1, out = Returns res1.
Proof.
  intros Hclock Hwrite Hfetch.
  induction fuel as [|fuel IH]; intros tbl off res tbl1 out Hts Hdone;
    [discriminate|].
  rewrite loop_unfold, Hfetch, (fetch_of_selected tbl (batches res) off Hts).
  destruct (selectSql rank tbl s e team b off) eqn:Hrows.
  - intros [= <- <-]. unfold selectSql in Hrows.
    rewrite <- (firstn_empty_all b off _ positive_batch Hrows).
    split; [exact Hdone | eauto].
  - rewrite <- Hrows. cbv zeta. rewrite Hclock.
    apply IH; [now rewrite batchStep_timestamps | now apply settled_step].
Qed.

End Invariant.

End Loop.

End Pricing.

End RecalcFacts.

Section Recalculation.
Import Json Recalc RecalcFacts Samples.

Lemma inRange_length_le (tbl : Table) (s e : Z) (team : string) :
  (List.length (inRange tbl s e team) <= List.length tbl)%nat.
Proof. apply filter_length_le. Qed.

Lemma runInvariant_start (rank : LLMEventRow -> Z) (tbl : Table) (s e : Z)
  (team : string) :
  runInvariant rank tbl tbl s e team 0.
Proof. now split. Qed.

Lemma first_ten_with_warning (errs : list RunError) :
  (List.length errs < 10)%nat ->
  firstn 10 (errs ++ [timeoutWarning]) = errs ++ [timeoutWarning].
Proof.
  intros Hlen. apply firstn_all2. rewrite length_app. cbn. lia.
Qed.

Lemma first_ten_without_warning (errs : list RunError) :
  (10 <= List.length errs)%nat ->
  firstn 10 (errs ++ [timeoutWarning]) = firstn 10 errs.
Proof.
  intros Hlen. rewrite firstn_app.
  replace (10 - List.length errs)%nat with 0%nat by lia.
  cbn [firstn]. apply app_nil_r.
Qed.






(** On the five stale events: a first run in batches of two updates all
    five rows, a second run updates none. *)
Example second_run_updates_nothing :
  match run perTokenPrice fastEnv 0 10 "team1" 2 6 fiveEvents with
  | Some (tbl1, resp1) =>
      jget "stats" (body resp1)
      = Some (JObj [("processed", JInt 5); ("updated", JInt 5);
                    ("batches", JInt 3); ("duration_ms", JInt 0)]%string)
      /\ match run perTokenPrice fastEnv 0 10 "team1" 2 6 tbl1 with
         | Some (tbl2, resp2) =>
             tbl2 = tbl1
             /\ jget "stats" (body resp2)
                = Some (JObj [("processed", JInt 5); ("updated", JInt 0);
                              ("batches", JInt 3);
                              ("duration_ms", JInt 0)]%string)
         | None => False
         end
  | None => False
  end.
Proof. vm_compute. repeat split. Qed.

(** A run cut short by the deadline after two batches of one leaves three
    rows stale; the next run updates exactly those. *)
Example rerun_after_timeout_updates_the_rest :
  match run perTokenPrice slowEnv 0 10 "team1" 1 10 fiveEvents with
  | Some (tbl1, resp1) =>
      jget "stats" (body resp1)
      = Some (JObj [("processed", JInt 2); ("updated", JInt 2);
                    ("batches", JInt 2);
                    ("duration_ms", JInt 600000)]%string)
      /\ match run perTokenPrice fastEnv 0 10 "team1" 1 10 tbl1 with
         | Some (_, resp2) =>
             jget "stats" (body resp2)
             = Some (JObj [("processed", JInt 5); ("updated", JInt 3);
                           ("batches", JInt 5);
                           ("duration_ms", JInt 0)]%string)
         | None => False
         end
  | None => False
  end.
Proof. vm_compute. repeat split. Qed.





End Recalculation.

Section WeightedAverageExample.
Import Merge Samples.

(** The example of the specification: one request at 10 ms merged with nine
    requests at 100 ms averages 91 ms over ten requests. *)
Lemma weighted_average_merge_witness :
  exists row,
    In row (mergeResults [gptRow 1 10%Q] [gptRow 9 100%Q] ["model"%string])
    /\ request_count row = 10
    /\ (avg_latency_ms row == 91)%Q.
Proof.
  destruct (weighted_average_merge ["model"%string] [gptRow 1 10%Q]
              [gptRow 9 100%Q] "gpt" (gptRow 1 10%Q) (gptRow 9 100%Q)
              eq_refl)
    as (row & Hin & _ & _ & Hcount & _ & _ & _ & _ & Havg & _).
  exists row. split; [exact Hin|]. split; [exact Hcount|].
  destruct (Havg eq_refl) as [Hmean _]. rewrite Hmean. reflexivity.
Defined.

End WeightedAverageExample.

(** ** Further properties *)

Section Further.
Import Json Merge MergeFacts Partition PartitionFacts Coverage Recalc
  RecalcFacts Samples.

(** On the hybrid path every event of the window is aggregated at least
    once, and more than once only at the first full midnight behind a head
    range. *)
Theorem window_events_counted_once_or_twice (s e t : Z) :
  hasFullBuckets s e = true -> s <= t < e ->
  (1 <= timesCounted s e t <= 2)%nat
  /\ (timesCounted s e t = 2%nat
      <-> t = fullBucketStart s /\ s < fullBucketStart s).
Proof.
  intros Hfull Ht. rewrite (timesCounted_hybrid s e t Hfull Ht).
  destruct (Z.eqb_spec t (fullBucketStart s)) as [Heq|Hne];
    destruct (Z.ltb_spec s (fullBucketStart s)) as [Hlt|Hge];
    cbn [andb]; (split; [lia|]); split; intros H; try lia;
    try discriminate; tauto.
Qed.

Lemma window_events_counted_once_or_twice_witness :
  (1 <= timesCounted noon1 morning3 (midnight2 + 1) <= 2)%nat.
Proof.
  apply (window_events_counted_once_or_twice noon1 morning3 (midnight2 + 1)).
  - reflexivity.
  - split; [vm_compute; discriminate | reflexivity].
Defined.

Lemma insertByCost_sorted (x : MergedRow) (l : list MergedRow) :
  Sorted (fun a b => (total_cost b <= total_cost a)%Q) l ->
  Sorted (fun a b => (total_cost b <= total_cost a)%Q) (insertByCost x l).
Proof.
  induction l as [|y l IH]; cbn; intros Hs.
  - repeat constructor.
  - destruct (Qle_bool (total_cost y) (total_cost x)) eqn:E.
    + constructor; [exact Hs|]. constructor. now apply Qle_bool_iff.
    + assert (Hxy : (total_cost x <= total_cost y)%Q).
      { apply Qlt_le_weak, Qnot_le_lt. intros Hle.
        apply Qle_bool_iff in Hle. congruence. }
      inversion Hs as [|? ? Hs' Hhd]; subst.
      constructor; [now apply IH|].
      destruct l as [|z l]; cbn; [now constructor|].
      destruct (Qle_bool (total_cost z) (total_cost x));
        constructor; [exact Hxy | now inversion Hhd].
Qed.

(** The merged rows come out in descending order of [total_cost]. *)
Theorem merged_rows_sorted_by_cost (ca base : list QueryRow)
  (kf : list string) :
  Sorted (fun a b => (total_cost b <= total_cost a)%Q)
         (mergeResults ca base kf).
Proof.
  unfold mergeResults.
  induction (map dropLatencySum (mapValues (mergedMap ca base kf)))
    as [|x l IH]; cbn; [constructor|].
  now apply insertByCost_sorted.
Qed.

(** The run returns as soon as the fuel exceeds the number of rows. *)
Theorem run_returns (price : CostInput -> outcome Q) (env : Env) (s e : Z)
  (team : string) (b : nat) (tbl : Table) (fuel : nat) :
  (List.length tbl < fuel)%nat ->
  exists st, run price env s e team b fuel tbl = Some st.
Proof.
  intros Hfuel. destruct fuel as [|fuel]; [lia|]. unfold run.
  destruct (Nat.eq_dec b 0) as [->|Hb0].
  - rewrite loop_unfold. unfold fetch, selectSql. cbn [firstn].
    destruct (selectThrows env _); eauto.
  - pose proof (inRange_length_le tbl s e team) as Hsel.
    destruct (loop_terminates price env s e team b fuel tbl 0%nat
                (mkResults 0 0 [] 0)) as [[tbl1 [res1|m]] ->];
      [lia | nia | eauto | eauto].
Qed.

Lemma run_returns_witness :
  exists st, run perTokenPrice fastEnv 0 10 "team1" 2 6 fiveEvents = Some st.
Proof.
  apply (run_returns perTokenPrice fastEnv 0 10 "team1" 2 fiveEvents 6).
  vm_compute. repeat constructor.
Defined.

(** A failed batch write is recorded under its batch number and the loop
    goes on to the next batch with the table and [updated] as they were. *)
Theorem failed_write_is_recorded (price : CostInput -> outcome Q) (env : Env)
  (s e : Z) (team : string) (b fuel : nat) (tbl : Table) (off : nat)
  (res : Results) (m : string) :
  selectThrows env (S (batches res)) = None ->
  flat_map (queuedFor price) (fetch env s e team b (batches res) tbl off)
  <> [] ->
  updateThrows env (S (batches res)) = Some m ->
  deadlinePassed env (S (batches res)) = false ->
  loop price env s e team b (S fuel) tbl off res
  = loop price env s e team b fuel tbl (off + b)
      (mkResults (updated res)
         (processed res
          + List.length
              (filter (priced price)
                 (fetch env s e team b (batches res) tbl off)))
         ((errors res
           ++ flat_map (rowErrorsFor price)
                (fetch env s e team b (batches res) tbl off))
          ++ [BatchError (S (batches res)) m])
         (S (batches res))).
Proof.
  intros Hfetch Hq Hw Hclock. rewrite loop_unfold, Hfetch.
  destruct (fetch env s e team b (batches res) tbl off) as [|r rows] eqn:Hrows;
    [now contradiction Hq|].
  rewrite <- Hrows in *. cbv zeta. rewrite batchStep_spec. cbv zeta.
  destruct (flat_map (queuedFor price)
              (fetch env s e team b (batches res) tbl off));
    [now contradiction Hq|].
  rewrite Hw. cbn [fst snd batches]. now rewrite Hclock.
Qed.

Lemma failed_write_is_recorded_witness :
  loop perTokenPrice
    {| now := fun _ => 0;
       selectThrows := fun _ => None;
       tieOrder := fun _ => scanOrder;
       updateThrows := fun _ => Some "deadlock detected"%string;
       refreshThrows := fun _ => None;
       connectTeamClient := Returns tt;
       loadPricingFromDb := Returns tt |}
    0 10 "team1" 2 6 fiveEvents 0 (mkResults 0 0 [] 0)
  = loop perTokenPrice
      {| now := fun _ => 0;
         selectThrows := fun _ => None;
         tieOrder := fun _ => scanOrder;
         updateThrows := fun _ => Some "deadlock detected"%string;
         refreshThrows := fun _ => None;
         connectTeamClient := Returns tt;
         loadPricingFromDb := Returns tt |}
      0 10 "team1" 2 5 fiveEvents 2
      (mkResults 0 2 [BatchError 1 "deadlock detected"] 1).
Proof.
  apply (failed_write_is_recorded perTokenPrice _ 0 10 "team1" 2 5 fiveEvents
           0 (mkResults 0 0 [] 0) "deadlock detected").
  - reflexivity.
  - vm_compute. discriminate.
  - reflexivity.
  - reflexivity.
Defined.

End Further.

(** ** The shape of the partition *)

Section PartitionShape.
Import Partition PartitionFacts Logs.

Lemma utcDayStart_aligned (d : Z) : (86400000 | utcDayStart d).
Proof. unfold utcDayStart. apply Z.divide_factor_r. Qed.

(** Rollups are used only for a window that holds a whole UTC day, and
    always for one of two days or more.  With full buckets, both ends of
    the full range are midnights, the head and the tail fetched from the raw
    table are each shorter than a day, and every partial range handed to
    [getBaseAggData] is non-empty (its own emptiness guard never fires). *)
Theorem full_buckets_hold_whole_days (s e : Z) :
  s < e ->
  (hasFullBuckets s e = true ->
   86400000 <= e - s
   /\ (86400000 | fullBucketStart s) /\ (86400000 | fullBucketEnd e)
   /\ s <= fullBucketStart s < s + 86400000
   /\ fullBucketEnd e <= e < fullBucketEnd e + 86400000)
  /\ (2 * 86400000 <= e - s -> hasFullBuckets s e = true)
  /\ Forall (fun r => r_start r < r_end r) (partialRanges s e)
  /\ (List.length (partialRanges s e) <= 2)%nat.
Proof.
  intros Hse.
  destruct (fullBucketStart_bounds s) as [Hs Hcase].
  pose proof (utcDayStart_bounds e) as He.
  assert (Hal : (86400000 | fullBucketStart s)).
  { destruct Hcase as [[-> _]|[-> _]].
    - apply utcDayStart_aligned.
    - apply Z.divide_add_r; [apply utcDayStart_aligned | apply Z.divide_refl]. }
  assert (Hfix : utcDayStart (fullBucketStart s) = fullBucketStart s).
  { destruct Hal as [q Hq]. unfold utcDayStart. rewrite Hq.
    now rewrite Z.div_mul by lia. }
  unfold hasFullBuckets, fullBucketEnd.
  split; [|split; [|split]].
  - intros Hfull. apply Z.ltb_lt in Hfull.
    split; [destruct (utcDayStart_step (fullBucketStart s) e ltac:(lia)); lia|].
    split; [exact Hal|].
    split; [apply utcDayStart_aligned|]. lia.
  - intros Hlong. apply Z.ltb_lt.
    destruct (utcDayStart_step (fullBucketStart s) e ltac:(lia)); lia.
  - unfold partialRanges, pushRange, fullBucketEnd.
    clear Hcase Hal Hfix.
    generalize dependent (fullBucketStart s). intros fs Hs.
    split_tests; cbn [app]; repeat constructor; cbn [r_start r_end]; lia.
  - unfold partialRanges, pushRange.
    destruct (_ <=? s); destruct (e <=? _); cbn; lia.
Qed.

Lemma full_buckets_hold_whole_days_witness :
  hasFullBuckets Samples.noon1 Samples.morning3 = true
  /\ Forall (fun r => r_start r < r_end r)
       (partialRanges Samples.noon1 Samples.morning3).
Proof.
  destruct (full_buckets_hold_whole_days Samples.noon1 Samples.morning3)
    as (_ & _ & Hranges & _); [reflexivity|].
  split; [reflexivity | exact Hranges].
Defined.


End PartitionShape.

(** ** What the merger keeps *)

Section MergerKeeps.
Import Merge MergeFacts Store.

Lemma insertByCost_perm (x : MergedRow) (l : list MergedRow) :
  Permutation (insertByCost x l) (x :: l).
Proof.
  induction l as [|y l IH]; cbn; [reflexivity|].
  destruct (Qle_bool (total_cost y) (total_cost x)); [reflexivity|].
  rewrite IH. apply perm_swap.
Qed.

Lemma sortByCostDesc_perm (l : list MergedRow) :
  Permutation (sortByCostDesc l) l.
Proof.
  induction l as [|x l IH]; cbn; [reflexivity|].
  rewrite insertByCost_perm. now constructor.
Qed.

Lemma sumZ_perm (l1 l2 : list Z) :
  Permutation l1 l2 -> sumZ l1 = sumZ l2.
Proof. unfold sumZ. induction 1; cbn; lia. Qed.

Lemma mergeResults_perm (ca base : list QueryRow) (kf : list string) :
  Permutation (mergeResults ca base kf)
    (map dropLatencySum (mapValues (mergedMap ca base kf))).
Proof. apply sortByCostDesc_perm. Qed.

Section Totals.

(** A summed column: [f] on merged rows, [g] on the rows read. *)
Variables (f : MergedRow -> Z) (g : QueryRow -> Z).
Hypothesis f_entry : forall kf o r,
    f (mergedEntry kf o r)
    = match o with Some ex => f ex | None => 0 end + g r.
Hypothesis f_drop : forall m, f (dropLatencySum m) = f m.

Lemma total_mapSet (k : string) (v : MergedRow) (m : MergedMap) :
  sumZ (map f (mapValues (mapSet k v m)))
  = sumZ (map f (mapValues m))
    - match mapGet k m with Some ex => f ex | None => 0 end + f v.
Proof.
  unfold mapValues, sumZ. induction m as [|[k' v'] m IH]; cbn; [lia|].
  destruct (String.eqb_spec k k'); cbn; lia.
Qed.

Lemma total_fold (kf : list string) (rows : list QueryRow) (m : MergedMap) :
  sumZ (map f (mapValues (fold_left (addRow kf) rows m)))
  = sumZ (map f (mapValues m)) + sumZ (map g rows).
Proof.
  revert m. induction rows as [|r rows IH]; intros m; cbn [fold_left map].
  - unfold sumZ at 3. cbn. lia.
  - rewrite IH. unfold addRow. rewrite total_mapSet, f_entry.
    unfold sumZ at 4. cbn [fold_right]. fold (sumZ (map g rows)).
    destruct (mapGet (rowKey kf r) m); lia.
Qed.

Lemma total_mergeResults (ca base : list QueryRow) (kf : list string) :
  sumZ (map f (mergeResults ca base kf)) = sumZ (map g (ca ++ base)).
Proof.
  rewrite (sumZ_perm _ _ (Permutation_map f (mergeResults_perm ca base kf))).
  rewrite map_map. rewrite (map_ext _ f f_drop).
  rewrite mergedMap_as_one_fold, total_fold. reflexivity.
Qed.

End Totals.

(** The merger neither loses nor invents a request or a token: the counts
    and token sums of the result add up to those of the rows read, whatever
    the keys and the number of rows per key ([NaN] counting as 0). *)
Theorem merge_conserves_totals (ca base : list QueryRow) (kf : list string) :
  sumZ (map request_count (mergeResults ca base kf))
  = sumZ (map (fun r => Js.intOrZero (q_request_count r)) (ca ++ base))
  /\ sumZ (map total_input_tokens (mergeResults ca base kf))
     = sumZ (map (fun r => Js.intOrZero (q_total_input_tokens r)) (ca ++ base))
  /\ sumZ (map total_output_tokens (mergeResults ca base kf))
     = sumZ (map (fun r => Js.intOrZero (q_total_output_tokens r)) (ca ++ base))
  /\ sumZ (map total_tokens (mergeResults ca base kf))
     = sumZ (map (fun r => Js.intOrZero (q_total_tokens r)) (ca ++ base)).
Proof.
  repeat split; apply total_mergeResults;
    try (intros kf' [ex|] r; reflexivity); reflexivity.
Qed.

Lemma fold_addRow_keys (kf : list string) (rows : list QueryRow)
  (m : MergedMap) (k : string) :
  In k (map fst (fold_left (addRow kf) rows m))
  <-> In k (map fst m) \/ In k (map (rowKey kf) rows).
Proof.
  revert m. induction rows as [|r rows IH]; intros m; cbn [fold_left map In];
    [tauto|].
  rewrite IH. unfold addRow. rewrite mapSet_keys.
  destruct (in_dec string_dec (rowKey kf r) (map fst m)) as [Hin|Hnin].
  - split; [tauto|]. intros [H|[<-|H]]; auto.
  - rewrite in_app_iff. cbn [In]. tauto.
Qed.

Lemma keys_of_values (m : MergedMap) :
  Forall (fun kv => mergedKey (snd kv) = fst kv) m ->
  map mergedKey (map dropLatencySum (mapValues m)) = map fst m.
Proof.
  unfold mapValues. induction 1 as [|[k v] m Hk _ IH]; cbn; [reflexivity|].
  cbn in Hk. rewrite IH. f_equal. exact Hk.
Qed.

(** The result holds one row for each distinct group key of the rows read,
    and no other. *)
Theorem one_row_per_group_key (ca base : list QueryRow) (kf : list string) :
  NoDup (map mergedKey (mergeResults ca base kf))
  /\ forall k, In k (map mergedKey (mergeResults ca base kf))
               <-> In k (map (rowKey kf) (ca ++ base)).
Proof.
  destruct (keyed_mergedMap ca base kf) as [Hnd Hall].
  pose proof (keys_of_values _ Hall) as Hkeys.
  pose proof (Permutation_map mergedKey (mergeResults_perm ca base kf)) as Hp.
  rewrite Hkeys in Hp. split.
  - eapply Permutation_NoDup; [apply Permutation_sym, Hp | exact Hnd].
  - intros k. split.
    + intros Hin. apply (Permutation_in _ Hp) in Hin.
      rewrite mergedMap_as_one_fold in Hin.
      apply fold_addRow_keys in Hin. cbn in Hin. tauto.
    + intros Hin. apply (Permutation_in _ (Permutation_sym Hp)).
      rewrite mergedMap_as_one_fold. apply fold_addRow_keys. now right.
Qed.

End MergerKeeps.

Section MergerCost.
Import Merge MergeFacts Store.
Local Open Scope Q_scope.

Lemma sumQ_perm (l1 l2 : list Q) :
  Permutation l1 l2 -> sumQ l1 == sumQ l2.
Proof. unfold sumQ. induction 1; cbn; lra. Qed.

Lemma cost_mapSet (k : string) (v : MergedRow) (m : MergedMap) :
  sumQ (map total_cost (mapValues (mapSet k v m)))
  == sumQ (map total_cost (mapValues m))
     - match mapGet k m with Some ex => total_cost ex | None => 0 end
     + total_cost v.
Proof.
  unfold mapValues, sumQ. induction m as [|[k' v'] m IH]; cbn; [lra|].
  destruct (String.eqb_spec k k'); cbn; lra.
Qed.

Lemma cost_fold (kf : list string) (rows : list QueryRow) (m : MergedMap) :
  sumQ (map total_cost (mapValues (fold_left (addRow kf) rows m)))
  == sumQ (map total_cost (mapValues m))
     + sumQ (map (fun r => Js.numOrZero (q_total_cost r)) rows).
Proof.
  revert m. induction rows as [|r rows IH]; intros m; cbn [fold_left map].
  - unfold sumQ at 3. cbn. lra.
  - rewrite IH. unfold addRow. rewrite cost_mapSet.
    unfold sumQ at 4. cbn [fold_right].
    fold (sumQ (map (fun r => Js.numOrZero (q_total_cost r)) rows)).
    destruct (mapGet (rowKey kf r) m); cbn; lra.
Qed.

(** The costs of the result add up to the costs of the rows read. *)
Theorem merge_conserves_cost (ca base : list QueryRow) (kf : list string) :
  sumQ (map total_cost (mergeResults ca base kf))
  == sumQ (map (fun r => Js.numOrZero (q_total_cost r)) (ca ++ base)).
Proof.
  rewrite (sumQ_perm _ _
             (Permutation_map total_cost (mergeResults_perm ca base kf))).
  rewrite map_map.
  rewrite (map_ext (fun x => total_cost (dropLatencySum x)) total_cost)
    by reflexivity.
  rewrite mergedMap_as_one_fold, cost_fold.
  change (sumQ (map total_cost (mapValues []))) with 0. lra.
Qed.

(** The entry built from an existing one and further rows: its count and
    latency sum accumulate, and its average is the quotient of the two. *)
Lemma combined_entry (kf : list string) (rest : list QueryRow) :
  forall ex : MergedRow,
  exists v,
    fold_left (fun o r => Some (mergedEntry kf o r)) rest (Some ex) = Some v
    /\ request_count v
       = (request_count ex
          + sumZ (map (fun r => Js.intOrZero (q_request_count r)) rest))%Z
    /\ latency_sum v
       == latency_sum ex
          + sumQ (map (fun r => Js.numOrZero (q_avg_latency_ms r)
                                * inject_Z (Js.intOrZero (q_request_count r)))
                    rest)
    /\ (rest <> [] ->
        avg_latency_ms v
        = if (0 <? request_count v)%Z
          then latency_sum v / inject_Z (request_count v) else 0).
Proof.
  induction rest as [|r rest IH]; intros ex.
  - exists ex. cbn. unfold sumZ, sumQ. cbn.
    split; [reflexivity|]. split; [lia|]. split; [lra | congruence].
  - cbn [fold_left].
    destruct (IH (mergedEntry kf (Some ex) r)) as (v & Hv & Hc & Hl & Ha).
    exists v. split; [exact Hv|].
    cbn [mergedEntry request_count latency_sum] in Hc, Hl.
    split; [|split].
    + rewrite Hc. unfold sumZ. cbn. lia.
    + rewrite Hl. unfold sumQ. cbn. lra.
    + intros _. destruct rest as [|r' rest]; [|apply Ha; discriminate].
      cbn in Hv. injection Hv as <-. reflexivity.
Qed.

(** The merge rule for any number of partial aggregates.  When the rows
    read under a group key are [r1, r2, ..., rn] with [n >= 2], the row of
    that key has the summed count and, for a positive count, the
    count-weighted mean of the averages; for a count that is not positive
    the average is 0.  A key read once keeps the average it came with. *)
Theorem weighted_mean_of_all_parts (kf : list string)
  (ca base : list QueryRow) (k : string) (r1 : QueryRow)
  (rest : list QueryRow) :
  filter (fun r => String.eqb (rowKey kf r) k) (ca ++ base) = r1 :: rest ->
  let count :=
    sumZ (map (fun r => Js.intOrZero (q_request_count r)) (r1 :: rest)) in
  let weighted :=
    sumQ (map (fun r => Js.numOrZero (q_avg_latency_ms r)
                        * inject_Z (Js.intOrZero (q_request_count r)))
              (r1 :: rest)) in
  exists row,
    In row (mergeResults ca base kf)
    /\ mergedKey row = k
    /\ request_count row = count
    /\ (rest = [] -> avg_latency_ms row = Js.numOrZero (q_avg_latency_ms r1))
    /\ (rest <> [] -> (0 < count)%Z ->
        avg_latency_ms row == weighted / inject_Z count)
    /\ (rest <> [] -> (count <= 0)%Z -> avg_latency_ms row = 0).
Proof.
  intros Hfilter count weighted.
  assert (Hk1 : rowKey kf r1 = k).
  { assert (Hin : In r1 (filter (fun r => String.eqb (rowKey kf r) k)
                           (ca ++ base))) by (rewrite Hfilter; now left).
    apply filter_In in Hin. now apply String.eqb_eq. }
  destruct (combined_entry kf rest (mergedEntry kf None r1))
    as (v & Hv & Hc & Hl & Ha).
  assert (Hget : mapGet k (mergedMap ca base kf) = Some v).
  { rewrite mergedMap_as_one_fold, mapGet_fold_addRow, Hfilter. exact Hv. }
  assert (Hkv : mergedKey v = k).
  { destruct (keyed_mergedMap ca base kf) as [_ Hall].
    rewrite Forall_forall in Hall.
    exact (Hall _ (mapGet_Some_in _ _ _ Hget)). }
  cbn [mergedEntry request_count latency_sum] in Hc, Hl.
  assert (Hcount : request_count v = count).
  { rewrite Hc. unfold count, sumZ. cbn. lia. }
  assert (Hweighted : latency_sum v == weighted).
  { rewrite Hl. unfold weighted, sumQ. cbn. lra. }
  exists (dropLatencySum v).
  split; [apply mergeResults_In; exists v; now rewrite Hkv|].
  split; [exact Hkv|]. split; [exact Hcount|].
  cbn [dropLatencySum avg_latency_ms].
  split; [|split].
  - intros ->. cbn in Hv. injection Hv as <-. reflexivity.
  - intros Hne Hpos. rewrite (Ha Hne), Hcount.
    destruct (Z.ltb_spec 0 count); [|lia]. now rewrite Hweighted.
  - intros Hne Hneg. rewrite (Ha Hne), Hcount.
    destruct (Z.ltb_spec 0 count); [lia | reflexivity].
Qed.

Lemma weighted_mean_of_all_parts_witness :
  exists row,
    In row (mergeResults [Samples.gptRow 1 10] 
              [Samples.gptRow 9 100; Samples.gptRow 10 50]
              ["model"%string])
    /\ request_count row = 20%Z
    /\ avg_latency_ms row == (141 # 2).
Proof.
  destruct (weighted_mean_of_all_parts ["model"%string]
              [Samples.gptRow 1 10]
              [Samples.gptRow 9 100; Samples.gptRow 10 50] "gpt"
              (Samples.gptRow 1 10)
              [Samples.gptRow 9 100; Samples.gptRow 10 50] eq_refl)
    as (row & Hin & _ & Hcount & _ & Havg & _).
  exists row. split; [exact Hin|]. split; [exact Hcount|].
  rewrite Havg; [reflexivity | discriminate | reflexivity].
Defined.

End MergerCost.

(** ** Pagination and validation order of [GET /logs] *)

Section LogsEdges.
Import Json Merge Logs LogsFacts Store Views.

Lemma slice_page {A : Type} (l : list A) (o lim : Z) :
  0 <= o -> 0 <= lim ->
  Js.slice l (Some o) (Js.add (Some o) (Some lim))
  = firstn (Z.to_nat lim) (skipn (Z.to_nat o) l).
Proof.
  intros Ho Hlim. unfold Js.slice, Js.sliceIndex, Js.add, Js.intOrZero.
  set (len := Z.of_nat (List.length l)).
  assert (Hlen : 0 <= len) by (unfold len; lia).
  destruct (Z.ltb_spec o 0); [lia|]. destruct (Z.ltb_spec (o + lim) 0); [lia|].
  destruct (Z.le_gt_cases len o) as [Hout|Hin].
  - rewrite (Z.min_r o len) by lia.
    rewrite !skipn_all2 by (unfold len in *; lia).
    now rewrite !firstn_nil.
  - rewrite (Z.min_l o len) by lia.
    destruct (Z.le_gt_cases (o + lim) len) as [Hfit|Hover].
    + rewrite Z.min_l by lia. f_equal. lia.
    + rewrite Z.min_r by lia.
      rewrite !firstn_all2; [reflexivity | |];
        rewrite length_skipn; unfold len in *; lia.
Qed.

(** With a limit and an offset that are not negative, the rollup path
    ([slice] on the merged rows) and the raw-table path ([LIMIT]/[OFFSET] in
    the store) cut the same page out of the same rows, and the page holds at
    most [limit] rows. *)
Theorem both_paths_cut_the_same_page {A : Type} (l : list A) (o lim : Z) :
  0 <= o -> 0 <= lim ->
  limitOffset l (Some lim) (Some o)
  = Returns (Js.slice l (Some o) (Js.add (Some o) (Some lim)))
  /\ (Z.of_nat (List.length (Js.slice l (Some o) (Js.add (Some o) (Some lim))))
      <= lim).
Proof.
  intros Ho Hlim. rewrite slice_page by assumption. split.
  - unfold limitOffset.
    destruct (Z.ltb_spec lim 0); [lia|]. destruct (Z.ltb_spec o 0); [lia|].
    reflexivity.
  - rewrite length_firstn. lia.
Qed.

Lemma both_paths_cut_the_same_page_witness :
  limitOffset [1; 2; 3; 4; 5] (Some 2) (Some 1) = Returns [2; 3].
Proof.
  destruct (both_paths_cut_the_same_page [1; 2; 3; 4; 5] 1 2) as [H _];
    [discriminate | discriminate | exact H].
Defined.

(** Whatever the offset parameter, a limit that parses to a number that is
    not negative bounds the page of the rollup path by [min(limit, 5000)]. *)
Theorem rollup_page_is_bounded (req : Request) (rows : list MergedRow)
  (n : Z) :
  Js.parseInt (Js.orString (limit req) "500") = Some n -> 0 <= n ->
  Z.of_nat (List.length
              (Js.slice rows (effectiveOffset req)
                 (Js.add (effectiveOffset req) (effectiveLimit req))))
  <= Z.min n 5000.
Proof.
  intros Hn Hpos. unfold effectiveLimit, effectiveOffset. rewrite Hn.
  destruct (Js.parseInt (Js.orString (offset req) "0")) as [o|];
    cbn [Js.Math_max Js.Math_min].
  - rewrite slice_page by lia. rewrite length_firstn. lia.
  - unfold Js.slice, Js.sliceIndex, Js.add, Js.intOrZero.
    change (0 <? 0) with false. cbv iota.
    rewrite Z.min_l by lia. cbn [Z.sub Z.opp Z.add Z.to_nat firstn List.length].
    lia.
Qed.

Lemma rollup_page_is_bounded_witness :
  Z.of_nat (List.length
              (Js.slice (@nil MergedRow)
                 (effectiveOffset (Samples.groupedRequest "model"
                                     (Some "99999"%string) None))
                 (Js.add
                    (effectiveOffset (Samples.groupedRequest "model"
                                        (Some "99999"%string) None))
                    (effectiveLimit (Samples.groupedRequest "model"
                                       (Some "99999"%string) None)))))
  <= 5000.
Proof.
  apply (rollup_page_is_bounded
           (Samples.groupedRequest "model" (Some "99999"%string) None)
           [] 99999); [reflexivity | discriminate].
Defined.

(** A request without a usable token or with a missing or invalid window is
    answered 401 or 400 before the database is touched: the answer is the
    same on every database.  Once the token and the window pass, a failing
    connection answers 500 [logs_failed] whatever the other parameters are,
    an unsupported [group_by] included. *)
Theorem logs_checks_come_before_the_database (db db' : Db) (req : Request) :
  (teamOf req = None \/ startDate req = None \/ endDate req = None ->
   logs db req = logs db' req
   /\ (status (logs db req) = 401 \/ status (logs db req) = 400))
  /\ (forall team s e m,
         teamOf req = Some team -> startDate req = Some s ->
         endDate req = Some e -> connectTeamClient db team = Throws m ->
         logs db req = logsFailed m).
Proof.
  split.
  - unfold logs. destruct (teamOf req) as [team|]; [|cbn; auto].
    destruct (startDate req) as [s|]; [|cbn; auto].
    destruct (endDate req) as [e|]; [|cbn; auto].
    intros [H|[H|H]]; discriminate.
  - intros team s e m Ht Hs He Hc. unfold logs. now rewrite Ht, Hs, He, Hc.
Qed.

Lemma logs_checks_come_before_the_database_witness :
  logs Samples.quietDb
    {| token := None; startDate := Some 0; endDate := Some 1;
       group_by := None; limit := None; offset := None;
       typeFilter := None; successFilter := None |}
  = invalidToken.
Proof.
  destruct (logs_checks_come_before_the_database Samples.rollupDownDb
              Samples.quietDb
              {| token := None; startDate := Some 0; endDate := Some 1;
                 group_by := None; limit := None; offset := None;
                 typeFilter := None; successFilter := None |}) as [H _].
  destruct (H (or_introl eq_refl)) as [<- _]. reflexivity.
Defined.

End LogsEdges.

(** ** The filters of the raw-row branch, on the event store *)

Section RawFilters.
Import Json Merge Logs LogsFacts Store Views.

Lemma limitOffset_In {A : Type} (l rows : list A) (lim off : Js.jsint)
  (x : A) :
  limitOffset l lim off = Returns rows -> In x rows -> In x l.
Proof.
  unfold limitOffset. destruct lim as [n|], off as [o|]; try discriminate.
  destruct (n <? 0); [discriminate|]. destruct (o <? 0); [discriminate|].
  intros [= <-] Hin.
  eapply RecalcFacts.in_skipn, RecalcFacts.in_firstn, Hin.
Qed.

Lemma insertNewestFirst_In (x y : Event) (l : list Event) :
  In x (insertNewestFirst y l) -> x = y \/ In x l.
Proof.
  induction l as [|z l IH]; cbn; [intuition congruence|].
  destruct (ev_timestamp z <=? ev_timestamp y); cbn; [intuition congruence|].
  intros [->|H]; [tauto|]. apply IH in H. tauto.
Qed.

Lemma newestFirst_In (x : Event) (l : list Event) :
  In x (newestFirst l) -> In x l.
Proof.
  induction l as [|y l IH]; cbn; [tauto|].
  intros H. apply insertNewestFirst_In in H. destruct H as [->|H]; auto.
Qed.

Lemma grouped_has_no_rows db team s e gf lim off :
  responseRows (grouped db team s e gf lim off) = [].
Proof.
  unfold grouped, baseTableFallback.
  destruct (if useModelCA gf || useModelProviderCA gf then _ else _)
    as [[rows [|]]|m]; cbn [negb];
    try (destruct (aggSql db _ _ s e team lim off)); reflexivity.
Qed.

(** Every raw row of a response comes from an event of the store that
    satisfies all the conditions the request pushed. *)
Lemma raw_rows_satisfy_conditions (evs : list Event) (req : Request)
  (r : json) :
  In r (responseRows (logs (storeDb evs) req)) ->
  exists ev team s e,
    In ev evs /\ r = rawRow ev
    /\ teamOf req = Some team /\ startDate req = Some s
    /\ endDate req = Some e
    /\ forallb (holds s e team ev) (whereConditions req) = true.
Proof.
  unfold logs. destruct (teamOf req) as [team|]; [|intros []].
  destruct (startDate req) as [s|]; [|intros []].
  destruct (endDate req) as [e|]; [|intros []].
  cbn [storeDb connectTeamClient rawSql].
  assert (Hraw : In r (responseRows
                         match evalRawSql evs (whereConditions req) s e team
                                 (effectiveLimit req) (effectiveOffset req)
                         with
                         | Returns rows => rawResponse s e req rows
                         | Throws m => logsFailed m
                         end) ->
                 exists ev team0 s0 e0,
                   In ev evs /\ r = rawRow ev /\ Some team = Some team0
                   /\ Some s = Some s0 /\ Some e = Some e0
                   /\ forallb (holds s0 e0 team0 ev) (whereConditions req)
                      = true).
  { destruct (evalRawSql evs _ s e team _ _) as [rows|m] eqn:Hq;
      [|intros []].
    unfold responseRows, rawResponse. cbn [body ok jget assoc String.eqb
                                             Ascii.eqb Bool.eqb items].
    intros Hin. unfold evalRawSql in Hq.
    apply (limitOffset_In _ _ _ _ _ Hq) in Hin.
    apply in_map_iff in Hin. destruct Hin as (ev & <- & Hev).
    apply newestFirst_In, filter_In in Hev.
    exists ev, team, s, e. tauto. }
  destruct (group_by req) as [[|c g]|]; try exact Hraw.
  destruct (List.length (groupFieldsOf (String c g)) =? 0)%nat;
    [intros [] |].
  rewrite grouped_has_no_rows. intros [].
Qed.

(** On the event store, the rows returned under [type=tool_call] and
    [type=llm_request] all carry that [derived_type]; under [type=error]
    they carry [error] or [tool_call] (a tool call that did not finish
    passes the error filter); under [success=true] every row has
    [derived_success] true, under any other non-empty [success] false. *)
Theorem raw_filters_match_derived_columns (evs : list Event) (req : Request)
  (r : json) :
  In r (responseRows (logs (storeDb evs) req)) ->
  (typeFilter req = Some "tool_call"%string ->
   jget "derived_type" r = Some (JStr "tool_call"))
  /\ (typeFilter req = Some "llm_request"%string ->
      jget "derived_type" r = Some (JStr "llm_request"))
  /\ (typeFilter req = Some "error"%string ->
      jget "derived_type" r = Some (JStr "error")
      \/ jget "derived_type" r = Some (JStr "tool_call"))
  /\ (successFilter req = Some "true"%string ->
      jget "derived_success" r = Some (JBool true))
  /\ (forall f, successFilter req = Some f -> f <> EmptyString ->
                f <> "true"%string ->
                jget "derived_success" r = Some (JBool false)).
Proof.
  intros Hin.
  destruct (raw_rows_satisfy_conditions evs req r Hin)
    as (ev & team & s & e & _ & -> & _ & _ & _ & Hconds).
  unfold whereConditions in Hconds.
  rewrite !forallb_app in Hconds.
  apply andb_true_iff in Hconds. destruct Hconds as [_ Hconds].
  apply andb_true_iff in Hconds. destruct Hconds as [Htype Hsucc].
  unfold rawRow, jget. cbn [assoc String.eqb Ascii.eqb Bool.eqb].
  repeat split.
  - intros Ht. rewrite Ht in Htype. cbn in Htype.
    rewrite andb_true_r in Htype. now rewrite Htype.
  - intros Ht. rewrite Ht in Htype. cbn in Htype.
    rewrite andb_true_r in Htype.
    apply andb_true_iff in Htype. destruct Htype as [Hno Hfin].
    apply Z.eqb_eq in Hno. rewrite Hno. cbn [Z.ltb Z.compare].
    apply andb_true_iff in Hfin. destruct Hfin as [Hnn Hne].
    apply negb_true_iff in Hnn, Hne. now rewrite Hnn, Hne.
  - intros Ht. rewrite Ht in Htype. cbn in Htype.
    rewrite andb_true_r in Htype. rewrite Htype.
    destruct (0 <? coalesce (ev_tool_call_count ev) 0); auto.
  - intros Hs. rewrite Hs in Hsucc. cbn in Hsucc.
    rewrite andb_true_r in Hsucc. now rewrite Hsucc.
  - intros f Hs Hne Hnt. rewrite Hs in Hsucc. unfold successConditions in Hsucc.
    destruct (String.eqb_spec f EmptyString); [contradiction|].
    destruct (String.eqb_spec f "true"%string); [contradiction|].
    cbn in Hsucc. rewrite andb_true_r in Hsucc.
    destruct (ev_finish_reason ev) as [fr|]; cbn in *; [|reflexivity].
    apply negb_true_iff in Hsucc. now rewrite Hsucc.
Qed.

Lemma raw_filters_match_derived_columns_witness :
  jget "derived_type" (rawRow (Samples.unfinishedToolCall Samples.midnight2))
  = Some (JStr "tool_call").
Proof.
  destruct (raw_filters_match_derived_columns
              [Samples.eventAt Samples.noon1;
               Samples.unfinishedToolCall Samples.midnight2]
              (Samples.typedRequest "tool_call")
              (rawRow (Samples.unfinishedToolCall Samples.midnight2)))
    as (Htool & _).
  - vm_compute. left. reflexivity.
  - exact (Htool eq_refl).
Defined.

(** The same unfinished tool call is returned under [type=error] with
    [derived_type] [tool_call]. *)
Example error_filter_returns_a_tool_call :
  Json.column "rows" "derived_type"
    (body (logs (storeDb [Samples.eventAt Samples.noon1;
                          Samples.unfinishedToolCall Samples.midnight2])
             (Samples.typedRequest "error")))
  = [Some (JStr "tool_call")].
Proof. reflexivity. Qed.

(** A [type] value other than [tool_call], [error] and [llm_request] adds no
    condition: the rows and the count are those of the unfiltered request,
    on every database. *)
Theorem unknown_type_filter_is_ignored (db : Db) (req : Request) (t : string) :
  t <> "tool_call"%string -> t <> "error"%string ->
  t <> "llm_request"%string ->
  whereConditions (withType req (Some t)) = whereConditions (withType req None)
  /\ responseRows (logs db (withType req (Some t)))
     = responseRows (logs db (withType req None))
  /\ jget "count" (body (logs db (withType req (Some t))))
     = jget "count" (body (logs db (withType req None))).
Proof.
  intros H1 H2 H3.
  assert (Hc : whereConditions (withType req (Some t))
               = whereConditions (withType req None)).
  { unfold whereConditions, typeConditions. cbn [withType typeFilter
                                                   successFilter].
    destruct (String.eqb t EmptyString || String.eqb t "all"); [reflexivity|].
    destruct (String.eqb_spec t "tool_call"); [contradiction|].
    destruct (String.eqb_spec t "error"); [contradiction|].
    destruct (String.eqb_spec t "llm_request"); [contradiction|].
    reflexivity. }
  split; [exact Hc|].
  unfold logs, teamOf. rewrite Hc.
  cbn [withType token startDate endDate group_by limit offset].
  unfold effectiveLimit, effectiveOffset. cbn [withType limit offset].
  destruct (token req) as [ctx|]; [|now split].
  destruct (String.eqb (team_id ctx) EmptyString); [now split|].
  destruct (startDate req) as [s|]; [|now split].
  destruct (endDate req) as [e|]; [|now split].
  destruct (connectTeamClient db (team_id ctx)); [|now split].
  destruct (group_by req) as [[|c g]|]; try now split.
  - destruct (rawSql db _ s e _ _ _); now split.
  - destruct (rawSql db _ s e _ _ _); now split.
Qed.

Lemma unknown_type_filter_is_ignored_witness :
  responseRows (logs (storeDb [Samples.eventAt Samples.noon1])
                  (withType (Samples.rawRequest None None) (Some "foo"%string)))
  = responseRows (logs (storeDb [Samples.eventAt Samples.noon1])
                    (withType (Samples.rawRequest None None) None)).
Proof.
  apply (unknown_type_filter_is_ignored
           (storeDb [Samples.eventAt Samples.noon1])
           (Samples.rawRequest None None) "foo"); discriminate.
Defined.

End RawFilters.

(** ** What a recalculation writes *)

Section RecalcWrites.
Import Json Recalc RecalcFacts.

Variable price : CostInput -> outcome Q.
Variable env : Env.

Lemma Forall2_same {A : Type} (R : A -> A -> Prop) (l : list A) :
  (forall x, R x x) -> Forall2 R l l.
Proof. intros HR. induction l; constructor; auto. Qed.

Lemma Forall2_In_r {A B : Type} (R : A -> B -> Prop) (l1 : list A)
  (l2 : list B) (y : B) :
  Forall2 R l1 l2 -> In y l2 -> exists x, In x l1 /\ R x y.
Proof.
  induction 1 as [|x y' l1 l2 Hxy _ IH]; [intros []|].
  intros [<-|Hin].
  - exists x. split; [now left | exact Hxy].
  - destruct (IH Hin) as (x' & Hx' & HR). exists x'. split; [now right | exact HR].
Qed.

Lemma Forall2_map_r {A B C : Type} (R : A -> C -> Prop) (f : B -> C)
  (l1 : list A) (l2 : list B) :
  Forall2 (fun x y => R x (f y)) l1 l2 -> Forall2 R l1 (map f l2).
Proof. induction 1; cbn; constructor; auto. Qed.

Lemma Forall2_weaken {A B : Type} (R R' : A -> B -> Prop) (l1 : list A)
  (l2 : list B) :
  (forall x y, In y l2 -> R x y -> R' x y) ->
  Forall2 R l1 l2 -> Forall2 R' l1 l2.
Proof.
  intros Himp H. induction H as [|x y l1 l2 Hxy _ IH]; constructor.
  - apply Himp; [now left | exact Hxy].
  - apply IH. intros x' y' Hin. apply Himp. now right.
Qed.

Lemma repriced_source (tbl0 : Table) (s e : Z) (team : string)
  (r0 r : LLMEventRow) :
  repriced price tbl0 s e team r0 r ->
  keyOf r = keyOf r0 /\ sentKey r = sentKey r0
  /\ costInputOf r = costInputOf r0
  /\ selectWhere s e team r = selectWhere s e team r0.
Proof.
  intros [->|(row & c & _ & _ & _ & _ & ->)]; repeat split; reflexivity.
Qed.

(** One [UPDATE] keeps the relation to the starting table, whatever page of
    the range its entries come from. *)
Lemma updateSql_repriced (tbl0 tbl : Table) (s e : Z) (team : string)
  (rows : list LLMEventRow) :
  (forall row, In row rows -> In row tbl /\ selectWhere s e team row = true) ->
  Forall2 (repriced price tbl0 s e team) tbl0 tbl ->
  Forall2 (repriced price tbl0 s e team) tbl0
    (updateSql (flat_map (queuedFor price) rows) tbl).
Proof.
  intros Hrows Hrel. unfold updateSql. apply Forall2_map_r.
  apply (Forall2_weaken (repriced price tbl0 s e team)); [|exact Hrel].
  intros r0 r _ Hr. unfold updatedRow.
  destruct (find _ _) as [u|] eqn:Hfind; [|exact Hr].
  apply find_some in Hfind. destruct Hfind as [Hu Hm].
  apply updateMatches_key in Hm.
  apply in_flat_map in Hu. destruct Hu as (row & Hrow & Hq).
  apply queuedFor_price in Hq. destruct Hq as [Hkey Hprice].
  apply Hrows in Hrow. destruct Hrow as [Hin Hwhere].
  destruct (Forall2_In_r _ _ _ _ Hrel Hin) as (row0 & Hin0 & Hrow0).
  apply repriced_source in Hrow0. destruct Hrow0 as (_ & Hk0 & Hc0 & Hw0).
  destruct (repriced_source _ _ _ _ _ _ Hr) as (Hkr & _ & _ & _).
  right. exists row0, (new_cost u).
  split; [exact Hin0|]. split; [congruence|]. split; [congruence|].
  split; [congruence|].
  destruct Hr as [->|(row' & c' & _ & _ & _ & _ & ->)]; reflexivity.
Qed.

Lemma loop_repriced (tbl0 : Table) (s e : Z) (team : string) (b : nat)
  (fuel : nat) :
  forall (tbl : Table) (off : nat) (res : Results) (tbl' : Table)
         (out : outcome Results),
    Forall2 (repriced price tbl0 s e team) tbl0 tbl ->
    loop price env s e team b fuel tbl off res = Some (tbl', out) ->
    Forall2 (repriced price tbl0 s e team) tbl0 tbl'.
Proof.
  induction fuel as [|fuel IH]; intros tbl off res tbl' out Hrel;
    [discriminate|].
  rewrite loop_unfold.
  destruct (selectThrows env _); [now intros [= <- _]|].
  destruct (fetch env s e team b (batches res) tbl off) as [|r rows] eqn:Hrows.
  - now intros [= <- _].
  - rewrite <- Hrows. cbv zeta.
    assert (Hstep : Forall2 (repriced price tbl0 s e team) tbl0
                      (fst (batchStep price env
                              (fetch env s e team b (batches res) tbl off)
                              tbl res))).
    { destruct (batchStep_table price env
                  (fetch env s e team b (batches res) tbl off) tbl res)
        as [-> | ->]; [exact Hrel|].
      apply updateSql_repriced; [|exact Hrel].
      intros row. apply fetch_In. }
    destruct (deadlinePassed env _).
    + now intros [= <- _].
    + now apply IH.
Qed.

(** A request changes nothing but [cost_total]: the table keeps its rows in
    place, and a row that differs from before lies in the requested range
    and has the price the lookup returned for a row of that range whose
    key, with the timestamp cut to the millisecond, is the key of this row.
    An answer 401 or 400 and a failure to connect or to load the prices
    leave the whole table as it was. *)
Theorem recalculation_rewrites_only_costs (fuel : nat) (req : Request)
  (tbl tbl' : Table) (resp : Response) :
  recalculateCosts price env fuel req tbl = Some (tbl', resp) ->
  Forall2 (fun r r' =>
             r' = r
             \/ exists s e team row c,
                  start req = ValidDate s /\ end_ req = ValidDate e
                  /\ teamOf req = Some team
                  /\ In row tbl /\ selectWhere s e team row = true
                  /\ sentKey row = keyOf r
                  /\ timestamptz s <= timestamp r <= timestamptz e
                  /\ price (costInputOf row) = Returns c
                  /\ r' = setCost r c) tbl tbl'
  /\ (status resp = 401 \/ status resp = 400 -> tbl' = tbl)
  /\ (forall m, connectTeamClient env = Throws m -> tbl' = tbl)
  /\ (forall m, loadPricingFromDb env = Throws m -> tbl' = tbl).
Proof.
  unfold recalculateCosts.
  assert (Hsame : forall r,
             Some (tbl, r) = Some (tbl', resp) ->
             Forall2 (fun r r' =>
                        r' = r
                        \/ exists s e team row c,
                             start req = ValidDate s /\ end_ req = ValidDate e
                             /\ teamOf req = Some team
                             /\ In row tbl
                             /\ selectWhere s e team row = true
                             /\ sentKey row = keyOf r
                             /\ timestamptz s <= timestamp r <= timestamptz e
                             /\ price (costInputOf row) = Returns c
                             /\ r' = setCost r c) tbl tbl'
             /\ (status resp = 401 \/ status resp = 400 -> tbl' = tbl)
             /\ (forall m, connectTeamClient env = Throws m -> tbl' = tbl)
             /\ (forall m, loadPricingFromDb env = Throws m -> tbl' = tbl)).
  { intros r [= <- _]. split; [|now repeat split].
    apply Forall2_same. now left. }
  destruct (teamOf req) as [team|]; [|apply Hsame].
  destruct (start req) as [| |s]; try apply Hsame;
    destruct (end_ req) as [| |e]; try apply Hsame.
  destruct (e <? s); [apply Hsame|].
  destruct (connectTeamClient env); [|apply Hsame].
  destruct (loadPricingFromDb env); [|apply Hsame].
  clear Hsame. unfold run.
  destruct (loop price env s e team _ fuel tbl 0 _) as [[t out]|] eqn:Hloop;
    [|discriminate].
  intros Hresp.
  assert (Hresp' : tbl' = t
                   /\ (status resp = 200 \/ status resp = 500)).
  { destruct out; injection Hresp as <- <-; split; auto. }
  destruct Hresp' as [-> Hstatus]. clear Hresp.
  split; [|split; [|split; intros; discriminate]].
  - apply (loop_repriced tbl s e team) in Hloop;
      [|apply Forall2_same; now left].
    apply (Forall2_weaken (repriced price tbl s e team)); [|exact Hloop].
    intros r r' _ [->|(row & c & Hin & Hw & Hk & Hp & ->)]; [now left|].
    right. exists s, e, team, row, c. repeat split; try assumption;
      injection Hk as Ht _ _; rewrite <- Ht;
      unfold selectWhere in Hw;
      apply andb_true_iff in Hw; destruct Hw as [Hw _];
      apply andb_true_iff in Hw; destruct Hw as [Hlo Hhi];
      apply Z.leb_le in Hlo, Hhi;
      apply (jsDate_in_window s e (timestamp row)); lia.
  - intros [H|H]; rewrite H in Hstatus; destruct Hstatus; discriminate.
Qed.

End RecalcWrites.

Section RecalcWritesExample.
Import Json Recalc RecalcFacts.

Lemma recalculation_rewrites_only_costs_witness :
  Forall2 (fun r r' => timestamp r' = timestamp r)
    [Samples.staleEvent 1 "a"; Samples.staleEvent 20 "z"]
    [setCost (Samples.staleEvent 1 "a") (inject_Z 1000 / 1000);
     Samples.staleEvent 20 "z"].
Proof.
  destruct (recalculation_rewrites_only_costs Samples.perTokenPrice
              Samples.fastEnv 6
              {| token := Some (Logs.mkToken "team1" None);
                 start := ValidDate 0; end_ := ValidDate 10;
                 batch_size := Some 2%nat |}
              [Samples.staleEvent 1 "a"; Samples.staleEvent 20 "z"]
              [setCost (Samples.staleEvent 1 "a") (inject_Z 1000 / 1000);
               Samples.staleEvent 20 "z"]
              (completeResponse Samples.fastEnv 0 10 (mkResults 1 1 [] 1)))
    as [Hrows _].
  - vm_compute. reflexivity.
  - eapply Forall2_weaken; [|exact Hrows].
    intros r r' _ [->|(s & e & team & row & c & _ & _ & _ & _ & _ & _ & _ & _
                       & ->)]; reflexivity.
Defined.

(** A fetch that throws is answered 500 with the batches before it
    written: on the five stale events in batches of two, a failure of the
    second fetch leaves the first two rows repriced. *)
Example failed_fetch_keeps_earlier_writes :
  exists tbl' resp,
    recalculateCosts Samples.perTokenPrice Samples.secondFetchFailsEnv 6
      {| token := Some (Logs.mkToken "team1" None);
         start := ValidDate 0; end_ := ValidDate 10;
         batch_size := Some 2%nat |}
      Samples.fiveEvents
    = Some (tbl', resp)
    /\ resp = recalculateFailed "connection terminated"
    /\ status resp = 500
    /\ map cost_total tbl'
       = [Some (inject_Z 1000 / 1000)%Q; Some (inject_Z 1000 / 1000)%Q;
          Some 0%Q; Some 0%Q; Some 0%Q].
Proof.
  do 2 eexists. split; [vm_compute; reflexivity|].
  repeat split; vm_compute; reflexivity.
Qed.

End RecalcWritesExample.

(** ** The counters of a run *)

Section RunCounters.
Import Json Recalc RecalcFacts.

Variable price : CostInput -> outcome Q.
Variable env : Env.
Variables (s e : Z) (team : string) (b : nat).

Lemma queued_le_priced (rows : list LLMEventRow) :
  (List.length (flat_map (queuedFor price) rows)
   <= List.length (filter (priced price) rows))%nat.
Proof.
  induction rows as [|r rows IH]; cbn [flat_map filter]; [apply Nat.le_refl|].
  rewrite length_app. unfold queuedFor at 1, priced at 1.
  destruct (price (costInputOf r)) as [c|m]; [|exact IH].
  destruct (costChanged c _); cbn [List.length]; lia.
Qed.

Lemma batchStep_updated (rows : list LLMEventRow) (tbl : Table)
  (res : Results) :
  (updated (snd (batchStep price env rows tbl res))
   <= updated res + List.length (filter (priced price) rows))%nat.
Proof.
  rewrite batchStep_spec. cbv zeta.
  pose proof (queued_le_priced rows) as Hq.
  destruct (flat_map (queuedFor price) rows) as [|u us];
    [cbn [snd updated]; lia|].
  destruct (updateThrows env _); cbn [snd updated] in *; lia.
Qed.

Lemma loop_counters (n : nat) (fuel : nat) :
  forall (tbl : Table) (off : nat) (res : Results) (tbl' : Table)
         (res' : Results),
    List.length (inRange tbl s e team) = n ->
    (updated res <= processed res)%nat ->
    (processed res <= Nat.min off n)%nat ->
    off = (batches res * b)%nat ->
    (batches res = 0 \/ off < n + b)%nat ->
    loop price env s e team b fuel tbl off res = Some (tbl', Returns res') ->
    (updated res' <= processed res')%nat
    /\ (processed res' <= Nat.min (batches res' * b) n)%nat
    /\ (batches res' = 0 \/ batches res' * b < n + b)%nat.
Proof.
  induction fuel as [|fuel IH];
    intros tbl off res tbl' res' Hn Hup Hproc Hoff Hlast; [discriminate|].
  rewrite loop_unfold.
  destruct (selectThrows env _); [discriminate|].
  pose proof (fetch_length env s e team b (batches res) tbl off) as Hpage.
  rewrite Hn in Hpage.
  destruct (fetch env s e team b (batches res) tbl off) as [|r rows] eqn:Hrows.
  - intros [= _ <-]. subst off. auto.
  - rewrite <- Hrows in *. cbv zeta.
    set (page := fetch env s e team b (batches res) tbl off) in *.
    assert (Hne : (0 < List.length page)%nat) by (rewrite Hrows; cbn; lia).
    pose proof (filter_length_le (priced price) page) as Hpriced.
    destruct (batchStep_counts price env page tbl res) as [Hb Hp].
    pose proof (batchStep_updated page tbl res) as Hu.
    pose proof (inRange_length_step price env s e team page tbl res) as Hsel.
    destruct (deadlinePassed env _).
    + intros [= _ <-]. cbn [updated processed batches].
      rewrite Hb, Hp. cbn [Nat.mul]. repeat split; try lia.
    + apply IH; try lia.
Qed.

(** The statistics of a run that was not ended by a failing fetch: no more
    rows are updated than were priced, no more are priced than the range
    holds or than the batches could carry, and every batch counted held at
    least one row. *)
Theorem run_statistics_are_bounded (rank : LLMEventRow -> Z) (fuel : nat)
  (tbl tbl' : Table) (resp : Response) :
  run price env s e team b fuel tbl = Some (tbl', resp) ->
  (exists m, resp = recalculateFailed m)
  \/ exists res,
      resp = completeResponse env s e res
      /\ (updated res <= processed res)%nat
      /\ (processed res <= List.length (selected rank tbl s e team))%nat
      /\ (processed res <= batches res * b)%nat
      /\ (batches res = 0
          \/ (batches res - 1) * b
             < List.length (selected rank tbl s e team))%nat.
Proof.
  unfold run. rewrite selected_length.
  destruct (loop price env s e team b fuel tbl 0 _) as [[t [res|m]]|]
    eqn:Hloop; [| |discriminate].
  - intros [= _ <-]. right. exists res. split; [reflexivity|].
    destruct (loop_counters (List.length (inRange tbl s e team)) fuel
                tbl 0%nat (mkResults 0 0 [] 0) t res)
      as (Hu & Hp & Hb); cbn [updated processed batches Nat.mul]; auto;
      try lia.
    split; [exact Hu|].
    split; [exact (Nat.le_trans _ _ _ Hp (Nat.le_min_r _ _))|].
    split; [exact (Nat.le_trans _ _ _ Hp (Nat.le_min_l _ _))|].
    destruct (batches res) as [|k]; [now left|right].
    destruct Hb as [Hb|Hb]; [discriminate|].
    cbn [Nat.mul] in Hb. replace (S k - 1)%nat with k by lia. lia.
  - intros [= _ <-]. left. eauto.
Qed.

End RunCounters.

Lemma run_statistics_are_bounded_witness :
  exists res : Recalc.Results,
    (Recalc.updated res <= Recalc.processed res)%nat
    /\ (Recalc.processed res <= 5)%nat.
Proof.
  destruct (run_statistics_are_bounded Samples.perTokenPrice Samples.fastEnv
              0 10 "team1" 2 Recalc.scanOrder 6 Samples.fiveEvents
              (map (fun r => Recalc.setCost r (inject_Z 1000 / 1000))
                 Samples.fiveEvents)
              (Recalc.completeResponse Samples.fastEnv 0 10
                 (Recalc.mkResults 5 5 [] 3)))
    as [[m Hfailed] | (res & _ & Hu & Hp & _)].
  - vm_compute. reflexivity.
  - discriminate Hfailed.
  - exists res. split; [exact Hu | exact Hp].
Defined.

(** ** The first period and the range of a change *)

Section PeriodEdges.
Import Metrics.
Local Open Scope Q_scope.

(** When the query returns no row for the previous period, every
    [change_pct] of the summary is 0 or 100, whatever the current period
    holds. *)
Theorem first_period_changes_are_0_or_100 (current : MetricRow) :
  Forall (fun m => m_change_pct m = 0 \/ m_change_pct m = 100)
    (metrics current emptyRow).
Proof.
  unfold metrics. repeat first [apply Forall_nil | apply Forall_cons];
    cbn [m_change_pct]; unfold pctChange;
    match goal with
    | |- context [Qeq_bool ?p 0] =>
        replace (Qeq_bool p 0) with true by reflexivity
    end;
    match goal with
    | |- context [isPositive ?c] => destruct (isPositive c)
    end; auto.
Qed.

Lemma pctChange_as_ratio (curr prev : column) :
  ~ num prev == 0 ->
  pctChange curr prev == num curr / num prev * 100 - 100.
Proof.
  intros Hne. unfold pctChange.
  destruct (Qeq_bool (num prev) 0) eqn:E.
  - apply Qeq_bool_iff in E. contradiction.
  - field. exact Hne.
Qed.

(** Against a positive previous value, a current value that is not negative
    changes by at least -100 percent, by exactly -100 when it is 0, and the
    change is negative exactly when the value went down. *)
Theorem change_against_a_positive_value (curr prev : column) :
  0 < num prev -> 0 <= num curr ->
  -100 <= pctChange curr prev
  /\ (num curr == 0 -> pctChange curr prev == -100)
  /\ (pctChange curr prev < 0 <-> num curr < num prev).
Proof.
  intros Hp Hc.
  assert (Hne : ~ num prev == 0).
  { intros H. rewrite H in Hp. discriminate. }
  pose proof (pctChange_as_ratio curr prev Hne) as Heq.
  assert (Hratio : 0 <= num curr / num prev).
  { apply Qle_shift_div_l; [exact Hp|]. now rewrite Qmult_0_l. }
  split; [|split].
  - rewrite Heq. lra.
  - intros Hz. rewrite Heq, Hz. field. exact Hne.
  - rewrite Heq. split.
    + intros Hlt.
      assert (Hr : num curr / num prev < 1) by lra.
      apply (Qmult_lt_r _ _ (num prev) Hp) in Hr.
      rewrite Qmult_1_l in Hr.
      setoid_replace (num curr / num prev * num prev) with (num curr) in Hr
        by (field; exact Hne).
      exact Hr.
    + intros Hlt.
      assert (Hr : num curr / num prev < 1).
      { apply Qlt_shift_div_r; [exact Hp|]. now rewrite Qmult_1_l. }
      lra.
Qed.

Lemma change_against_a_positive_value_witness :
  pctChange (Some 0) (Some 8) == -100
  /\ pctChange (Some 6) (Some 8) < 0.
Proof.
  destruct (change_against_a_positive_value (Some 0) (Some 8))
    as (_ & Hzero & _); [reflexivity | discriminate |].
  destruct (change_against_a_positive_value (Some 6) (Some 8))
    as (_ & _ & Hdown); [reflexivity | discriminate |].
  split; [apply Hzero; reflexivity | apply Hdown; reflexivity].
Defined.

End PeriodEdges.
